(** * PIIGuardian: the detection pipeline and its validators

    A shallow embedding of [src/validators.py], [src/patterns.py],
    [src/detector.py] and parts of [src/utils.py].

    Conventions of the model.
    - A Python [str] is a list of characters; a character is a Unicode code
      point, a number of [N].  The character tables ([\d], [\s], [\w],
      [str.isdigit], [str.isspace], [str.lower], the cases of
      [re.IGNORECASE]) are those of CPython 3.11 with Unicode 14: written out
      for the code points below 256, listed by ranges from 256 on.
    - A Python [float] confidence is a rational number [Q].  Every
      confidence of the program is a decimal literal, and the only operations
      on them are comparison, [max] and multiplication by [0.5].
    - An operation that can raise ([int], indexing) returns in the monad
      [py]; a regular expression is a value of [regex], read from the same
      pattern text as in the source by [re_compile] and run by a
      backtracking matcher with the semantics of the [re] module. *)

From Stdlib Require Import Ascii String DecimalString Bool Arith NArith ZArith QArith Lia List.
Import ListNotations.

Close Scope Q_scope.
Close Scope Z_scope.
Open Scope nat_scope.
Open Scope list_scope.

Set Implicit Arguments.

(* ================================================================== *)
(** ** Characters and strings *)

Module Str.

Definition char := N.
Definition str := list char.

Definition code (c : char) : N := c.
Definition chr (n : N) : char := n.

Definition in_range (lo hi : N) (c : char) : bool :=
  (lo <=? code c)%N && (code c <=? hi)%N.

(** *** The tables, from code point 256 on *)

Module Ucd.

(** The decimal digits (category Nd): every range is made of runs of the
    ten digits 0 to 9 in order. *)
Definition decimal : list (N * N) :=
  [(1632, 1641); (1776, 1785); (1984, 1993); (2406, 2415); (2534, 2543); (2662, 2671);
   (2790, 2799); (2918, 2927); (3046, 3055); (3174, 3183); (3302, 3311); (3430, 3439);
   (3558, 3567); (3664, 3673); (3792, 3801); (3872, 3881); (4160, 4169); (4240, 4249);
   (6112, 6121); (6160, 6169); (6470, 6479); (6608, 6617); (6784, 6793); (6800, 6809);
   (6992, 7001); (7088, 7097); (7232, 7241); (7248, 7257); (42528, 42537); (43216, 43225);
   (43264, 43273); (43472, 43481); (43504, 43513); (43600, 43609); (44016, 44025); (65296, 65305);
   (66720, 66729); (68912, 68921); (69734, 69743); (69872, 69881); (69942, 69951); (70096, 70105);
   (70384, 70393); (70736, 70745); (70864, 70873); (71248, 71257); (71360, 71369); (71472, 71481);
   (71904, 71913); (72016, 72025); (72784, 72793); (73040, 73049); (73120, 73129); (92768, 92777);
   (92864, 92873); (93008, 93017); (120782, 120831); (123200, 123209); (123632, 123641); (125264, 125273);
   (130032, 130041)]%N.

(** [str.isdigit] *)
Definition digit : list (N * N) :=
  [(1632, 1641); (1776, 1785); (1984, 1993); (2406, 2415); (2534, 2543); (2662, 2671);
   (2790, 2799); (2918, 2927); (3046, 3055); (3174, 3183); (3302, 3311); (3430, 3439);
   (3558, 3567); (3664, 3673); (3792, 3801); (3872, 3881); (4160, 4169); (4240, 4249);
   (4969, 4977); (6112, 6121); (6160, 6169); (6470, 6479); (6608, 6618); (6784, 6793);
   (6800, 6809); (6992, 7001); (7088, 7097); (7232, 7241); (7248, 7257); (8304, 8304);
   (8308, 8313); (8320, 8329); (9312, 9320); (9332, 9340); (9352, 9360); (9450, 9450);
   (9461, 9469); (9471, 9471); (10102, 10110); (10112, 10120); (10122, 10130); (42528, 42537);
   (43216, 43225); (43264, 43273); (43472, 43481); (43504, 43513); (43600, 43609); (44016, 44025);
   (65296, 65305); (66720, 66729); (68160, 68163); (68912, 68921); (69216, 69224); (69714, 69722);
   (69734, 69743); (69872, 69881); (69942, 69951); (70096, 70105); (70384, 70393); (70736, 70745);
   (70864, 70873); (71248, 71257); (71360, 71369); (71472, 71481); (71904, 71913); (72016, 72025);
   (72784, 72793); (73040, 73049); (73120, 73129); (92768, 92777); (92864, 92873); (93008, 93017);
   (120782, 120831); (123200, 123209); (123632, 123641); (125264, 125273); (127232, 127242); (130032, 130041)]%N.

(** [str.isspace] *)
Definition space : list (N * N) :=
  [(5760, 5760); (8192, 8202); (8232, 8233); (8239, 8239); (8287, 8287); (12288, 12288)]%N.

(** The alphanumeric characters, [str.isalnum], which with the underscore
    are the characters of [\w]. *)
Definition word : list (N * N) :=
  [(256, 705); (710, 721); (736, 740); (748, 748); (750, 750); (880, 884);
   (886, 887); (890, 893); (895, 895); (902, 902); (904, 906); (908, 908);
   (910, 929); (931, 1013); (1015, 1153); (1162, 1327); (1329, 1366); (1369, 1369);
   (1376, 1416); (1488, 1514); (1519, 1522); (1568, 1610); (1632, 1641); (1646, 1647);
   (1649, 1747); (1749, 1749); (1765, 1766); (1774, 1788); (1791, 1791); (1808, 1808);
   (1810, 1839); (1869, 1957); (1969, 1969); (1984, 2026); (2036, 2037); (2042, 2042);
   (2048, 2069); (2074, 2074); (2084, 2084); (2088, 2088); (2112, 2136); (2144, 2154);
   (2160, 2183); (2185, 2190); (2208, 2249); (2308, 2361); (2365, 2365); (2384, 2384);
   (2392, 2401); (2406, 2415); (2417, 2432); (2437, 2444); (2447, 2448); (2451, 2472);
   (2474, 2480); (2482, 2482); (2486, 2489); (2493, 2493); (2510, 2510); (2524, 2525);
   (2527, 2529); (2534, 2545); (2548, 2553); (2556, 2556); (2565, 2570); (2575, 2576);
   (2579, 2600); (2602, 2608); (2610, 2611); (2613, 2614); (2616, 2617); (2649, 2652);
   (2654, 2654); (2662, 2671); (2674, 2676); (2693, 2701); (2703, 2705); (2707, 2728);
   (2730, 2736); (2738, 2739); (2741, 2745); (2749, 2749); (2768, 2768); (2784, 2785);
   (2790, 2799); (2809, 2809); (2821, 2828); (2831, 2832); (2835, 2856); (2858, 2864);
   (2866, 2867); (2869, 2873); (2877, 2877); (2908, 2909); (2911, 2913); (2918, 2927);
   (2929, 2935); (2947, 2947); (2949, 2954); (2958, 2960); (2962, 2965); (2969, 2970);
   (2972, 2972); (2974, 2975); (2979, 2980); (2984, 2986); (2990, 3001); (3024, 3024);
   (3046, 3058); (3077, 3084); (3086, 3088); (3090, 3112); (3114, 3129); (3133, 3133);
   (3160, 3162); (3165, 3165); (3168, 3169); (3174, 3183); (3192, 3198); (3200, 3200);
   (3205, 3212); (3214, 3216); (3218, 3240); (3242, 3251); (3253, 3257); (3261, 3261);
   (3293, 3294); (3296, 3297); (3302, 3311); (3313, 3314); (3332, 3340); (3342, 3344);
   (3346, 3386); (3389, 3389); (3406, 3406); (3412, 3414); (3416, 3425); (3430, 3448);
   (3450, 3455); (3461, 3478); (3482, 3505); (3507, 3515); (3517, 3517); (3520, 3526);
   (3558, 3567); (3585, 3632); (3634, 3635); (3648, 3654); (3664, 3673); (3713, 3714);
   (3716, 3716); (3718, 3722); (3724, 3747); (3749, 3749); (3751, 3760); (3762, 3763);
   (3773, 3773); (3776, 3780); (3782, 3782); (3792, 3801); (3804, 3807); (3840, 3840);
   (3872, 3891); (3904, 3911); (3913, 3948); (3976, 3980); (4096, 4138); (4159, 4169);
   (4176, 4181); (4186, 4189); (4193, 4193); (4197, 4198); (4206, 4208); (4213, 4225);
   (4238, 4238); (4240, 4249); (4256, 4293); (4295, 4295); (4301, 4301); (4304, 4346);
   (4348, 4680); (4682, 4685); (4688, 4694); (4696, 4696); (4698, 4701); (4704, 4744);
   (4746, 4749); (4752, 4784); (4786, 4789); (4792, 4798); (4800, 4800); (4802, 4805);
   (4808, 4822); (4824, 4880); (4882, 4885); (4888, 4954); (4969, 4988); (4992, 5007);
   (5024, 5109); (5112, 5117); (5121, 5740); (5743, 5759); (5761, 5786); (5792, 5866);
   (5870, 5880); (5888, 5905); (5919, 5937); (5952, 5969); (5984, 5996); (5998, 6000);
   (6016, 6067); (6103, 6103); (6108, 6108); (6112, 6121); (6128, 6137); (6160, 6169);
   (6176, 6264); (6272, 6276); (6279, 6312); (6314, 6314); (6320, 6389); (6400, 6430);
   (6470, 6509); (6512, 6516); (6528, 6571); (6576, 6601); (6608, 6618); (6656, 6678);
   (6688, 6740); (6784, 6793); (6800, 6809); (6823, 6823); (6917, 6963); (6981, 6988);
   (6992, 7001); (7043, 7072); (7086, 7141); (7168, 7203); (7232, 7241); (7245, 7293);
   (7296, 7304); (7312, 7354); (7357, 7359); (7401, 7404); (7406, 7411); (7413, 7414);
   (7418, 7418); (7424, 7615); (7680, 7957); (7960, 7965); (7968, 8005); (8008, 8013);
   (8016, 8023); (8025, 8025); (8027, 8027); (8029, 8029); (8031, 8061); (8064, 8116);
   (8118, 8124); (8126, 8126); (8130, 8132); (8134, 8140); (8144, 8147); (8150, 8155);
   (8160, 8172); (8178, 8180); (8182, 8188); (8304, 8305); (8308, 8313); (8319, 8329);
   (8336, 8348); (8450, 8450); (8455, 8455); (8458, 8467); (8469, 8469); (8473, 8477);
   (8484, 8484); (8486, 8486); (8488, 8488); (8490, 8493); (8495, 8505); (8508, 8511);
   (8517, 8521); (8526, 8526); (8528, 8585); (9312, 9371); (9450, 9471); (10102, 10131);
   (11264, 11492); (11499, 11502); (11506, 11507); (11517, 11517); (11520, 11557); (11559, 11559);
   (11565, 11565); (11568, 11623); (11631, 11631); (11648, 11670); (11680, 11686); (11688, 11694);
   (11696, 11702); (11704, 11710); (11712, 11718); (11720, 11726); (11728, 11734); (11736, 11742);
   (11823, 11823); (12293, 12295); (12321, 12329); (12337, 12341); (12344, 12348); (12353, 12438);
   (12445, 12447); (12449, 12538); (12540, 12543); (12549, 12591); (12593, 12686); (12690, 12693);
   (12704, 12735); (12784, 12799); (12832, 12841); (12872, 12879); (12881, 12895); (12928, 12937);
   (12977, 12991); (13312, 19903); (19968, 42124); (42192, 42237); (42240, 42508); (42512, 42539);
   (42560, 42606); (42623, 42653); (42656, 42735); (42775, 42783); (42786, 42888); (42891, 42954);
   (42960, 42961); (42963, 42963); (42965, 42969); (42994, 43009); (43011, 43013); (43015, 43018);
   (43020, 43042); (43056, 43061); (43072, 43123); (43138, 43187); (43216, 43225); (43250, 43255);
   (43259, 43259); (43261, 43262); (43264, 43301); (43312, 43334); (43360, 43388); (43396, 43442);
   (43471, 43481); (43488, 43492); (43494, 43518); (43520, 43560); (43584, 43586); (43588, 43595);
   (43600, 43609); (43616, 43638); (43642, 43642); (43646, 43695); (43697, 43697); (43701, 43702);
   (43705, 43709); (43712, 43712); (43714, 43714); (43739, 43741); (43744, 43754); (43762, 43764);
   (43777, 43782); (43785, 43790); (43793, 43798); (43808, 43814); (43816, 43822); (43824, 43866);
   (43868, 43881); (43888, 44002); (44016, 44025); (44032, 55203); (55216, 55238); (55243, 55291);
   (63744, 64109); (64112, 64217); (64256, 64262); (64275, 64279); (64285, 64285); (64287, 64296);
   (64298, 64310); (64312, 64316); (64318, 64318); (64320, 64321); (64323, 64324); (64326, 64433);
   (64467, 64829); (64848, 64911); (64914, 64967); (65008, 65019); (65136, 65140); (65142, 65276);
   (65296, 65305); (65313, 65338); (65345, 65370); (65382, 65470); (65474, 65479); (65482, 65487);
   (65490, 65495); (65498, 65500); (65536, 65547); (65549, 65574); (65576, 65594); (65596, 65597);
   (65599, 65613); (65616, 65629); (65664, 65786); (65799, 65843); (65856, 65912); (65930, 65931);
   (66176, 66204); (66208, 66256); (66273, 66299); (66304, 66339); (66349, 66378); (66384, 66421);
   (66432, 66461); (66464, 66499); (66504, 66511); (66513, 66517); (66560, 66717); (66720, 66729);
   (66736, 66771); (66776, 66811); (66816, 66855); (66864, 66915); (66928, 66938); (66940, 66954);
   (66956, 66962); (66964, 66965); (66967, 66977); (66979, 66993); (66995, 67001); (67003, 67004);
   (67072, 67382); (67392, 67413); (67424, 67431); (67456, 67461); (67463, 67504); (67506, 67514);
   (67584, 67589); (67592, 67592); (67594, 67637); (67639, 67640); (67644, 67644); (67647, 67669);
   (67672, 67702); (67705, 67742); (67751, 67759); (67808, 67826); (67828, 67829); (67835, 67867);
   (67872, 67897); (67968, 68023); (68028, 68047); (68050, 68096); (68112, 68115); (68117, 68119);
   (68121, 68149); (68160, 68168); (68192, 68222); (68224, 68255); (68288, 68295); (68297, 68324);
   (68331, 68335); (68352, 68405); (68416, 68437); (68440, 68466); (68472, 68497); (68521, 68527);
   (68608, 68680); (68736, 68786); (68800, 68850); (68858, 68899); (68912, 68921); (69216, 69246);
   (69248, 69289); (69296, 69297); (69376, 69415); (69424, 69445); (69457, 69460); (69488, 69505);
   (69552, 69579); (69600, 69622); (69635, 69687); (69714, 69743); (69745, 69746); (69749, 69749);
   (69763, 69807); (69840, 69864); (69872, 69881); (69891, 69926); (69942, 69951); (69956, 69956);
   (69959, 69959); (69968, 70002); (70006, 70006); (70019, 70066); (70081, 70084); (70096, 70106);
   (70108, 70108); (70113, 70132); (70144, 70161); (70163, 70187); (70272, 70278); (70280, 70280);
   (70282, 70285); (70287, 70301); (70303, 70312); (70320, 70366); (70384, 70393); (70405, 70412);
   (70415, 70416); (70419, 70440); (70442, 70448); (70450, 70451); (70453, 70457); (70461, 70461);
   (70480, 70480); (70493, 70497); (70656, 70708); (70727, 70730); (70736, 70745); (70751, 70753);
   (70784, 70831); (70852, 70853); (70855, 70855); (70864, 70873); (71040, 71086); (71128, 71131);
   (71168, 71215); (71236, 71236); (71248, 71257); (71296, 71338); (71352, 71352); (71360, 71369);
   (71424, 71450); (71472, 71483); (71488, 71494); (71680, 71723); (71840, 71922); (71935, 71942);
   (71945, 71945); (71948, 71955); (71957, 71958); (71960, 71983); (71999, 71999); (72001, 72001);
   (72016, 72025); (72096, 72103); (72106, 72144); (72161, 72161); (72163, 72163); (72192, 72192);
   (72203, 72242); (72250, 72250); (72272, 72272); (72284, 72329); (72349, 72349); (72368, 72440);
   (72704, 72712); (72714, 72750); (72768, 72768); (72784, 72812); (72818, 72847); (72960, 72966);
   (72968, 72969); (72971, 73008); (73030, 73030); (73040, 73049); (73056, 73061); (73063, 73064);
   (73066, 73097); (73112, 73112); (73120, 73129); (73440, 73458); (73648, 73648); (73664, 73684);
   (73728, 74649); (74752, 74862); (74880, 75075); (77712, 77808); (77824, 78894); (82944, 83526);
   (92160, 92728); (92736, 92766); (92768, 92777); (92784, 92862); (92864, 92873); (92880, 92909);
   (92928, 92975); (92992, 92995); (93008, 93017); (93019, 93025); (93027, 93047); (93053, 93071);
   (93760, 93846); (93952, 94026); (94032, 94032); (94099, 94111); (94176, 94177); (94179, 94179);
   (94208, 100343); (100352, 101589); (101632, 101640); (110576, 110579); (110581, 110587); (110589, 110590);
   (110592, 110882); (110928, 110930); (110948, 110951); (110960, 111355); (113664, 113770); (113776, 113788);
   (113792, 113800); (113808, 113817); (119520, 119539); (119648, 119672); (119808, 119892); (119894, 119964);
   (119966, 119967); (119970, 119970); (119973, 119974); (119977, 119980); (119982, 119993); (119995, 119995);
   (119997, 120003); (120005, 120069); (120071, 120074); (120077, 120084); (120086, 120092); (120094, 120121);
   (120123, 120126); (120128, 120132); (120134, 120134); (120138, 120144); (120146, 120485); (120488, 120512);
   (120514, 120538); (120540, 120570); (120572, 120596); (120598, 120628); (120630, 120654); (120656, 120686);
   (120688, 120712); (120714, 120744); (120746, 120770); (120772, 120779); (120782, 120831); (122624, 122654);
   (123136, 123180); (123191, 123197); (123200, 123209); (123214, 123214); (123536, 123565); (123584, 123627);
   (123632, 123641); (124896, 124902); (124904, 124907); (124909, 124910); (124912, 124926); (124928, 125124);
   (125127, 125135); (125184, 125251); (125259, 125259); (125264, 125273); (126065, 126123); (126125, 126127);
   (126129, 126132); (126209, 126253); (126255, 126269); (126464, 126467); (126469, 126495); (126497, 126498);
   (126500, 126500); (126503, 126503); (126505, 126514); (126516, 126519); (126521, 126521); (126523, 126523);
   (126530, 126530); (126535, 126535); (126537, 126537); (126539, 126539); (126541, 126543); (126545, 126546);
   (126548, 126548); (126551, 126551); (126553, 126553); (126555, 126555); (126557, 126557); (126559, 126559);
   (126561, 126562); (126564, 126564); (126567, 126570); (126572, 126578); (126580, 126583); (126585, 126588);
   (126590, 126590); (126592, 126601); (126603, 126619); (126625, 126627); (126629, 126633); (126635, 126651);
   (127232, 127244); (130032, 130041); (131072, 173791); (173824, 177976); (177984, 178205); (178208, 183969);
   (183984, 191456); (194560, 195101); (196608, 201546)]%N.

(** The one-character lower case: [(lo, hi, step, to)] sends every
    [step]-th character from [lo] to [hi] to [to] and its successors. *)
Definition lower : list (N * N * N * N) :=
  [(256, 302, 2, 257); (304, 304, 1, 105); (306, 310, 2, 307); (313, 327, 2, 314);
   (330, 374, 2, 331); (376, 376, 1, 255); (377, 381, 2, 378); (385, 385, 1, 595);
   (386, 388, 2, 387); (390, 390, 1, 596); (391, 391, 1, 392); (393, 394, 1, 598);
   (395, 395, 1, 396); (398, 398, 1, 477); (399, 399, 1, 601); (400, 400, 1, 603);
   (401, 401, 1, 402); (403, 403, 1, 608); (404, 404, 1, 611); (406, 406, 1, 617);
   (407, 407, 1, 616); (408, 408, 1, 409); (412, 412, 1, 623); (413, 413, 1, 626);
   (415, 415, 1, 629); (416, 420, 2, 417); (422, 422, 1, 640); (423, 423, 1, 424);
   (425, 425, 1, 643); (428, 428, 1, 429); (430, 430, 1, 648); (431, 431, 1, 432);
   (433, 434, 1, 650); (435, 437, 2, 436); (439, 439, 1, 658); (440, 440, 1, 441);
   (444, 444, 1, 445); (452, 452, 1, 454); (453, 453, 1, 454); (455, 455, 1, 457);
   (456, 456, 1, 457); (458, 458, 1, 460); (459, 475, 2, 460); (478, 494, 2, 479);
   (497, 497, 1, 499); (498, 500, 2, 499); (502, 502, 1, 405); (503, 503, 1, 447);
   (504, 542, 2, 505); (544, 544, 1, 414); (546, 562, 2, 547); (570, 570, 1, 11365);
   (571, 571, 1, 572); (573, 573, 1, 410); (574, 574, 1, 11366); (577, 577, 1, 578);
   (579, 579, 1, 384); (580, 580, 1, 649); (581, 581, 1, 652); (582, 590, 2, 583);
   (880, 882, 2, 881); (886, 886, 1, 887); (895, 895, 1, 1011); (902, 902, 1, 940);
   (904, 906, 1, 941); (908, 908, 1, 972); (910, 911, 1, 973); (913, 929, 1, 945);
   (931, 939, 1, 963); (975, 975, 1, 983); (984, 1006, 2, 985); (1012, 1012, 1, 952);
   (1015, 1015, 1, 1016); (1017, 1017, 1, 1010); (1018, 1018, 1, 1019); (1021, 1023, 1, 891);
   (1024, 1039, 1, 1104); (1040, 1071, 1, 1072); (1120, 1152, 2, 1121); (1162, 1214, 2, 1163);
   (1216, 1216, 1, 1231); (1217, 1229, 2, 1218); (1232, 1326, 2, 1233); (1329, 1366, 1, 1377);
   (4256, 4293, 1, 11520); (4295, 4295, 1, 11559); (4301, 4301, 1, 11565); (5024, 5103, 1, 43888);
   (5104, 5109, 1, 5112); (7312, 7354, 1, 4304); (7357, 7359, 1, 4349); (7680, 7828, 2, 7681);
   (7838, 7838, 1, 223); (7840, 7934, 2, 7841); (7944, 7951, 1, 7936); (7960, 7965, 1, 7952);
   (7976, 7983, 1, 7968); (7992, 7999, 1, 7984); (8008, 8013, 1, 8000); (8025, 8031, 2, 8017);
   (8040, 8047, 1, 8032); (8072, 8079, 1, 8064); (8088, 8095, 1, 8080); (8104, 8111, 1, 8096);
   (8120, 8121, 1, 8112); (8122, 8123, 1, 8048); (8124, 8124, 1, 8115); (8136, 8139, 1, 8050);
   (8140, 8140, 1, 8131); (8152, 8153, 1, 8144); (8154, 8155, 1, 8054); (8168, 8169, 1, 8160);
   (8170, 8171, 1, 8058); (8172, 8172, 1, 8165); (8184, 8185, 1, 8056); (8186, 8187, 1, 8060);
   (8188, 8188, 1, 8179); (8486, 8486, 1, 969); (8490, 8490, 1, 107); (8491, 8491, 1, 229);
   (8498, 8498, 1, 8526); (8544, 8559, 1, 8560); (8579, 8579, 1, 8580); (9398, 9423, 1, 9424);
   (11264, 11311, 1, 11312); (11360, 11360, 1, 11361); (11362, 11362, 1, 619); (11363, 11363, 1, 7549);
   (11364, 11364, 1, 637); (11367, 11371, 2, 11368); (11373, 11373, 1, 593); (11374, 11374, 1, 625);
   (11375, 11375, 1, 592); (11376, 11376, 1, 594); (11378, 11378, 1, 11379); (11381, 11381, 1, 11382);
   (11390, 11391, 1, 575); (11392, 11490, 2, 11393); (11499, 11501, 2, 11500); (11506, 11506, 1, 11507);
   (42560, 42604, 2, 42561); (42624, 42650, 2, 42625); (42786, 42798, 2, 42787); (42802, 42862, 2, 42803);
   (42873, 42875, 2, 42874); (42877, 42877, 1, 7545); (42878, 42886, 2, 42879); (42891, 42891, 1, 42892);
   (42893, 42893, 1, 613); (42896, 42898, 2, 42897); (42902, 42920, 2, 42903); (42922, 42922, 1, 614);
   (42923, 42923, 1, 604); (42924, 42924, 1, 609); (42925, 42925, 1, 620); (42926, 42926, 1, 618);
   (42928, 42928, 1, 670); (42929, 42929, 1, 647); (42930, 42930, 1, 669); (42931, 42931, 1, 43859);
   (42932, 42946, 2, 42933); (42948, 42948, 1, 42900); (42949, 42949, 1, 642); (42950, 42950, 1, 7566);
   (42951, 42953, 2, 42952); (42960, 42960, 1, 42961); (42966, 42968, 2, 42967); (42997, 42997, 1, 42998);
   (65313, 65338, 1, 65345); (66560, 66599, 1, 66600); (66736, 66771, 1, 66776); (66928, 66964, 2, 66967);
   (66929, 66937, 2, 66968); (66941, 66953, 2, 66980); (66957, 66961, 2, 66996); (66965, 66965, 1, 67004);
   (68736, 68786, 1, 68800); (71840, 71871, 1, 71872); (93760, 93791, 1, 93792); (125184, 125217, 1, 125218)]%N.

(** The characters with a lower or an upper case of their own, as
    [re.IGNORECASE] asks. *)
Definition cased : list (N * N) :=
  [(256, 311); (313, 396); (398, 410); (412, 425); (428, 441); (444, 445);
   (447, 447); (452, 544); (546, 563); (570, 596); (598, 599); (601, 601);
   (603, 604); (608, 609); (611, 611); (613, 614); (616, 620); (623, 623);
   (625, 626); (629, 629); (637, 637); (640, 640); (642, 643); (647, 652);
   (658, 658); (669, 670); (837, 837); (880, 883); (886, 887); (891, 893);
   (895, 895); (902, 902); (904, 906); (908, 908); (910, 929); (931, 977);
   (981, 1013); (1015, 1019); (1021, 1153); (1162, 1327); (1329, 1366); (1377, 1415);
   (4256, 4293); (4295, 4295); (4301, 4301); (4304, 4346); (4349, 4351); (5024, 5109);
   (5112, 5117); (7296, 7304); (7312, 7354); (7357, 7359); (7545, 7545); (7549, 7549);
   (7566, 7566); (7680, 7835); (7838, 7838); (7840, 7957); (7960, 7965); (7968, 8005);
   (8008, 8013); (8016, 8023); (8025, 8025); (8027, 8027); (8029, 8029); (8031, 8061);
   (8064, 8116); (8118, 8124); (8126, 8126); (8130, 8132); (8134, 8140); (8144, 8147);
   (8150, 8155); (8160, 8172); (8178, 8180); (8182, 8188); (8486, 8486); (8490, 8491);
   (8498, 8498); (8526, 8526); (8544, 8575); (8579, 8580); (9398, 9449); (11264, 11376);
   (11378, 11379); (11381, 11382); (11390, 11491); (11499, 11502); (11506, 11507); (11520, 11557);
   (11559, 11559); (11565, 11565); (42560, 42605); (42624, 42651); (42786, 42799); (42802, 42863);
   (42873, 42887); (42891, 42893); (42896, 42900); (42902, 42926); (42928, 42954); (42960, 42961);
   (42966, 42969); (42997, 42998); (43859, 43859); (43888, 43967); (64256, 64262); (64275, 64279);
   (65313, 65338); (65345, 65370); (66560, 66639); (66736, 66771); (66776, 66811); (66928, 66938);
   (66940, 66954); (66956, 66962); (66964, 66965); (66967, 66977); (66979, 66993); (66995, 67001);
   (67003, 67004); (68736, 68786); (68800, 68850); (71840, 71903); (93760, 93823); (125184, 125251)]%N.

(** The characters that [re.IGNORECASE] takes for one another beyond
    their lower case, by the lower-case character. *)
Definition extra_cases : list (N * list N) :=
  [(105, [305]); (115, [383]); (181, [956]); (305, [105]); (383, [115]);
   (837, [953; 8126]); (912, [8147]); (944, [8163]); (946, [976]); (949, [1013]);
   (952, [977]); (953, [837; 8126]); (954, [1008]); (956, [181]); (960, [982]);
   (961, [1009]); (962, [963]); (963, [962]); (966, [981]); (976, [946]);
   (977, [952]); (981, [966]); (982, [960]); (1008, [954]); (1009, [961]);
   (1013, [949]); (1074, [7296]); (1076, [7297]); (1086, [7298]); (1089, [7299]);
   (1090, [7300; 7301]); (1098, [7302]); (1123, [7303]); (7296, [1074]); (7297, [1076]);
   (7298, [1086]); (7299, [1089]); (7300, [1090; 7301]); (7301, [1090; 7300]); (7302, [1098]);
   (7303, [1123]); (7304, [42571]); (7777, [7835]); (7835, [7777]); (8126, [837; 953]);
   (8147, [912]); (8163, [944]); (42571, [7304]); (64261, [64262]); (64262, [64261])]%N.

(** The characters that the rule of the final sigma steps over. *)
Definition case_ignorable : list (N * N) :=
  [(39, 39); (46, 46); (58, 58); (94, 94); (96, 96); (168, 168);
   (173, 173); (175, 175); (180, 180); (183, 184); (688, 879); (884, 885);
   (890, 890); (900, 901); (903, 903); (1155, 1161); (1369, 1369); (1375, 1375);
   (1425, 1469); (1471, 1471); (1473, 1474); (1476, 1477); (1479, 1479); (1524, 1524);
   (1536, 1541); (1552, 1562); (1564, 1564); (1600, 1600); (1611, 1631); (1648, 1648);
   (1750, 1757); (1759, 1768); (1770, 1773); (1807, 1807); (1809, 1809); (1840, 1866);
   (1958, 1968); (2027, 2037); (2042, 2042); (2045, 2045); (2070, 2093); (2137, 2139);
   (2184, 2184); (2192, 2193); (2200, 2207); (2249, 2306); (2362, 2362); (2364, 2364);
   (2369, 2376); (2381, 2381); (2385, 2391); (2402, 2403); (2417, 2417); (2433, 2433);
   (2492, 2492); (2497, 2500); (2509, 2509); (2530, 2531); (2558, 2558); (2561, 2562);
   (2620, 2620); (2625, 2626); (2631, 2632); (2635, 2637); (2641, 2641); (2672, 2673);
   (2677, 2677); (2689, 2690); (2748, 2748); (2753, 2757); (2759, 2760); (2765, 2765);
   (2786, 2787); (2810, 2815); (2817, 2817); (2876, 2876); (2879, 2879); (2881, 2884);
   (2893, 2893); (2901, 2902); (2914, 2915); (2946, 2946); (3008, 3008); (3021, 3021);
   (3072, 3072); (3076, 3076); (3132, 3132); (3134, 3136); (3142, 3144); (3146, 3149);
   (3157, 3158); (3170, 3171); (3201, 3201); (3260, 3260); (3263, 3263); (3270, 3270);
   (3276, 3277); (3298, 3299); (3328, 3329); (3387, 3388); (3393, 3396); (3405, 3405);
   (3426, 3427); (3457, 3457); (3530, 3530); (3538, 3540); (3542, 3542); (3633, 3633);
   (3636, 3642); (3654, 3662); (3761, 3761); (3764, 3772); (3782, 3782); (3784, 3789);
   (3864, 3865); (3893, 3893); (3895, 3895); (3897, 3897); (3953, 3966); (3968, 3972);
   (3974, 3975); (3981, 3991); (3993, 4028); (4038, 4038); (4141, 4144); (4146, 4151);
   (4153, 4154); (4157, 4158); (4184, 4185); (4190, 4192); (4209, 4212); (4226, 4226);
   (4229, 4230); (4237, 4237); (4253, 4253); (4348, 4348); (4957, 4959); (5906, 5908);
   (5938, 5939); (5970, 5971); (6002, 6003); (6068, 6069); (6071, 6077); (6086, 6086);
   (6089, 6099); (6103, 6103); (6109, 6109); (6155, 6159); (6211, 6211); (6277, 6278);
   (6313, 6313); (6432, 6434); (6439, 6440); (6450, 6450); (6457, 6459); (6679, 6680);
   (6683, 6683); (6742, 6742); (6744, 6750); (6752, 6752); (6754, 6754); (6757, 6764);
   (6771, 6780); (6783, 6783); (6823, 6823); (6832, 6862); (6912, 6915); (6964, 6964);
   (6966, 6970); (6972, 6972); (6978, 6978); (7019, 7027); (7040, 7041); (7074, 7077);
   (7080, 7081); (7083, 7085); (7142, 7142); (7144, 7145); (7149, 7149); (7151, 7153);
   (7212, 7219); (7222, 7223); (7288, 7293); (7376, 7378); (7380, 7392); (7394, 7400);
   (7405, 7405); (7412, 7412); (7416, 7417); (7468, 7530); (7544, 7544); (7579, 7679);
   (8125, 8125); (8127, 8129); (8141, 8143); (8157, 8159); (8173, 8175); (8189, 8190);
   (8203, 8207); (8216, 8217); (8228, 8228); (8231, 8231); (8234, 8238); (8288, 8292);
   (8294, 8303); (8305, 8305); (8319, 8319); (8336, 8348); (8400, 8432); (11388, 11389);
   (11503, 11505); (11631, 11631); (11647, 11647); (11744, 11775); (11823, 11823); (12293, 12293);
   (12330, 12333); (12337, 12341); (12347, 12347); (12441, 12446); (12540, 12542); (40981, 40981);
   (42232, 42237); (42508, 42508); (42607, 42610); (42612, 42621); (42623, 42623); (42652, 42655);
   (42736, 42737); (42752, 42785); (42864, 42864); (42888, 42890); (42994, 42996); (43000, 43001);
   (43010, 43010); (43014, 43014); (43019, 43019); (43045, 43046); (43052, 43052); (43204, 43205);
   (43232, 43249); (43263, 43263); (43302, 43309); (43335, 43345); (43392, 43394); (43443, 43443);
   (43446, 43449); (43452, 43453); (43471, 43471); (43493, 43494); (43561, 43566); (43569, 43570);
   (43573, 43574); (43587, 43587); (43596, 43596); (43632, 43632); (43644, 43644); (43696, 43696);
   (43698, 43700); (43703, 43704); (43710, 43711); (43713, 43713); (43741, 43741); (43756, 43757);
   (43763, 43764); (43766, 43766); (43867, 43871); (43881, 43883); (44005, 44005); (44008, 44008);
   (44013, 44013); (64286, 64286); (64434, 64450); (65024, 65039); (65043, 65043); (65056, 65071);
   (65106, 65106); (65109, 65109); (65279, 65279); (65287, 65287); (65294, 65294); (65306, 65306);
   (65342, 65342); (65344, 65344); (65392, 65392); (65438, 65439); (65507, 65507); (65529, 65531);
   (66045, 66045); (66272, 66272); (66422, 66426); (67456, 67461); (67463, 67504); (67506, 67514);
   (68097, 68099); (68101, 68102); (68108, 68111); (68152, 68154); (68159, 68159); (68325, 68326);
   (68900, 68903); (69291, 69292); (69446, 69456); (69506, 69509); (69633, 69633); (69688, 69702);
   (69744, 69744); (69747, 69748); (69759, 69761); (69811, 69814); (69817, 69818); (69821, 69821);
   (69826, 69826); (69837, 69837); (69888, 69890); (69927, 69931); (69933, 69940); (70003, 70003);
   (70016, 70017); (70070, 70078); (70089, 70092); (70095, 70095); (70191, 70193); (70196, 70196);
   (70198, 70199); (70206, 70206); (70367, 70367); (70371, 70378); (70400, 70401); (70459, 70460);
   (70464, 70464); (70502, 70508); (70512, 70516); (70712, 70719); (70722, 70724); (70726, 70726);
   (70750, 70750); (70835, 70840); (70842, 70842); (70847, 70848); (70850, 70851); (71090, 71093);
   (71100, 71101); (71103, 71104); (71132, 71133); (71219, 71226); (71229, 71229); (71231, 71232);
   (71339, 71339); (71341, 71341); (71344, 71349); (71351, 71351); (71453, 71455); (71458, 71461);
   (71463, 71467); (71727, 71735); (71737, 71738); (71995, 71996); (71998, 71998); (72003, 72003);
   (72148, 72151); (72154, 72155); (72160, 72160); (72193, 72202); (72243, 72248); (72251, 72254);
   (72263, 72263); (72273, 72278); (72281, 72283); (72330, 72342); (72344, 72345); (72752, 72758);
   (72760, 72765); (72767, 72767); (72850, 72871); (72874, 72880); (72882, 72883); (72885, 72886);
   (73009, 73014); (73018, 73018); (73020, 73021); (73023, 73029); (73031, 73031); (73104, 73105);
   (73109, 73109); (73111, 73111); (73459, 73460); (78896, 78904); (92912, 92916); (92976, 92982);
   (92992, 92995); (94031, 94031); (94095, 94111); (94176, 94177); (94179, 94180); (110576, 110579);
   (110581, 110587); (110589, 110590); (113821, 113822); (113824, 113827); (118528, 118573); (118576, 118598);
   (119143, 119145); (119155, 119170); (119173, 119179); (119210, 119213); (119362, 119364); (121344, 121398);
   (121403, 121452); (121461, 121461); (121476, 121476); (121499, 121503); (121505, 121519); (122880, 122886);
   (122888, 122904); (122907, 122913); (122915, 122916); (122918, 122922); (123184, 123197); (123566, 123566);
   (123628, 123631); (125136, 125142); (125252, 125259); (127995, 127999); (917505, 917505); (917536, 917631);
   (917760, 917999)]%N.

(** The characters that count as letters with a case for the rule of
    the final sigma, those it steps over apart. *)
Definition cased_letter : list (N * N) :=
  [(65, 90); (97, 122); (170, 170); (181, 181); (186, 186); (192, 214);
   (216, 246); (248, 442); (444, 447); (452, 659); (661, 687); (880, 883);
   (886, 887); (891, 893); (895, 895); (902, 902); (904, 906); (908, 908);
   (910, 929); (931, 1013); (1015, 1153); (1162, 1327); (1329, 1366); (1376, 1416);
   (4256, 4293); (4295, 4295); (4301, 4301); (4304, 4346); (4349, 4351); (5024, 5109);
   (5112, 5117); (7296, 7304); (7312, 7354); (7357, 7359); (7424, 7467); (7531, 7543);
   (7545, 7578); (7680, 7957); (7960, 7965); (7968, 8005); (8008, 8013); (8016, 8023);
   (8025, 8025); (8027, 8027); (8029, 8029); (8031, 8061); (8064, 8116); (8118, 8124);
   (8126, 8126); (8130, 8132); (8134, 8140); (8144, 8147); (8150, 8155); (8160, 8172);
   (8178, 8180); (8182, 8188); (8450, 8450); (8455, 8455); (8458, 8467); (8469, 8469);
   (8473, 8477); (8484, 8484); (8486, 8486); (8488, 8488); (8490, 8493); (8495, 8500);
   (8505, 8505); (8508, 8511); (8517, 8521); (8526, 8526); (8544, 8575); (8579, 8580);
   (9398, 9449); (11264, 11387); (11390, 11492); (11499, 11502); (11506, 11507); (11520, 11557);
   (11559, 11559); (11565, 11565); (42560, 42605); (42624, 42651); (42786, 42863); (42865, 42887);
   (42891, 42894); (42896, 42954); (42960, 42961); (42963, 42963); (42965, 42969); (42997, 42998);
   (43002, 43002); (43824, 43866); (43872, 43880); (43888, 43967); (64256, 64262); (64275, 64279);
   (65313, 65338); (65345, 65370); (66560, 66639); (66736, 66771); (66776, 66811); (66928, 66938);
   (66940, 66954); (66956, 66962); (66964, 66965); (66967, 66977); (66979, 66993); (66995, 67001);
   (67003, 67004); (68736, 68786); (68800, 68850); (71840, 71903); (93760, 93823); (119808, 119892);
   (119894, 119964); (119966, 119967); (119970, 119970); (119973, 119974); (119977, 119980); (119982, 119993);
   (119995, 119995); (119997, 120003); (120005, 120069); (120071, 120074); (120077, 120084); (120086, 120092);
   (120094, 120121); (120123, 120126); (120128, 120132); (120134, 120134); (120138, 120144); (120146, 120485);
   (120488, 120512); (120514, 120538); (120540, 120570); (120572, 120596); (120598, 120628); (120630, 120654);
   (120656, 120686); (120688, 120712); (120714, 120744); (120746, 120770); (120772, 120779); (122624, 122633);
   (122635, 122654); (125184, 125251); (127280, 127305); (127312, 127337); (127344, 127369)]%N.

End Ucd.

Definition in_table (table : list (N * N)) (c : char) : bool :=
  existsb (fun r => in_range (fst r) (snd r) c) table.

Definition latin1 (c : char) : bool := (code c <? 256)%N.

(** [\d] on [str] patterns, and [str.isdecimal]: the decimal digits. *)
Definition is_decimal (c : char) : bool :=
  if latin1 c then in_range 48 57 c else in_table Ucd.decimal c.

(** The value [int] gives a decimal digit. *)
Definition decimal_value (c : char) : N :=
  if latin1 c then (code c - 48)%N
  else match find (fun r => in_range (fst r) (snd r) c) Ucd.decimal with
       | Some (lo, _) => ((code c - lo) mod 10)%N
       | None => 0%N
       end.

(** [str.isdigit]: the decimal digits, and digits such as the superscripts
    2, 3 and 1. *)
Definition isdigit (c : char) : bool :=
  if latin1 c
  then in_range 48 57 c || (code c =? 178)%N || (code c =? 179)%N || (code c =? 185)%N
  else in_table Ucd.digit c.

(** [str.isspace], which is also [\s]. *)
Definition isspace (c : char) : bool :=
  if latin1 c
  then in_range 9 13 c || in_range 28 32 c || (code c =? 133)%N || (code c =? 160)%N
  else in_table Ucd.space c.

Definition is_upper (c : char) : bool :=
  in_range 65 90 c || in_range 192 214 c || in_range 216 222 c.

(** [\w]: alphanumeric characters and the underscore. *)
Definition is_word (c : char) : bool :=
  if latin1 c
  then in_range 48 57 c || in_range 65 90 c || in_range 97 122 c || (code c =? 95)%N
       || (code c =? 170)%N || (code c =? 178)%N || (code c =? 179)%N || (code c =? 181)%N
       || (code c =? 185)%N || (code c =? 186)%N || in_range 188 190 c
       || in_range 192 214 c || in_range 216 246 c || in_range 248 255 c
  else in_table Ucd.word c.

(** The lower case of one character, as [re.IGNORECASE] takes it; for
    every character but the capital I with a dot (304) it is also what
    [str.lower] gives that character alone. *)
Definition lower (c : char) : char :=
  if latin1 c then (if is_upper c then chr (code c + 32) else c)
  else match find (fun s => let '(lo, hi, step, _) := s in
                            in_range lo hi c && ((code c - lo) mod step =? 0)%N)
                  Ucd.lower with
       | Some (lo, _, _, to) => chr (to + (code c - lo))
       | None => c
       end.

(** A character with a case, for [re.IGNORECASE]. *)
Definition iscased (c : char) : bool :=
  if latin1 c
  then in_range 65 90 c || in_range 97 122 c || (code c =? 181)%N
       || in_range 192 214 c || in_range 216 246 c || in_range 248 255 c
  else in_table Ucd.cased c.

(** The characters [re.IGNORECASE] takes for the lower-case character
    [lo], beyond those whose lower case is [lo]. *)
Definition extra_cases (lo : char) : list char :=
  if latin1 lo
  then (if (code lo =? 105)%N then [chr 305]
        else if (code lo =? 115)%N then [chr 383]
        else if (code lo =? 181)%N then [chr 956]
        else [])
  else match find (fun kv => (fst kv =? code lo)%N) Ucd.extra_cases with
       | Some (_, l) => l
       | None => []
       end.

Definition ceqb (a b : char) : bool := (a =? b)%N.

Fixpoint eqb (a b : str) : bool :=
  match a, b with
  | [], [] => true
  | x :: a', y :: b' => ceqb x y && eqb a' b'
  | _, _ => false
  end.

(** Reading a literal of this file: the file is UTF-8, so a character
    from 128 to 2047 arrives as two bytes. *)
Fixpoint decode (l : list N) : str :=
  match l with
  | [] => []
  | a :: rest =>
      match rest with
      | b :: rest' =>
          if in_range 192 223 a then chr ((a - 192) * 64 + (b - 128)) :: decode rest'
          else a :: decode rest
      | [] => [a]
      end
  end.

Definition of_string (s : string) : list N := map N_of_ascii (list_ascii_of_string s).

Definition u (s : string) : str := decode (of_string s).

(** [s[a:b]] for [0 <= a]. *)
Definition slice (s : str) (a b : nat) : str := firstn (b - a) (skipn a s).

(** [str.lower]: the lower case of each character, the capital I with a
    dot (304) giving two characters, and the capital sigma (931) giving the
    final sigma (962) after a letter with a case, and not before one, the
    characters that the rule steps over apart. *)
Fixpoint next_is_cased (s : str) : bool :=
  match s with
  | [] => false
  | c :: s' =>
      if in_table Ucd.case_ignorable c then next_is_cased s'
      else in_table Ucd.cased_letter c
  end.

Fixpoint lower_from (before : str) (s : str) : str :=
  match s with
  | [] => []
  | c :: s' =>
      (if (code c =? 931)%N
       then [if next_is_cased before && negb (next_is_cased s') then chr 962 else chr 963]
       else if (code c =? 304)%N then [chr 105; chr 775]
       else [lower c])
      ++ lower_from (c :: before) s'
  end.

Definition lower_str (s : str) : str := lower_from [] s.

Fixpoint lstrip (s : str) : str :=
  match s with
  | c :: s' => if isspace c then lstrip s' else s
  | [] => []
  end.

(** [s.strip()] *)
Definition strip (s : str) : str := rev (lstrip (rev (lstrip s))).

Definition startswith (p s : str) : bool := eqb (firstn (length p) s) p.

Definition endswith (p s : str) : bool :=
  (length p <=? length s) && eqb (skipn (length s - length p) s) p.

(** [sum(c.isdigit() for c in value)] *)
Definition count_digits (s : str) : nat := length (filter isdigit s).

(** [s.split()]: the maximal runs of non-space characters. *)
Fixpoint split_ws_aux (cur : str) (s : str) : list str :=
  match s with
  | [] => match cur with [] => [] | _ => [rev cur] end
  | c :: s' =>
      if isspace c
      then match cur with [] => split_ws_aux [] s' | _ => rev cur :: split_ws_aux [] s' end
      else split_ws_aux (c :: cur) s'
  end.

Definition split_ws (s : str) : list str := split_ws_aux [] s.

(** [s.replace(old, '')] for a non-empty [old]: every occurrence of [old],
    left to right, is dropped.  [skip] counts the characters of an
    occurrence still to drop. *)
Fixpoint remove_all_aux (old : str) (skip : nat) (s : str) : str :=
  match s with
  | [] => []
  | c :: s' =>
      match skip with
      | S k => remove_all_aux old k s'
      | 0 =>
          if startswith old s
          then remove_all_aux old (length old - 1) s'
          else c :: remove_all_aux old 0 s'
      end
  end.

Definition remove_all (old s : str) : str := remove_all_aux old 0 s.

End Str.

Abbreviation str := Str.str.
Abbreviation u := Str.u.

(* ================================================================== *)
(** ** Exceptions *)

Inductive exn := ValueError | IndexError.

Inductive py (A : Type) : Type :=
| Ret (a : A)
| Raise (e : exn).
Arguments Ret {A} a.
Arguments Raise {A} e.

Definition bind {A B} (m : py A) (f : A -> py B) : py B :=
  match m with
  | Ret a => f a
  | Raise e => Raise e
  end.

Notation "x <- m ;; k" := (bind m (fun x => k))
  (at level 61, m at next level, right associativity).

Fixpoint mapM {A B} (f : A -> py B) (l : list A) : py (list B) :=
  match l with
  | [] => Ret []
  | a :: l' => b <- f a ;; bs <- mapM f l' ;; Ret (b :: bs)
  end.

(** [int(s)] on a string of decimal digits, of any script; the program
    calls [int] on nothing else, and here anything else raises. *)
Definition digit_val (c : Str.char) : Z := Z.of_N (Str.decimal_value c).

Definition py_int (s : str) : py Z :=
  match s with
  | [] => Raise ValueError
  | _ =>
      if forallb Str.is_decimal s
      then Ret (fold_left (fun acc c => acc * 10 + digit_val c) s 0)%Z
      else Raise ValueError
  end.

(** [s[i]] *)
Definition py_index (s : str) (i : nat) : py Str.char :=
  match nth_error s i with
  | Some c => Ret c
  | None => Raise IndexError
  end.


(* ================================================================== *)
(** ** Regular expressions: the part of [re] the program uses *)

Module Re.

Inductive citem :=
| CChar (c : Str.char)
| CRange (lo hi : Str.char)
| CDigit
| CSpace
| CWord.

Inductive regex :=
| RFail
| REps
| RChar (c : Str.char)
| RSet (neg : bool) (items : list citem)
| RSeq (r1 r2 : regex)
| RAlt (r1 r2 : regex)
| RRep (lo : nat) (hi : option nat) (greedy : bool) (r : regex)
| RGroup (n : nat) (r : regex)
| RWordB
| RBol
| REol.

(** *** Reading a pattern *)

Definition c_of (n : N) : Str.char := Str.chr n.
Definition ch (n : N) (c : Str.char) : bool := (Str.code c =? n)%N.

Fixpoint p_nat (acc : nat) (s : str) : nat * str :=
  match s with
  | c :: s' =>
      if Str.in_range 48 57 c then p_nat (acc * 10 + N.to_nat (Str.code c - 48)) s' else (acc, s)
  | [] => (acc, s)
  end.

(** An escape [\x] inside or outside a class, as a class item. *)
Definition esc_item (x : Str.char) : citem :=
  if ch 100 x then CDigit else if ch 115 x then CSpace
  else if ch 119 x then CWord else CChar x.

(** The items of a class, after the opening bracket. *)
Fixpoint p_class (fuel : nat) (s : str) : option (list citem * str) :=
  match fuel with
  | 0 => None
  | S f =>
      match s with
      | [] => None
      | c :: s1 =>
          if ch 93 c then Some ([], s1)
          else if ch 92 c then
            match s1 with
            | x :: s2 =>
                match p_class f s2 with
                | Some (items, rest) => Some (esc_item x :: items, rest)
                | None => None
                end
            | [] => None
            end
          else
            match s1 with
            | d :: e :: s3 =>
                if ch 45 d && negb (ch 93 e) then
                  match p_class f s3 with
                  | Some (items, rest) => Some (CRange c e :: items, rest)
                  | None => None
                  end
                else
                  match p_class f s1 with
                  | Some (items, rest) => Some (CChar c :: items, rest)
                  | None => None
                  end
            | _ =>
                match p_class f s1 with
                | Some (items, rest) => Some (CChar c :: items, rest)
                | None => None
                end
            end
      end
  end.

(** A quantifier after an atom, if there is one. *)
Definition p_quant (a : regex) (s : str) : regex * str :=
  let lz (s : str) : bool * str :=
    match s with
    | c :: s' => if ch 63 c then (false, s') else (true, s)
    | [] => (true, s)
    end in
  match s with
  | c :: s1 =>
      if ch 63 c then let '(g, s2)   := lz s1 in (RRep 0 (Some 1) g a, s2)
      else if ch 42 c then let '(g, s2)   := lz s1 in (RRep 0 None g a, s2)
      else if ch 43 c then let '(g, s2)   := lz s1 in (RRep 1 None g a, s2)
      else if ch 123 c then
        let '(lo, s2) := p_nat 0 s1 in
        match s2 with
        | d :: s3 =>
            if ch 125 d then let '(g, s4)   := lz s3 in (RRep lo (Some lo) g a, s4)
            else if ch 44 d then
              match s3 with
              | e :: s4 =>
                  if ch 125 e then let '(g, s5)   := lz s4 in (RRep lo None g a, s5)
                  else
                    let '(hi, s5) := p_nat 0 s3 in
                    match s5 with
                    | _ :: s6 => let '(g, s7)   := lz s6 in (RRep lo (Some hi) g a, s7)
                    | [] => (RFail, [])
                    end
              | [] => (RFail, [])
              end
            else (RFail, [])
        | [] => (RFail, [])
        end
      else (a, s)
  | [] => (a, s)
  end.

(** Alternation, sequence and atom; [gi] is the number of the next group. *)
Fixpoint p_alt (fuel : nat) (gi : nat) (s : str) : option (regex * nat * str) :=
  match fuel with
  | 0 => None
  | S f =>
      match p_seq f gi s with
      | Some (r1, gi1, s1) =>
          match s1 with
          | c :: s2 =>
              if ch 124 c then
                match p_alt f gi1 s2 with
                | Some (r2, gi2, s3) => Some (RAlt r1 r2, gi2, s3)
                | None => None
                end
              else Some (r1, gi1, s1)
          | [] => Some (r1, gi1, s1)
          end
      | None => None
      end
  end
with p_seq (fuel : nat) (gi : nat) (s : str) : option (regex * nat * str) :=
  match fuel with
  | 0 => None
  | S f =>
      match s with
      | [] => Some (REps, gi, s)
      | c :: _ =>
          if ch 124 c || ch 41 c then Some (REps, gi, s)
          else
            match p_atom f gi s with
            | Some (a, gi1, s1) =>
                let '(a', s2) := p_quant a s1 in
                match p_seq f gi1 s2 with
                | Some (REps, gi2, s3) => Some (a', gi2, s3)
                | Some (r, gi2, s3) => Some (RSeq a' r, gi2, s3)
                | None => None
                end
            | None => None
            end
      end
  end
with p_atom (fuel : nat) (gi : nat) (s : str) : option (regex * nat * str) :=
  match fuel with
  | 0 => None
  | S f =>
      match s with
      | [] => None
      | c :: s1 =>
          if ch 40 c then
            match s1 with
            | q :: k :: s3 =>
                if ch 63 q && ch 58 k then
                  match p_alt f gi s3 with
                  | Some (r, gi1, d :: s4) => if ch 41 d then Some (r, gi1, s4) else None
                  | _ => None
                  end
                else
                  match p_alt f (S gi) s1 with
                  | Some (r, gi1, d :: s4) => if ch 41 d then Some (RGroup gi r, gi1, s4) else None
                  | _ => None
                  end
            | _ => None
            end
          else if ch 91 c then
            match s1 with
            | n :: s2 =>
                if ch 94 n then
                  match p_class f s2 with
                  | Some (items, rest) => Some (RSet true items, gi, rest)
                  | None => None
                  end
                else
                  match p_class f s1 with
                  | Some (items, rest) => Some (RSet false items, gi, rest)
                  | None => None
                  end
            | [] => None
            end
          else if ch 92 c then
            match s1 with
            | x :: s2 =>
                if ch 98 x then Some (RWordB, gi, s2)
                else if ch 68 x then Some (RSet true [CDigit], gi, s2)
                else if ch 83 x then Some (RSet true [CSpace], gi, s2)
                else if ch 87 x then Some (RSet true [CWord], gi, s2)
                else if ch 100 x || ch 115 x || ch 119 x then Some (RSet false [esc_item x], gi, s2)
                else Some (RChar x, gi, s2)
            | [] => None
            end
          else if ch 94 c then Some (RBol, gi, s1)
          else if ch 36 c then Some (REol, gi, s1)
          else if ch 46 c then Some (RSet true [CChar (c_of 10)], gi, s1)
          else Some (RChar c, gi, s1)
      end
  end.

(** [re.compile(pattern)]; a pattern that cannot be read matches nothing. *)
Definition parse (p : str) : option regex :=
  match p_alt (3 * length p + 3) 1 p with
  | Some (r, _, []) => Some r
  | _ => None
  end.

Definition re_compile (p : string) : regex :=
  match parse (u p) with
  | Some r => r
  | None => RFail
  end.

(** *** Matching *)

Definition item_has (t : Str.char) (it : citem) : bool :=
  match it with
  | CChar c => Str.ceqb c t
  | CRange lo hi => Str.in_range (Str.code lo) (Str.code hi) t
  | CDigit => Str.is_decimal t
  | CSpace => Str.isspace t
  | CWord => Str.is_word t
  end.

Definition set_has (items : list citem) (t : Str.char) : bool :=
  existsb (item_has t) items.

(** *** re.IGNORECASE

    A character of the pattern that has a case is compiled to its lower
    case, with the characters of [extra_cases]; the character of the text is
    then compared by its lower case.  A class is compiled so when one of its
    members has a case. *)

(** [x] is what the member [member] of the pattern is compiled to. *)
Definition lowered_is (x member : Str.char) : bool :=
  Str.ceqb x (Str.lower member) || existsb (Str.ceqb x) (Str.extra_cases (Str.lower member)).

(** The characters from [lo] to [hi]. *)
Definition members (lo hi : Str.char) : list Str.char :=
  map (fun k => (Str.code lo + N.of_nat k)%N) (seq 0 (N.to_nat (Str.code hi + 1 - Str.code lo))).

Definition item_has_lowered (x : Str.char) (it : citem) : bool :=
  match it with
  | CChar c => lowered_is x c
  | CRange lo hi => existsb (lowered_is x) (members lo hi)
  | _ => item_has x it
  end.

Definition item_cased (it : citem) : bool :=
  match it with
  | CChar c => Str.iscased c
  | CRange lo hi => existsb Str.iscased (members lo hi)
  | _ => false
  end.

(** A group's span: [(n, (start, end))], the latest first. *)
Definition groups := list (nat * (nat * nat)).

Definition group_span (g : groups) (n : nat) : option (nat * nat) :=
  match find (fun p => fst p =? n) g with
  | Some (_, se) => Some se
  | None => None
  end.

Section Matcher.

Variable ic : bool.   (* re.IGNORECASE *)
Variable txt : str.

Definition chr_match (c t : Str.char) : bool :=
  if ic && Str.iscased c then lowered_is (Str.lower t) c else Str.ceqb c t.

Definition set_match (neg : bool) (items : list citem) (t : Str.char) : bool :=
  let hit :=
    if ic && existsb item_cased items
    then existsb (item_has_lowered (Str.lower t)) items
    else set_has items t in
  if neg then negb hit else hit.

Definition word_at (i : nat) : bool :=
  match nth_error txt i with
  | Some t => Str.is_word t
  | None => false
  end.

(** [\b] at position [i]: exactly one side is a word character. *)
Definition boundary (i : nat) : bool :=
  xorb (match i with 0 => false | S j => word_at j end) (word_at i).

(** [$]: the end, or just before a newline that ends the text. *)
Definition at_eol (i : nat) : bool :=
  (i =? length txt)
  || ((S i =? length txt)
      && match nth_error txt i with Some t => (Str.code t =? 10)%N | None => false end).

Definition kont := nat -> groups -> option (nat * groups).

(** [m r k i g]: match [r] at position [i], then go on with [k]; the first
    success in the order of a backtracking matcher. *)
Fixpoint m (r : regex) (k : kont) (i : nat) (g : groups) {struct r} : option (nat * groups) :=
  match r with
  | RFail => None
  | REps => k i g
  | RChar c =>
      match nth_error txt i with
      | Some t => if chr_match c t then k (S i) g else None
      | None => None
      end
  | RSet neg items =>
      match nth_error txt i with
      | Some t => if set_match neg items t then k (S i) g else None
      | None => None
      end
  | RSeq r1 r2 => m r1 (fun j g' => m r2 k j g') i g
  | RAlt r1 r2 =>
      match m r1 k i g with
      | Some x => Some x
      | None => m r2 k i g
      end
  | RRep lo hi greedy r1 =>
      (fix loop (n : nat) (lo : nat) (i : nat) (g : groups) {struct n} : option (nat * groups) :=
         match n with
         | 0 => if lo =? 0 then k i g else None
         | S n' =>
             if lo =? 0 then
               if greedy then
                 match m r1 (fun j g' => loop n' 0 j g') i g with
                 | Some x => Some x
                 | None => k i g
                 end
               else
                 match k i g with
                 | Some x => Some x
                 | None => m r1 (fun j g' => loop n' 0 j g') i g
                 end
             else m r1 (fun j g' => loop n' (pred lo) j g') i g
         end)
        (match hi with Some h => h | None => length txt end) lo i g
  | RGroup n r1 => m r1 (fun j g' => k j ((n, (i, j)) :: g')) i g
  | RWordB => if boundary i then k i g else None
  | RBol => if i =? 0 then k i g else None
  | REol => if at_eol i then k i g else None
  end.

Definition k_done : kont := fun j g => Some (j, g).

(** A match object: start, end, groups. *)
Record mobj := { m_start : nat; m_end : nat; m_groups : groups }.

(** [pattern.match(text)] *)
Definition re_match (r : regex) : option mobj :=
  match m r k_done 0 [] with
  | Some (j, g) => Some {| m_start := 0; m_end := j; m_groups := g |}
  | None => None
  end.

(** [pattern.finditer(text)]: [n] positions are left from [i] on, and the
    next [skip] of them lie inside the match just found. *)
Fixpoint scan (r : regex) (n : nat) (i : nat) (skip : nat) : list mobj :=
  match n with
  | 0 => []
  | S n' =>
      match skip with
      | S s => scan r n' (S i) s
      | 0 =>
          match m r k_done i [] with
          | Some (j, g) =>
              {| m_start := i; m_end := j; m_groups := g |} :: scan r n' (S i) (j - i - 1)
          | None => scan r n' (S i) 0
          end
      end
  end.

Definition finditer (r : regex) : list mobj := scan r (S (length txt)) 0 0.

(** [match.group()], [match.group(n)], [match.start(n)], [match.end(n)];
    every group asked for in this program takes part in every match. *)
Definition group0 (mo : mobj) : str := Str.slice txt (m_start mo) (m_end mo).

Definition span_of (mo : mobj) (n : nat) : nat * nat :=
  match group_span (m_groups mo) n with
  | Some se => se
  | None => (m_start mo, m_end mo)
  end.

Definition group (mo : mobj) (n : nat) : str :=
  Str.slice txt (fst (span_of mo n)) (snd (span_of mo n)).

(** Every recorded group is non-empty and ends inside the text. *)
Definition groups_ok (g : groups) : Prop :=
  Forall (fun p => fst (snd p) < snd (snd p) /\ snd (snd p) <= length txt) g.

(** A match object in order: inside the text, with its groups. *)
Definition mobj_ok (nonempty : bool) (mo : mobj) : Prop :=
  m_start mo <= m_end mo /\ m_end mo <= length txt
  /\ (nonempty = true -> m_start mo < m_end mo)
  /\ groups_ok (m_groups mo).

End Matcher.

(** *** Expressions that consume *)

(** The expression can match the empty string. *)
Fixpoint nullable (r : regex) : bool :=
  match r with
  | RFail => false
  | REps => true
  | RChar _ => false
  | RSet _ _ => false
  | RSeq r1 r2 => nullable r1 && nullable r2
  | RAlt r1 r2 => nullable r1 || nullable r2
  | RRep lo _ _ r1 => (lo =? 0) || nullable r1
  | RGroup _ r1 => nullable r1
  | RWordB => true
  | RBol => true
  | REol => true
  end.

(** Every group of the expression takes at least one character. *)
Fixpoint groups_consume (r : regex) : bool :=
  match r with
  | RSeq r1 r2 => groups_consume r1 && groups_consume r2
  | RAlt r1 r2 => groups_consume r1 && groups_consume r2
  | RRep _ _ _ r1 => groups_consume r1
  | RGroup _ r1 => negb (nullable r1) && groups_consume r1
  | _ => true
  end.

(** An expression whose matches and groups are never empty. *)
Definition consuming (r : regex) : bool := negb (nullable r) && groups_consume r.

End Re.

(* ================================================================== *)
(** ** validators.py *)

(** A decimal literal with two places: [dec 98] is [0.98]. *)
Definition dec (hundredths : Z) : Q := (hundredths # 100)%Q.

(** [str(n)] for a natural number. *)
Definition str_of_nat (n : nat) : str :=
  Str.of_string (NilEmpty.string_of_uint (Nat.to_uint n)).

Definition str_of_Z (z : Z) : str := str_of_nat (Z.to_nat z).

Module Validators.

Record ValidationResult := {
  is_valid : bool;
  confidence : Q;
  message : str;
  cleaned_value : option str
}.

(** [re.sub(r'\D', '', s)] *)
Definition clean (s : str) : str := filter Str.is_decimal s.

(** [s.isdigit()] *)
Definition str_isdigit (s : str) : bool :=
  match s with
  | [] => false
  | _ => forallb Str.isdigit s
  end.

(** [x in S] for a set of strings *)
Definition str_in (x : str) (S : list str) : bool := existsb (Str.eqb x) S.

(** [len(set(s))] *)
Definition distinct_chars (s : str) : nat := length (nodup N.eq_dec s).

(** [sum(d * w for d, w in zip(ds, ws))] *)
Definition weighted_sum (ds ws : list Z) : Z :=
  fold_left Z.add (map (fun dw => fst dw * snd dw)%Z (combine ds ws)) 0%Z.

(** [l[i]] on a list of integers *)
Definition py_nth (l : list Z) (i : nat) : py Z :=
  match nth_error l i with
  | Some d => Ret d
  | None => Raise IndexError
  end.

(** [[int(d) for d in cleaned]] *)
Definition int_digits (cleaned : str) : py (list Z) :=
  mapM (fun c => py_int [c]) cleaned.

Module CPFValidator.

Definition INVALID_CPFS : list str :=
  map u ["00000000000"; "11111111111"; "22222222222"; "33333333333";
         "44444444444"; "55555555555"; "66666666666"; "77777777777";
         "88888888888"; "99999999999"]%string.

(** [range(10, 1, -1)] and [range(11, 1, -1)] *)
Definition range_10_1 : list Z := [10; 9; 8; 7; 6; 5; 4; 3; 2]%Z.
Definition range_11_1 : list Z := [11; 10; 9; 8; 7; 6; 5; 4; 3; 2]%Z.

Definition validate (cpf : str) : py ValidationResult :=
  let cleaned := clean cpf in
  if negb (length cleaned =? 11) then
    Ret {| is_valid := false; confidence := dec 0;
           message := u "CPF deve ter 11 dígitos, encontrado: " ++ str_of_nat (length cleaned);
           cleaned_value := None |}
  else if negb (str_isdigit cleaned) then
    Ret {| is_valid := false; confidence := dec 0;
           message := u "CPF deve conter apenas dígitos"; cleaned_value := None |}
  else if str_in cleaned INVALID_CPFS then
    Ret {| is_valid := false; confidence := dec 0;
           message := u "CPF com sequência inválida (dígitos repetidos)";
           cleaned_value := None |}
  else
    digits <- int_digits cleaned ;;
    let sum_first := weighted_sum (firstn 9 digits) range_10_1 in
    let expected_first := ((sum_first * 10 mod 11) mod 10)%Z in
    d9 <- py_nth digits 9 ;;
    if negb (expected_first =? d9)%Z then
      Ret {| is_valid := false; confidence := dec 30;
             message := u "Primeiro dígito verificador inválido: esperado "
                        ++ str_of_Z expected_first ++ u ", encontrado " ++ str_of_Z d9;
             cleaned_value := Some cleaned |}
    else
      let sum_second := weighted_sum (firstn 10 digits) range_11_1 in
      let expected_second := ((sum_second * 10 mod 11) mod 10)%Z in
      d10 <- py_nth digits 10 ;;
      if negb (expected_second =? d10)%Z then
        Ret {| is_valid := false; confidence := dec 30;
               message := u "Segundo dígito verificador inválido: esperado "
                          ++ str_of_Z expected_second ++ u ", encontrado " ++ str_of_Z d10;
               cleaned_value := Some cleaned |}
      else
        Ret {| is_valid := true; confidence := dec 98;
               message := u "CPF válido - dígitos verificadores conferem";
               cleaned_value := Some cleaned |}.

(** [CPFValidator.format]: the pattern XXX.XXX.XXX-XX, or the argument as it
    came when it does not have eleven digits. *)
Definition format (cpf : str) : str :=
  let cleaned := clean cpf in
  if length cleaned =? 11 then
    Str.slice cleaned 0 3 ++ u "." ++ Str.slice cleaned 3 6 ++ u "."
    ++ Str.slice cleaned 6 9 ++ u "-" ++ skipn 9 cleaned
  else cpf.

Definition calculate_check_digits (cpf_base : str) : py (Z * Z) :=
  let cleaned := firstn 9 (clean cpf_base) in
  if negb (length cleaned =? 9) then Raise ValueError
  else
    digits <- int_digits cleaned ;;
    let sum_first := weighted_sum digits range_10_1 in
    let first_digit := ((sum_first * 10 mod 11) mod 10)%Z in
    let digits := digits ++ [first_digit] in
    let sum_second := weighted_sum digits range_11_1 in
    let second_digit := ((sum_second * 10 mod 11) mod 10)%Z in
    Ret (first_digit, second_digit).

End CPFValidator.

Module CNPJValidator.

Definition WEIGHTS_FIRST : list Z := [5; 4; 3; 2; 9; 8; 7; 6; 5; 4; 3; 2]%Z.
Definition WEIGHTS_SECOND : list Z := [6; 5; 4; 3; 2; 9; 8; 7; 6; 5; 4; 3; 2]%Z.

Definition INVALID_CNPJS : list str :=
  map u ["00000000000000"; "11111111111111"; "22222222222222";
         "33333333333333"; "44444444444444"; "55555555555555";
         "66666666666666"; "77777777777777"; "88888888888888";
         "99999999999999"]%string.

Definition validate (cnpj : str) : py ValidationResult :=
  let cleaned := clean cnpj in
  if negb (length cleaned =? 14) then
    Ret {| is_valid := false; confidence := dec 0;
           message := u "CNPJ deve ter 14 dígitos, encontrado: " ++ str_of_nat (length cleaned);
           cleaned_value := None |}
  else if negb (str_isdigit cleaned) then
    Ret {| is_valid := false; confidence := dec 0;
           message := u "CNPJ deve conter apenas dígitos"; cleaned_value := None |}
  else if str_in cleaned INVALID_CNPJS then
    Ret {| is_valid := false; confidence := dec 0;
           message := u "CNPJ com sequência inválida (dígitos repetidos)";
           cleaned_value := None |}
  else
    digits <- int_digits cleaned ;;
    let sum_first := weighted_sum (firstn 12 digits) WEIGHTS_FIRST in
    let remainder := (sum_first mod 11)%Z in
    let expected_first := (if remainder <? 2 then 0 else 11 - remainder)%Z in
    d12 <- py_nth digits 12 ;;
    if negb (expected_first =? d12)%Z then
      Ret {| is_valid := false; confidence := dec 30;
             message := u "Primeiro dígito verificador inválido";
             cleaned_value := Some cleaned |}
    else
      let sum_second := weighted_sum (firstn 13 digits) WEIGHTS_SECOND in
      let remainder := (sum_second mod 11)%Z in
      let expected_second := (if remainder <? 2 then 0 else 11 - remainder)%Z in
      d13 <- py_nth digits 13 ;;
      if negb (expected_second =? d13)%Z then
        Ret {| is_valid := false; confidence := dec 30;
               message := u "Segundo dígito verificador inválido";
               cleaned_value := Some cleaned |}
      else
        Ret {| is_valid := true; confidence := dec 98;
               message := u "CNPJ válido - dígitos verificadores conferem";
               cleaned_value := Some cleaned |}.

(** [CNPJValidator.format]: the pattern XX.XXX.XXX/XXXX-XX. *)
Definition format (cnpj : str) : str :=
  let cleaned := clean cnpj in
  if length cleaned =? 14 then
    Str.slice cleaned 0 2 ++ u "." ++ Str.slice cleaned 2 5 ++ u "."
    ++ Str.slice cleaned 5 8 ++ u "/" ++ Str.slice cleaned 8 12 ++ u "-" ++ skipn 12 cleaned
  else cnpj.

End CNPJValidator.

Module PhoneValidator.

Definition VALID_DDDS : list Z :=
  [11; 12; 13; 14; 15; 16; 17; 18; 19;
   21; 22; 24; 27; 28;
   31; 32; 33; 34; 35; 37; 38;
   41; 42; 43; 44; 45; 46; 47; 48; 49;
   51; 53; 54; 55;
   61; 62; 63; 64; 65; 66; 67; 68; 69;
   71; 73; 74; 75; 77; 79;
   81; 82; 83; 84; 85; 86; 87; 88; 89;
   91; 92; 93; 94; 95; 96; 97; 98; 99]%Z.

Definition validate (phone : str) : py ValidationResult :=
  let cleaned := clean phone in
  let cleaned :=
    if Str.startswith (u "55") cleaned && (11 <? length cleaned)
    then skipn 2 cleaned else cleaned in
  if negb ((length cleaned =? 10) || (length cleaned =? 11)) then
    Ret {| is_valid := false; confidence := dec 0;
           message := u "Telefone deve ter 10 ou 11 dígitos, encontrado: "
                      ++ str_of_nat (length cleaned);
           cleaned_value := None |}
  else
    ddd <- py_int (firstn 2 cleaned) ;;
    if negb (existsb (Z.eqb ddd) VALID_DDDS) then
      Ret {| is_valid := false; confidence := dec 40;
             message := u "DDD " ++ str_of_Z ddd ++ u " não é válido no Brasil";
             cleaned_value := Some cleaned |}
    else
      not_mobile <- (if length cleaned =? 11
                     then c <- py_index cleaned 2 ;; Ret (negb (Str.ceqb c (Str.chr 57)))
                     else Ret false) ;;
      if not_mobile then
        Ret {| is_valid := false; confidence := dec 50;
               message := u "Celular com 11 dígitos deve ter terceiro dígito = 9";
               cleaned_value := Some cleaned |}
      else if distinct_chars (skipn 2 cleaned) =? 1 then
        Ret {| is_valid := false; confidence := dec 20;
               message := u "Telefone com dígitos repetidos";
               cleaned_value := Some cleaned |}
      else
        let phone_type := if length cleaned =? 11 then u "celular" else u "fixo" in
        Ret {| is_valid := true; confidence := dec 90;
               message := u "Telefone " ++ phone_type ++ u " válido - DDD " ++ str_of_Z ddd;
               cleaned_value := Some cleaned |}.

End PhoneValidator.

(** [s.rsplit(c, 1)] when [c] occurs: the parts before and after the last
    occurrence. *)
Fixpoint split_last (c : Str.char) (s : str) : option (str * str) :=
  match s with
  | [] => None
  | x :: s' =>
      match split_last c s' with
      | Some (a, b) => Some (x :: a, b)
      | None => if Str.ceqb x c then Some ([], s') else None
      end
  end.

(** [s.split(c)[-1]] *)
Definition last_part (c : Str.char) (s : str) : str :=
  match split_last c s with
  | Some (_, b) => b
  | None => s
  end.

Module EmailValidator.

Definition COMMON_TLDS : list str :=
  map u ["com"; "com.br"; "org"; "org.br"; "net"; "net.br"; "gov"; "gov.br";
         "edu"; "edu.br"; "mil"; "mil.br"; "info"; "biz"; "io"; "co";
         "br"; "pt"; "us"; "uk"; "de"; "fr"; "es"; "it"; "jp"; "cn"]%string.

Definition EMAIL_PATTERN : Re.regex :=
  Eval vm_compute in Re.re_compile "^[a-zA-Z0-9._%+-]+@[a-zA-Z0-9.-]+\.[a-zA-Z]{2,}$".

Definition validate (email : str) : py ValidationResult :=
  let email := Str.lower_str (Str.strip email) in
  match Re.re_match false email EMAIL_PATTERN with
  | None =>
      Ret {| is_valid := false; confidence := dec 0;
             message := u "Formato de email inválido"; cleaned_value := None |}
  | Some _ =>
      (* try: local, domain = email.rsplit('@', 1) / except ValueError *)
      match split_last (Str.chr 64) email with
      | None =>
          Ret {| is_valid := false; confidence := dec 0;
                 message := u "Email deve conter exatamente um @";
                 cleaned_value := None |}
      | Some (local, domain) =>
          if 64 <? length local then
            Ret {| is_valid := false; confidence := dec 30;
                   message := u "Parte local do email muito longa (máximo 64 caracteres)";
                   cleaned_value := None |}
          else if 255 <? length domain then
            Ret {| is_valid := false; confidence := dec 30;
                   message := u "Domínio do email muito longo (máximo 255 caracteres)";
                   cleaned_value := None |}
          else
            let tld := last_part (Str.chr 46) domain in
            if length tld <? 2 then
              Ret {| is_valid := false; confidence := dec 30;
                     message := u "TLD do email inválido"; cleaned_value := None |}
            else
              let confidence :=
                if existsb (fun t => Str.endswith (Str.chr 46 :: t) domain) COMMON_TLDS
                then dec 95 else dec 85 in
              Ret {| is_valid := true; confidence := confidence;
                     message := u "Email com formato válido";
                     cleaned_value := Some email |}
      end
  end.

End EmailValidator.

Module CEPValidator.

Definition regions : list (Z * str) :=
  [(0, u "São Paulo - Capital");
   (1, u "São Paulo - Interior");
   (2, u "Rio de Janeiro / Espírito Santo");
   (3, u "Minas Gerais");
   (4, u "Bahia / Sergipe");
   (5, u "Nordeste (PE, AL, PB, RN)");
   (6, u "Norte/Nordeste (CE, PI, MA, PA, AM, AC, AP, RR)");
   (7, u "Centro-Oeste (GO, TO, MT, MS, DF)");
   (8, u "Sul (PR, SC)");
   (9, u "Rio Grande do Sul")]%Z.

Definition validate (cep : str) : py ValidationResult :=
  let cleaned := clean cep in
  if negb (length cleaned =? 8) then
    Ret {| is_valid := false; confidence := dec 0;
           message := u "CEP deve ter 8 dígitos, encontrado: " ++ str_of_nat (length cleaned);
           cleaned_value := None |}
  else if negb (str_isdigit cleaned) then
    Ret {| is_valid := false; confidence := dec 0;
           message := u "CEP deve conter apenas dígitos"; cleaned_value := None |}
  else if distinct_chars cleaned =? 1 then
    Ret {| is_valid := false; confidence := dec 0;
           message := u "CEP com dígitos repetidos"; cleaned_value := None |}
  else
    c0 <- py_index cleaned 0 ;;
    first_digit <- py_int [c0] ;;
    let region :=
      match find (fun kv => Z.eqb (fst kv) first_digit) regions with
      | Some (_, name) => name
      | None => u "Região desconhecida"
      end in
    Ret {| is_valid := true; confidence := dec 85;
           message := u "CEP válido - Região: " ++ region;
           cleaned_value := Some cleaned |}.

(** [CEPValidator.format]: the pattern XXXXX-XXX. *)
Definition format (cep : str) : str :=
  let cleaned := clean cep in
  if length cleaned =? 8 then Str.slice cleaned 0 5 ++ u "-" ++ skipn 5 cleaned
  else cep.

End CEPValidator.

(** *** The check-digit rule as the specification words it *)

(** Remainder below 2 gives 0, otherwise 11 minus the remainder. *)
Definition official_digit (weighted : Z) : Z :=
  let remainder := (weighted mod 11)%Z in
  if (remainder <? 2)%Z then 0%Z else (11 - remainder)%Z.

(** One digit repeated throughout. *)
Definition all_repeated (s : str) : bool :=
  match s with
  | [] => false
  | c :: rest => forallb (Str.ceqb c) rest
  end.

(** The numeric values of the digits of a cleaned candidate. *)
Definition digits_of (cleaned : str) : list Z := map digit_val cleaned.

(** Both check digits of a candidate of [n + 2] digits agree with the
    rule, for the weights [w1] and [w2]. *)
Definition check_digits_ok (n : nat) (w1 w2 : list Z) (cleaned : str) : bool :=
  let ds := digits_of cleaned in
  (nth n ds 0 =? official_digit (weighted_sum (firstn n ds) w1))%Z
  && (nth (S n) ds 0 =? official_digit (weighted_sum (firstn (S n) ds) w2))%Z.

(** One of the digits 0 to 9 of ASCII repeated throughout: the sequences
    that [INVALID_CPFS] and [INVALID_CNPJS] list. *)
Definition listed_repeated (s : str) : bool :=
  all_repeated s && match s with c :: _ => Str.in_range 48 57 c | [] => false end.

(** Well-formed as the code tests it: the right number of digits, and not
    a listed sequence. *)
Definition structure_accepted (n : nat) (cleaned : str) : bool :=
  (length cleaned =? n + 2) && negb (listed_repeated cleaned).

(** Well-formed: the right number of digits, not one digit repeated. *)
Definition structure_ok (n : nat) (cleaned : str) : bool :=
  (length cleaned =? n + 2) && negb (all_repeated cleaned).

Definition official_verdict (n : nat) (w1 w2 : list Z) (candidate : str) : bool * Q :=
  let cleaned := clean candidate in
  if structure_ok n cleaned then
    if check_digits_ok n w1 w2 cleaned then (true, dec 98) else (false, dec 30)
  else (false, dec 0).

(** The verdict of the code: the one above with the listed sequences in
    the place of every repeated digit. *)
Definition code_verdict (n : nat) (w1 w2 : list Z) (candidate : str) : bool * Q :=
  let cleaned := clean candidate in
  if structure_accepted n cleaned then
    if check_digits_ok n w1 w2 cleaned then (true, dec 98) else (false, dec 30)
  else (false, dec 0).

(** The digits the phone validator works on: cleaned, and without a
    leading country code. *)
Definition phone_digits (s : str) : str :=
  if Str.startswith (u "55") (clean s) && (11 <? length (clean s))
  then skipn 2 (clean s) else clean s.

Definition official_cpf : str -> bool * Q :=
  official_verdict 9 CPFValidator.range_10_1 CPFValidator.range_11_1.

Definition official_cnpj : str -> bool * Q :=
  official_verdict 12 CNPJValidator.WEIGHTS_FIRST CNPJValidator.WEIGHTS_SECOND.

Definition code_cpf : str -> bool * Q :=
  code_verdict 9 CPFValidator.range_10_1 CPFValidator.range_11_1.

Definition code_cnpj : str -> bool * Q :=
  code_verdict 12 CNPJValidator.WEIGHTS_FIRST CNPJValidator.WEIGHTS_SECOND.

(** A candidate whose decimal digits are all digits of ASCII. *)
Definition ascii_digits (candidate : str) : bool :=
  forallb (Str.in_range 48 57) (clean candidate).

(** What the tests of the validators look at. *)
Definition verdict (r : py ValidationResult) : option (bool * Q) :=
  match r with
  | Ret v => Some (is_valid v, confidence v)
  | Raise _ => None
  end.

End Validators.

(* ================================================================== *)
(** ** patterns.py *)

Module Patterns.

Inductive PIIType :=
| CPF | CNPJ | TELEFONE | CELULAR | EMAIL | CEP | RG | CNH | TITULO_ELEITOR
| PIS_PASEP | CARTAO_CREDITO | NOME_PESSOA | ENDERECO | DATA_NASCIMENTO
| PLACA_VEICULO | PASSAPORTE.

Scheme Equality for PIIType.

(** [pii_type.value] *)
Definition value_of (t : PIIType) : str :=
  u match t with
    | CPF => "CPF" | CNPJ => "CNPJ" | TELEFONE => "TELEFONE" | CELULAR => "CELULAR"
    | EMAIL => "EMAIL" | CEP => "CEP" | RG => "RG" | CNH => "CNH"
    | TITULO_ELEITOR => "TITULO_ELEITOR" | PIS_PASEP => "PIS_PASEP"
    | CARTAO_CREDITO => "CARTAO_CREDITO" | NOME_PESSOA => "NOME_PESSOA"
    | ENDERECO => "ENDERECO" | DATA_NASCIMENTO => "DATA_NASCIMENTO"
    | PLACA_VEICULO => "PLACA_VEICULO" | PASSAPORTE => "PASSAPORTE"
    end%string.

(** [flags] is [true] for [re.IGNORECASE], the default and the only flag in
    use. *)
Record PatternConfig := {
  pattern : string;
  pii_type : PIIType;
  description : string;
  priority : nat;
  requires_validation : bool;
  min_confidence : Q;
  flags : bool
}.

Definition PC (p : string) (t : PIIType) (d : string) (pr : nat) (rv : bool) (c : Z) :=
  {| pattern := p; pii_type := t; description := d; priority := pr;
     requires_validation := rv; min_confidence := dec c; flags := true |}.

Open Scope string_scope.

Definition CPF_PATTERNS : list PatternConfig :=
  [ PC "\b\d{3}\.?\d{3}\.?\d{3}[-./]?\d{2}\b" CPF "CPF padrão com ou sem formatação" 1 true 90;
    PC "\b\d{3}\s?\d{3}\s?\d{3}\s?\d{2}\b" CPF "CPF com espaços" 1 true 85;
    PC "\b\d{9}[-./]?\d{2}\b" CPF "CPF sem separadores intermediários" 2 true 80 ].

Definition CNPJ_PATTERNS : list PatternConfig :=
  [ PC "\b\d{2}\.?\d{3}\.?\d{3}/?0001[-.]?\d{2}\b" CNPJ "CNPJ matriz" 1 true 95;
    PC "\b\d{2}\.?\d{3}\.?\d{3}/?\d{4}[-.]?\d{2}\b" CNPJ "CNPJ padrão" 1 true 90;
    PC "\b\d{14}\b" CNPJ "CNPJ sem formatação" 2 true 70 ].

Definition PHONE_PATTERNS : list PatternConfig :=
  [ PC "\(?\d{2}\)?\s*9?\d{4}[-.\s]?\d{4}\b" TELEFONE "Telefone com DDD" 1 false 85;
    PC "\b(?:\+?55\s?)?\(?\d{2}\)?\s*9\d{4}[-.\s]?\d{4}\b" CELULAR "Celular com DDI opcional" 1 false 90;
    PC "\b(?:\+?55\s?)?\(?\d{2}\)?\s*[2-5]\d{3}[-.\s]?\d{4}\b" TELEFONE "Telefone fixo" 1 false 85;
    PC "\b9?\d{4}[-.\s]?\d{4}\b" TELEFONE "Telefone sem DDD" 3 false 60;
    PC "\+55\s?\d{2}\s?\d{4,5}[-.\s]?\d{4}\b" TELEFONE "Telefone formato internacional" 1 false 95 ].

Definition EMAIL_PATTERNS : list PatternConfig :=
  [ PC "\b[a-zA-Z0-9._%+-]+@[a-zA-Z0-9.-]+\.[a-zA-Z]{2,}\b" EMAIL "Email padrão" 1 false 95;
    PC "\b[a-zA-Z0-9._%+-]+\s*@\s*[a-zA-Z0-9.-]+\s*\.\s*[a-zA-Z]{2,}\b" EMAIL "Email com espaços" 2 false 80;
    PC "\b[a-zA-Z0-9._%+-]+\s*\[\s*@\s*\]\s*[a-zA-Z0-9.-]+\s*\.\s*[a-zA-Z]{2,}\b" EMAIL
       "Email ofuscado com [@]" 2 false 85 ].

Definition CEP_PATTERNS : list PatternConfig :=
  [ PC "\b\d{5}[-.\s]?\d{3}\b" CEP "CEP padrão" 1 false 85;
    PC "\b\d{2}\.\d{3}[-.]?\d{3}\b" CEP "CEP com ponto no meio" 2 false 75 ].

Definition RG_PATTERNS : list PatternConfig :=
  [ PC "\b\d{1,2}\.?\d{3}\.?\d{3}[-.]?[0-9xX]\b" RG "RG padrão" 2 false 70;
    PC "\b[A-Z]{2}[-.\s]?\d{2}\.?\d{3}\.?\d{3}\b" RG "RG com UF" 1 false 80 ].

Definition CNH_PATTERNS : list PatternConfig :=
  [ PC "\b\d{11}\b" CNH "CNH (11 dígitos)" 3 false 50;
    PC "\b\d{4}\s?\d{4}\s?\d{3}\b" CNH "CNH formatada" 2 false 60 ].

Definition TITULO_ELEITOR_PATTERNS : list PatternConfig :=
  [ PC "\b\d{4}\s?\d{4}\s?\d{4}\b" TITULO_ELEITOR "Título de eleitor (12 dígitos)" 2 false 60 ].

Definition PIS_PASEP_PATTERNS : list PatternConfig :=
  [ PC "\b\d{3}\.?\d{5}\.?\d{2}[-.]?\d{1}\b" PIS_PASEP "PIS/PASEP" 2 false 70 ].

Definition CARTAO_CREDITO_PATTERNS : list PatternConfig :=
  [ PC "\b(?:4\d{3}|5[1-5]\d{2}|6011|3[47]\d{2})[-.\s]?\d{4}[-.\s]?\d{4}[-.\s]?\d{4}\b"
       CARTAO_CREDITO "Cartão de crédito (Visa, Master, Amex)" 1 false 90 ].

Definition DATA_NASCIMENTO_PATTERNS : list PatternConfig :=
  [ PC "\b(?:0[1-9]|[12]\d|3[01])[-/.](?:0[1-9]|1[0-2])[-/.](?:19|20)\d{2}\b"
       DATA_NASCIMENTO "Data DD/MM/AAAA" 2 false 70;
    PC "\b(?:19|20)\d{2}[-/.](?:0[1-9]|1[0-2])[-/.](?:0[1-9]|[12]\d|3[01])\b"
       DATA_NASCIMENTO "Data AAAA-MM-DD" 2 false 70 ].

Definition PLACA_VEICULO_PATTERNS : list PatternConfig :=
  [ PC "\b[A-Z]{3}[-.\s]?\d{4}\b" PLACA_VEICULO "Placa antiga AAA-1234" 1 false 85;
    PC "\b[A-Z]{3}\d[A-Z]\d{2}\b" PLACA_VEICULO "Placa Mercosul AAA1A23" 1 false 90 ].

Definition PASSAPORTE_PATTERNS : list PatternConfig :=
  [ PC "\b[A-Z]{2}\d{6}\b" PASSAPORTE "Passaporte brasileiro" 2 false 70 ].

Close Scope string_scope.

(** The dictionary [_compiled_patterns]: one entry per type, in the order
    in which the types first appear, each with its expressions in order. *)
Definition compiled := list (PIIType * list (Re.regex * PatternConfig)).

Fixpoint add_compiled (d : compiled) (config : PatternConfig) : compiled :=
  let entry := (Re.re_compile (pattern config), config) in
  match d with
  | [] => [(pii_type config, [entry])]
  | (t, l) :: d' =>
      if PIIType_beq t (pii_type config)
      then (t, l ++ [entry]) :: d'
      else (t, l) :: add_compiled d' config
  end.

Definition all_pattern_lists : list (list PatternConfig) :=
  [ CPF_PATTERNS; CNPJ_PATTERNS; PHONE_PATTERNS; EMAIL_PATTERNS; CEP_PATTERNS;
    RG_PATTERNS; CNH_PATTERNS; TITULO_ELEITOR_PATTERNS; PIS_PASEP_PATTERNS;
    CARTAO_CREDITO_PATTERNS; DATA_NASCIMENTO_PATTERNS; PLACA_VEICULO_PATTERNS;
    PASSAPORTE_PATTERNS ].

Definition _compile_all_patterns : compiled :=
  fold_left add_compiled (concat all_pattern_lists) [].

Definition _compiled_patterns : compiled := Eval vm_compute in _compile_all_patterns.

(** The dictionary a catalog hit is. *)
Record Match := {
  m_type : str;
  m_value : str;
  m_start : Z;
  m_end : Z;
  m_confidence : Q;
  m_description : str;
  m_requires_validation : bool;
  m_priority : nat
}.

Definition _has_overlap (match1 match2 : Match) : bool :=
  negb ((m_end match1 <=? m_start match2)%Z || (m_end match2 <=? m_start match1)%Z).

(** The key [(x['start'], -x['confidence'])], compared as tuples. *)
Definition key_le (x y : Match) : bool :=
  (m_start x <? m_start y)%Z
  || ((m_start x =? m_start y)%Z && Qle_bool (- m_confidence x) (- m_confidence y)).

(** [sorted(matches, key=...)]: a stable sort. *)
Fixpoint insert_sorted (x : Match) (l : list Match) : list Match :=
  match l with
  | [] => [x]
  | y :: l' => if key_le x y then x :: l else y :: insert_sorted x l'
  end.

Definition sorted (l : list Match) : list Match := fold_right insert_sorted [] l.

(** The loop of [_deduplicate_matches] over the sorted hits. *)
Fixpoint dedup_loop (result : list Match) (sorted_matches : list Match) : list Match :=
  match sorted_matches with
  | [] => result
  | match_ :: rest =>
      let is_duplicate := existsb (fun existing => _has_overlap match_ existing) result in
      dedup_loop (if is_duplicate then result else result ++ [match_]) rest
  end.

Definition _deduplicate_matches (matches : list Match) : list Match :=
  match matches with
  | [] => matches
  | _ => dedup_loop [] (sorted matches)
  end.

Definition hits_of (text : str) (pii : PIIType) (rc : Re.regex * PatternConfig) : list Match :=
  let '(compiled_pattern, config) := rc in
  map (fun mo =>
         {| m_type := value_of pii;
            m_value := Re.group0 text mo;
            m_start := Z.of_nat (Re.m_start mo);
            m_end := Z.of_nat (Re.m_end mo);
            m_confidence := min_confidence config;
            m_description := u (description config);
            m_requires_validation := requires_validation config;
            m_priority := priority config |})
      (Re.finditer (flags config) text compiled_pattern).

(** [BrazilianPatterns.find_all] *)
Definition find_all (text : str) : list Match :=
  let matches :=
    flat_map (fun tp => flat_map (hits_of text (fst tp)) (snd tp)) _compiled_patterns in
  _deduplicate_matches matches.

(** *** ContextualPatterns *)

Open Scope string_scope.

Definition CPF_CONTEXTUAL : list (string * Q) :=
  [ ("(?:meu|seu|nosso|dele|dela)?\s*(?:cpf|c\.p\.f\.?)[\s:é]+([0-9.\-\s]{11,18})", dec 92);
    ("(?:cpf|c\.p\.f\.?)[\s:]+n[°º]?\s*([0-9.\-\s]{11,18})", dec 90);
    ("(?:cadastro|documento)[\s:]+([0-9]{3}\.?[0-9]{3}\.?[0-9]{3}[-.]?[0-9]{2})", dec 88);
    ("(?:inscrito|registrado)\s+(?:no|sob)\s+(?:cpf|c\.p\.f\.?)[\s:]+([0-9.\-\s]{11,18})", dec 93) ].

Definition PHONE_CONTEXTUAL : list (string * Q) :=
  [ ("(?:meu|seu|nosso)?\s*(?:telefone|tel|fone|celular|cel|contato|whatsapp|zap)[\s:é]+([0-9()\-\s]{8,20})", dec 90);
    ("(?:ligue|ligar|chamar)[\s:]+(?:para|no|em)?\s*([0-9()\-\s]{8,20})", dec 85);
    ("(?:número|n[°º])[\s:]+([0-9()\-\s]{8,20})", dec 75) ].

Definition EMAIL_CONTEXTUAL : list (string * Q) :=
  [ ("(?:meu|seu|nosso)?\s*(?:e-?mail|email|correio)[\s:é]+([a-zA-Z0-9._%+-]+@[a-zA-Z0-9.-]+\.[a-zA-Z]{2,})", dec 95);
    ("(?:envie?|mande?|contato)[\s:]+(?:para|em)?\s*([a-zA-Z0-9._%+-]+@[a-zA-Z0-9.-]+\.[a-zA-Z]{2,})", dec 90) ].

Definition ADDRESS_CONTEXTUAL : list (string * Q) :=
  [ ("(?:rua|av\.?|avenida|travessa|alameda|praça)[\s:]+([A-Za-záàâãéèêíïóôõöúçñÁÀÂÃÉÈÊÍÏÓÔÕÖÚÇÑ\s]+),?\s*(?:n[°º]?|número)?\s*(\d+)", dec 85);
    ("(?:endereço|mora em|residente|localizado)[\s:]+([A-Za-záàâãéèêíïóôõöúçñÁÀÂÃÉÈÊÍÏÓÔÕÖÚÇÑ\s,\d]+)", dec 80) ].

Definition NAME_CONTEXTUAL : list (string * Q) :=
  [ ("(?:eu|me\s+chamo|meu\s+nome\s+[eé])[\s:]+([A-Z][a-záàâãéèêíïóôõöúçñ]+(?:\s+[A-Z][a-záàâãéèêíïóôõöúçñ]+)+)", dec 85);
    ("(?:assinado|assinatura|responsável|solicitante|requerente)[\s:]+([A-Z][a-záàâãéèêíïóôõöúçñ]+(?:\s+[A-Z][a-záàâãéèêíïóôõöúçñ]+)+)", dec 80);
    ("(?:sr\.?|sra\.?|senhor|senhora|dr\.?|dra\.?)[\s:]+([A-Z][a-záàâãéèêíïóôõöúçñ]+(?:\s+[A-Z][a-záàâãéèêíïóôõöúçñ]+)+)", dec 75) ].

Definition pattern_groups : list (string * list (string * Q)) :=
  [ ("CPF", CPF_CONTEXTUAL); ("TELEFONE", PHONE_CONTEXTUAL); ("EMAIL", EMAIL_CONTEXTUAL);
    ("ENDERECO", ADDRESS_CONTEXTUAL); ("NOME", NAME_CONTEXTUAL) ].

Close Scope string_scope.

(** [re.compile(p, re.IGNORECASE)] for every contextual expression *)
Definition _compile_patterns : list (string * list (Re.regex * Q)) :=
  map (fun np => (fst np, map (fun pc => (Re.re_compile (fst pc), snd pc)) (snd np)))
      pattern_groups.

Definition _compiled : list (string * list (Re.regex * Q)) :=
  Eval vm_compute in _compile_patterns.

(** The dictionary a contextual hit is. *)
Record CMatch := {
  c_type : str;
  c_value : str;
  c_start : Z;
  c_end : Z;
  c_confidence : Q;
  c_full_context : str;
  c_detection_method : str
}.

Definition contextual_hits (text : str) (pii_type : string) (rc : Re.regex * Q) : list CMatch :=
  let '(compiled_pattern, confidence) := rc in
  map (fun mo =>
         {| c_type := u pii_type ++ u "_CONTEXTUAL";
            c_value := Str.strip (Re.group text mo 1);
            c_start := Z.of_nat (fst (Re.span_of mo 1));
            c_end := Z.of_nat (snd (Re.span_of mo 1));
            c_confidence := confidence;
            c_full_context := Re.group0 text mo;
            c_detection_method := u "contextual" |})
      (Re.finditer true text compiled_pattern).

(** [ContextualPatterns.find_contextual] *)
Definition find_contextual (text : str) : list CMatch :=
  flat_map (fun np => flat_map (contextual_hits text (fst np)) (snd np)) _compiled.

End Patterns.

(* ================================================================== *)
(** ** detector.py *)

Module Detector.

Import Patterns.

Inductive DetectionMode := STRICT | BALANCED | PRECISE.

(** [mode.value] and [DetectionMode(mode)] *)
Definition mode_value (m : DetectionMode) : str :=
  u match m with STRICT => "strict" | BALANCED => "balanced" | PRECISE => "precise" end%string.

Definition mode_of_value (s : str) : py DetectionMode :=
  if Str.eqb s (u "strict") then Ret STRICT
  else if Str.eqb s (u "balanced") then Ret BALANCED
  else if Str.eqb s (u "precise") then Ret PRECISE
  else Raise ValueError.

(** A [Dict[str, float]], in insertion order. *)
Definition dict := list (str * Q).

Fixpoint dict_get (d : dict) (key : str) (default : Q) : Q :=
  match d with
  | [] => default
  | (k, v) :: d' => if Str.eqb k key then v else dict_get d' key default
  end.

Definition D (l : list (string * Z)) : dict := map (fun kv => (u (fst kv), dec (snd kv))) l.

Record DetectionConfig := {
  mode : DetectionMode;
  use_bert : bool;
  use_contextual : bool;
  validate_documents : bool;
  min_confidence : Q;
  thresholds : dict
}.

Open Scope string_scope.

(** The defaults of the dataclass. *)
Definition default_thresholds : dict :=
  D [ ("CPF", 30); ("CNPJ", 40); ("TELEFONE", 40); ("CELULAR", 40); ("EMAIL", 70);
      ("CEP", 50); ("NOME", 60); ("RG", 50); ("DATA_NASCIMENTO", 60); ("DEFAULT", 50) ]%Z.

Definition _get_config_for_mode (m : DetectionMode) : DetectionConfig :=
  match m with
  | STRICT =>
      {| mode := m; use_bert := true; use_contextual := true; validate_documents := true;
         min_confidence := dec 30;
         thresholds := D [ ("CPF", 20); ("CNPJ", 30); ("TELEFONE", 30); ("CELULAR", 30);
                           ("EMAIL", 50); ("CEP", 40); ("NOME", 40); ("DEFAULT", 30) ]%Z |}
  | PRECISE =>
      {| mode := m; use_bert := true; use_contextual := true; validate_documents := true;
         min_confidence := dec 70;
         thresholds := D [ ("CPF", 70); ("CNPJ", 70); ("TELEFONE", 70); ("CELULAR", 70);
                           ("EMAIL", 80); ("CEP", 70); ("NOME", 80); ("DEFAULT", 70) ]%Z |}
  | BALANCED =>
      {| mode := m; use_bert := true; use_contextual := true; validate_documents := true;
         min_confidence := dec 50; thresholds := default_thresholds |}
  end.

Close Scope string_scope.

Record Entity := {
  type : str;
  value : str;
  start : Z;
  end_ : Z;
  confidence : Q;
  validation_status : str;
  validation_message : str;
  detection_method : str;
  explanation : str
}.

(** [Entity(type=..., ...)] with the defaults of the dataclass for the
    validation fields. *)
Definition mkEntity (t v : str) (s e : Z) (c : Q) (method expl : str) : Entity :=
  {| type := t; value := v; start := s; end_ := e; confidence := c;
     validation_status := u "not_validated"; validation_message := [];
     detection_method := method; explanation := expl |}.

Definition set_confidence (e : Entity) (c : Q) : Entity :=
  {| type := type e; value := value e; start := start e; end_ := end_ e;
     confidence := c; validation_status := validation_status e;
     validation_message := validation_message e;
     detection_method := detection_method e; explanation := explanation e |}.

Definition set_detection_method (e : Entity) (m : str) : Entity :=
  {| type := type e; value := value e; start := start e; end_ := end_ e;
     confidence := confidence e; validation_status := validation_status e;
     validation_message := validation_message e;
     detection_method := m; explanation := explanation e |}.

Definition set_validation (e : Entity) (status msg : str) : Entity :=
  {| type := type e; value := value e; start := start e; end_ := end_ e;
     confidence := confidence e; validation_status := status;
     validation_message := msg;
     detection_method := detection_method e; explanation := explanation e |}.

Definition set_explanation (e : Entity) (x : str) : Entity :=
  {| type := type e; value := value e; start := start e; end_ := end_ e;
     confidence := confidence e; validation_status := validation_status e;
     validation_message := validation_message e;
     detection_method := detection_method e; explanation := x |}.

Record DetectionResult := {
  has_pii : bool;
  entities : list Entity;
  total_entities : nat;                 (* summary['total_entities'] *)
  by_type : list (str * nat);           (* summary['by_type'] *)
  text_length : nat;                    (* metadata['text_length'] *)
  meta_mode : option str;               (* metadata['mode'], absent on the early return *)
  bert_enabled : option bool            (* metadata['bert_enabled'], likewise *)
}.

(** The detector: its configuration and, when a model was loaded, what
    [_bert_contextual_detection] answers for a text.  The model is outside
    the program; its answers are taken as they come. *)
Record PIIGuardian := {
  config : DetectionConfig;
  bert_model : option (str -> list Entity)
}.

Definition BRAZILIAN_NAMES : list str :=
  map u [ "silva"; "santos"; "oliveira"; "souza"; "rodrigues"; "ferreira";
          "alves"; "pereira"; "lima"; "gomes"; "costa"; "ribeiro"; "martins";
          "carvalho"; "almeida"; "lopes"; "soares"; "fernandes"; "vieira";
          "barbosa"; "rocha"; "dias"; "nascimento"; "andrade"; "moreira";
          "nunes"; "marques"; "machado"; "mendes"; "freitas"; "cardoso";
          "ramos"; "gonçalves"; "santana"; "teixeira"; "moura"; "araújo";
          "maria"; "josé"; "ana"; "joão"; "paulo"; "carlos"; "antonio";
          "francisco"; "pedro"; "lucas"; "luiz"; "marcos"; "gabriel";
          "rafael"; "daniel"; "fernanda"; "juliana"; "camila"; "amanda";
          "patricia"; "aline"; "bruna"; "jessica"; "leticia"; "larissa" ]%string.

(** [self.validators] *)
Definition validators (base_type : str) : option (str -> py Validators.ValidationResult) :=
  if Str.eqb base_type (u "CPF") then Some Validators.CPFValidator.validate
  else if Str.eqb base_type (u "CNPJ") then Some Validators.CNPJValidator.validate
  else if Str.eqb base_type (u "TELEFONE") then Some Validators.PhoneValidator.validate
  else if Str.eqb base_type (u "CELULAR") then Some Validators.PhoneValidator.validate
  else if Str.eqb base_type (u "EMAIL") then Some Validators.EmailValidator.validate
  else if Str.eqb base_type (u "CEP") then Some Validators.CEPValidator.validate
  else None.

(** [entity.type.replace('_CONTEXTUAL', '')] *)
Definition base_type_of (t : str) : str := Str.remove_all (u "_CONTEXTUAL") t.

Definition _has_overlap (entity1 entity2 : Entity) : bool :=
  negb ((end_ entity1 <=? start entity2)%Z || (end_ entity2 <=? start entity1)%Z).

Definition _has_overlap_dict (match_ : CMatch) (entity : Entity) : bool :=
  negb ((c_end match_ <=? start entity)%Z || (end_ entity <=? c_start match_)%Z).

(** *** Phase 1 *)

Definition cpf_aggressive : Re.regex :=
  Eval vm_compute in Re.re_compile "\b(?:\d{3}[\.\-\s]?){2}\d{3}[\.\-\s]?\d{2}?\b".

Definition phone_aggressive : Re.regex :=
  Eval vm_compute in
    Re.re_compile "\b(?:\d{4,5}[-\s]?\d{4}|\d{2}[\)]\s?\d{4,5}[-\s]?\d{4})\b".

Definition entity_of_match (match_ : Match) : Entity :=
  mkEntity (m_type match_) (m_value match_) (m_start match_) (m_end match_)
           (m_confidence match_) (u "regex") (m_description match_).

(** One turn of a loop over the hits of an aggressive expression. *)
Definition aggressive_step (text : str) (lo hi : nat) (t : string) (c : Q) (expl : string)
           (entities : list Entity) (mo : Re.mobj) : list Entity :=
  let value := Re.group0 text mo in
  if negb (existsb (fun e => Str.eqb (Detector.value e) value) entities) then
    let digits := Str.count_digits value in
    if (lo <=? digits) && (digits <=? hi) then
      entities ++ [ mkEntity (u t) value (Z.of_nat (Re.m_start mo)) (Z.of_nat (Re.m_end mo))
                             c (u "regex_aggressive") (u expl) ]
    else entities
  else entities.

Definition cpf_step (text : str) :=
  aggressive_step text 9 11 "CPF" (dec 70) "Padrão agressivo de CPF detectado".

Definition phone_step (text : str) :=
  aggressive_step text 8 11 "TELEFONE" (dec 75) "Padrão agressivo de telefone detectado".

Definition _regex_detection_aggressive (text : str) : list Entity :=
  let entities := map entity_of_match (find_all text) in
  let entities := fold_left (cpf_step text) (Re.finditer false text cpf_aggressive) entities in
  fold_left (phone_step text) (Re.finditer false text phone_aggressive) entities.

(** What a loop over the hits of an aggressive expression adds, in the
    words of the specification: a hit gives an entity when the number of
    digits of its value is in range and its value is not among the values
    collected so far, [seen]; where the hit lies plays no part. *)
Fixpoint aggressive_added (text : str) (lo hi : nat) (t : string) (c : Q) (expl : string)
         (seen : list str) (hits : list Re.mobj) : list Entity :=
  match hits with
  | [] => []
  | mo :: rest =>
      let value := Re.group0 text mo in
      if (lo <=? Str.count_digits value) && (Str.count_digits value <=? hi)
         && negb (existsb (fun v => Str.eqb v value) seen)
      then mkEntity (u t) value (Z.of_nat (Re.m_start mo)) (Z.of_nat (Re.m_end mo))
                    c (u "regex_aggressive") (u expl)
           :: aggressive_added text lo hi t c expl (seen ++ [value]) rest
      else aggressive_added text lo hi t c expl seen rest
  end.

(** An entity the aggressive loops added. *)
Definition aggressive_cpf (e : Entity) : Prop :=
  type e = u "CPF" /\ confidence e = dec 70
  /\ detection_method e = u "regex_aggressive".

Definition aggressive_phone (e : Entity) : Prop :=
  type e = u "TELEFONE" /\ confidence e = dec 75
  /\ detection_method e = u "regex_aggressive".

(** *** Phase 3 *)

(** The inner loop of [_merge_detections] for one model hit: [None] when no
    pattern hit overlaps it, otherwise the pattern hits after the first
    overlapping one has taken the higher confidence.  The pattern hits are
    objects shared with the merged list, so the update shows there. *)
Fixpoint absorb (bert : Entity) (regex_matches : list Entity) : option (list Entity) :=
  match regex_matches with
  | [] => None
  | reg :: rest =>
      if _has_overlap bert reg then
        Some ((if negb (Qle_bool (confidence bert) (confidence reg))
               then set_detection_method (set_confidence reg (confidence bert)) (u "hybrid")
               else reg) :: rest)
      else
        match absorb bert rest with
        | Some rest' => Some (reg :: rest')
        | None => None
        end
  end.

(** The outer loop: the pattern hits as they stand and the model hits
    appended so far. *)
Fixpoint merge_loop (bert_matches : list Entity) (regs : list Entity) (appended : list Entity)
  : list Entity * list Entity :=
  match bert_matches with
  | [] => (regs, appended)
  | bert :: rest =>
      match absorb bert regs with
      | Some regs' => merge_loop rest regs' appended
      | None => merge_loop rest regs (appended ++ [bert])
      end
  end.

Definition _merge_detections (regex_matches bert_matches : list Entity) : list Entity :=
  let '(regs, appended) := merge_loop bert_matches regex_matches [] in
  regs ++ appended.

(** *** Vocabulary of the statements about the fusion *)

(** What identifies a hit and where it lies. *)
Definition core (e : Entity) : str * str * Z * Z := (type e, value e, start e, end_ e).

(** Some pattern hit overlaps the model hit. *)
Definition overlaps_any (bert : Entity) (regs : list Entity) : bool :=
  existsb (_has_overlap bert) regs.

(** The pattern hit after meeting an overlapping model hit. *)
Definition raised (bert reg : Entity) : Entity :=
  if negb (Qle_bool (confidence bert) (confidence reg))
  then set_detection_method (set_confidence reg (confidence bert)) (u "hybrid")
  else reg.

(** How a pattern hit can differ after the fusion from what it was. *)
Definition lifted (berts : list Entity) (r r' : Entity) : Prop :=
  r' = r
  \/ (detection_method r' = u "hybrid"
      /\ core r' = core r
      /\ validation_status r' = validation_status r
      /\ validation_message r' = validation_message r
      /\ explanation r' = explanation r
      /\ exists b, In b berts /\ _has_overlap b r = true
                   /\ confidence r' = confidence b
                   /\ ~ (confidence b <= confidence r)%Q).

(** *** Phase 4 *)

Definition number_pattern : Re.regex :=
  Eval vm_compute in
    Re.re_compile "\b(número|telefone|celular|fone|contato)[\s:]+(\d{4,5}[-\s]?\d{4})\b".

Definition cpf_context : Re.regex :=
  Eval vm_compute in Re.re_compile "\b(CPF|c\.p\.f\.?|cadastro)[\s:]+([0-9\.\-\s]{8,18})\b".

Definition name_keywords : Re.regex :=
  Eval vm_compute in
    Re.re_compile "\b(sr\.?|sra\.?|senhor[a]?|doutor[a]?|dr\.?|dra\.?)\s+([A-Z][a-záàâãéèêíïóôõöúçñ]+(?:\s+[A-Z][a-záàâãéèêíïóôõöúçñ]+){1,4})\b".

Definition has_value (entities : list Entity) (v : str) : bool :=
  existsb (fun e => Str.eqb (value e) v) entities.

Definition contextual_step (entities : list Entity) (match_ : CMatch) : list Entity :=
  let value := c_value match_ in
  let is_duplicate :=
    existsb (fun e => Str.eqb (Detector.value e) value || _has_overlap_dict match_ e) entities in
  if negb is_duplicate && negb (Str.eqb (Str.strip value) []) then
    entities ++ [ mkEntity (c_type match_) value (c_start match_) (c_end match_)
                           (c_confidence match_) (u "contextual")
                           (u "Detectado por contexto: '" ++ firstn 50 (c_full_context match_)
                            ++ u "...'") ]
  else entities.

Definition span2 (mo : Re.mobj) : Z * Z :=
  (Z.of_nat (fst (Re.span_of mo 2)), Z.of_nat (snd (Re.span_of mo 2))).

Definition number_step (text : str) (entities : list Entity) (mo : Re.mobj) : list Entity :=
  let value := Re.group text mo 2 in
  if negb (has_value entities value) then
    entities ++ [ mkEntity (u "TELEFONE_CONTEXTUAL") value (fst (span2 mo)) (snd (span2 mo))
                           (dec 88) (u "anti_fn") (u "Contexto explícito de telefone detectado") ]
  else entities.

Definition cpf_context_step (text : str) (entities : list Entity) (mo : Re.mobj) : list Entity :=
  let value := Str.strip (Re.group text mo 2) in
  let digits := Str.count_digits value in
  if (9 <=? digits) && negb (has_value entities value) then
    entities ++ [ mkEntity (u "CPF_CONTEXTUAL") value (fst (span2 mo)) (snd (span2 mo))
                           (dec 85) (u "anti_fn") (u "Menção explícita de CPF no contexto") ]
  else entities.

Definition name_step (text : str) (entities : list Entity) (mo : Re.mobj) : list Entity :=
  let value := Re.group text mo 2 in
  if negb (has_value entities value) then
    let words := Str.split_ws (Str.lower_str value) in
    let has_common_name := existsb (fun w => Validators.str_in w BRAZILIAN_NAMES) words in
    if has_common_name || (2 <=? length words) then
      entities ++ [ mkEntity (u "NOME_PESSOA") value (fst (span2 mo)) (snd (span2 mo))
                             (dec 75) (u "anti_fn")
                             (u "Nome detectado após palavra-chave de tratamento") ]
    else entities
  else entities.

Definition _anti_false_negative_filter (entities : list Entity) (text : str) : list Entity :=
  let entities := fold_left contextual_step (find_contextual text) entities in
  let entities := fold_left (number_step text) (Re.finditer true text number_pattern) entities in
  let entities := fold_left (cpf_context_step text) (Re.finditer true text cpf_context) entities in
  fold_left (name_step text) (Re.finditer false text name_keywords) entities.

(** *** Phase 5 *)

Definition Qmax (a b : Q) : Q := if Qle_bool b a then a else b.

Definition is_cpf_or_cnpj (base_type : str) : bool :=
  Str.eqb base_type (u "CPF") || Str.eqb base_type (u "CNPJ").

Definition is_strict (m : DetectionMode) : bool :=
  match m with STRICT => true | _ => false end.

(** One turn of the loop of [_validate_consistency]: the entity as it is
    kept, or [None] when it is dropped. *)
Definition validate_one (cfg : DetectionConfig) (entity : Entity) : py (option Entity) :=
  let base_type := base_type_of (type entity) in
  match validators base_type with
  | Some validator =>
      result <- validator (value entity) ;;
      let entity :=
        set_validation entity
          (if Validators.is_valid result then u "valid" else u "invalid")
          (Validators.message result) in
      if Validators.is_valid result then
        let entity := set_confidence entity (Qmax (confidence entity) (Validators.confidence result)) in
        let entity := set_explanation entity
                        (explanation entity ++ u " | Validação: " ++ Validators.message result) in
        Ret (Some entity)
      else if is_cpf_or_cnpj base_type then
        if is_strict (mode cfg) then
          let entity := set_confidence entity (confidence entity * (1 # 2))%Q in
          let entity := set_explanation entity
                          (explanation entity ++ u " | AVISO: " ++ Validators.message result) in
          Ret (Some entity)
        else Ret None
      else Ret (Some entity)
  | None =>
      Ret (Some (set_validation entity (u "not_applicable") (validation_message entity)))
  end.

Fixpoint _validate_consistency (cfg : DetectionConfig) (entities : list Entity)
  : py (list Entity) :=
  match entities with
  | [] => Ret []
  | entity :: rest =>
      kept <- validate_one cfg entity ;;
      validated_entities <- _validate_consistency cfg rest ;;
      Ret (match kept with
           | Some e => e :: validated_entities
           | None => validated_entities
           end)
  end.

(** What one turn keeps, as a function: [validate_one] without the monad. *)
Definition kept (cfg : DetectionConfig) (e : Entity) : option Entity :=
  match validate_one cfg e with
  | Ret k => k
  | Raise _ => None
  end.

Definition keep_list (k : option Entity) : list Entity :=
  match k with Some e => [e] | None => [] end.

(** *** Vocabulary of the statements about the result *)

(** A confidence between 0 and 1. *)
Definition unit_conf (c : Q) : Prop := (0 <= c)%Q /\ (c <= 1)%Q.

(** An entity that lies in the text, is not empty, and has a confidence
    between 0 and 1. *)
Definition entity_ok (text : str) (e : Entity) : Prop :=
  (0 <= start e)%Z /\ (start e < end_ e)%Z /\ (end_ e <= Z.of_nat (length text))%Z
  /\ unit_conf (confidence e).

(** The expressions and confidences of both catalogs, checked: every
    expression consumes, every confidence is between 0 and 1. *)
Definition unit_confb (c : Q) : bool := Qle_bool 0 c && Qle_bool c 1.

Definition catalog_checked : bool :=
  forallb (fun tl => forallb (fun rc => Re.consuming (fst rc)
                                        && unit_confb (Patterns.min_confidence (snd rc))
                                        && Patterns.flags (snd rc))
                             (snd tl))
          Patterns._compiled_patterns.

Definition contextual_checked : bool :=
  forallb (fun nl => forallb (fun rc => Re.consuming (fst rc) && unit_confb (snd rc)) (snd nl))
          Patterns._compiled.

(** Two entities that do not both overlap and carry the same value. *)
Definition apart (a b : Entity) : Prop :=
  _has_overlap a b = false \/ value a <> value b.

(** Two entities whose spans do not meet. *)
Definition disjoint (a b : Entity) : Prop := _has_overlap a b = false.


(** Every entity of [added] stands in [R] to every entity before it, those
    of [base] included. *)
Fixpoint each_after (R : Entity -> Entity -> Prop) (base added : list Entity) : Prop :=
  match added with
  | [] => True
  | e :: rest => Forall (fun a => R a e) base /\ each_after R (base ++ [e]) rest
  end.


(** *** Phase 6 *)

Definition threshold_for (cfg : DetectionConfig) (base_type : str) : Q :=
  dict_get (thresholds cfg) base_type (dict_get (thresholds cfg) (u "DEFAULT") (dec 50)).

Definition passes (cfg : DetectionConfig) (entity : Entity) : bool :=
  Qle_bool (threshold_for cfg (base_type_of (type entity))) (confidence entity).

Definition _apply_thresholds (cfg : DetectionConfig) (entities : list Entity) : list Entity :=
  filter (passes cfg) entities.

(** *** The pipeline *)

(** [by_type[entity_type] = by_type.get(entity_type, 0) + 1] *)
Fixpoint count_up (by_type : list (str * nat)) (entity_type : str) : list (str * nat) :=
  match by_type with
  | [] => [(entity_type, 1)]
  | (k, n) :: d => if Str.eqb k entity_type then (k, S n) :: d else (k, n) :: count_up d entity_type
  end.

Definition summarize (filtered : list Entity) : list (str * nat) :=
  fold_left (fun by_type entity => count_up by_type (base_type_of (type entity))) filtered [].

(** The first four phases. *)
Definition collect (self : PIIGuardian) (text : str) : list Entity :=
  let regex_matches := _regex_detection_aggressive text in
  let bert_matches :=
    match bert_model self with
    | Some model => if use_bert (config self) then model text else []
    | None => []
    end in
  let merged := _merge_detections regex_matches bert_matches in
  if use_contextual (config self) then _anti_false_negative_filter merged text else merged.

(** The hits of the model, when there is a model and the configuration
    uses it. *)
Definition model_hits (self : PIIGuardian) (text : str) : list Entity :=
  match bert_model self with
  | Some model => if use_bert (config self) then model text else []
  | None => []
  end.


Definition detect (self : PIIGuardian) (text : str) : py DetectionResult :=
  if Str.eqb text [] || Str.eqb (Str.strip text) [] then
    Ret {| has_pii := false; entities := []; total_entities := 0; by_type := [];
           text_length := 0; meta_mode := None; bert_enabled := None |}
  else
    let merged := collect self text in
    validated <- (if validate_documents (config self)
                  then _validate_consistency (config self) merged
                  else Ret merged) ;;
    let filtered := _apply_thresholds (config self) validated in
    Ret {| has_pii := 0 <? length filtered;
           entities := filtered;
           total_entities := length filtered;
           by_type := summarize filtered;
           text_length := length text;
           meta_mode := Some (mode_value (mode (config self)));
           bert_enabled := Some (match bert_model self with Some _ => true | None => false end) |}.

(** [PIIGuardian(mode=..., config=...)] *)
Definition new (mode : str) (config : option DetectionConfig)
           (model : option (str -> list Entity)) : py PIIGuardian :=
  match config with
  | Some c => Ret {| Detector.config := c; bert_model := model |}
  | None =>
      mode_enum <- mode_of_value mode ;;
      Ret {| Detector.config := _get_config_for_mode mode_enum; bert_model := model |}
  end.

End Detector.

(* ================================================================== *)
(** ** detector.py: the summary and the convenience function *)

Module Results.

Import Detector.

(** [by_type.get(t, 0)] *)
Fixpoint count_of (by_type : list (str * nat)) (t : str) : nat :=
  match by_type with
  | [] => 0
  | (k, n) :: d => if Str.eqb k t then n else count_of d t
  end.

(** [sum(by_type.values())] *)
Definition counted (by_type : list (str * nat)) : nat :=
  fold_right (fun kv n => snd kv + n) 0 by_type.

(** The entities of a base type. *)
Definition of_base_type (t : str) (es : list Entity) : list Entity :=
  filter (fun e => Str.eqb (base_type_of (type e)) t) es.


(** No threshold of the table is above the bound. *)
Definition thresholds_below (bound : Q) (d : dict) : bool :=
  forallb (fun kv => Qle_bool (snd kv) bound) d.

(** What phase 4 leaves in an entity it adds. *)
Definition filter_made (e : Entity) : Prop :=
  (detection_method e = u "contextual" \/ detection_method e = u "anti_fn")
  /\ validation_status e = u "not_validated" /\ validation_message e = [].

(** [new] is [old] followed by entities with [P], each with a value that
    no entity before it has. *)
Definition grown (P : Entity -> Prop) (old new : list Entity) : Prop :=
  exists added,
    new = old ++ added /\ Forall P added
    /\ forall pre e post, added = pre ++ e :: post ->
         has_value (old ++ pre) (value e) = false.

End Results.

(* ================================================================== *)
(** ** detector.py: from token predictions to entities *)

(** The loop of [_bert_contextual_detection] over the predictions of the
    model and the offsets of the tokenizer.  The tokenizer and the model are
    outside the program: the loop is given their two lists and the table
    [id2label] of the model.  Offsets are positions in the text, so natural
    numbers. *)
Module Tokens.

Import Detector.

(** ['sub' in s] *)
Fixpoint contains (sub s : str) : bool :=
  Str.startswith sub s
  || match s with
     | [] => false
     | _ :: s' => contains sub s'
     end.

(** [id2label.get(pred, 'O')] *)
Fixpoint label_of (id2label : list (Z * str)) (pred : Z) : str :=
  match id2label with
  | [] => u "O"
  | (k, l) :: d => if (k =? pred)%Z then l else label_of d pred
  end.

Definition entity_type_of (label : str) : option str :=
  if contains (u "PER") label || contains (u "PERSON") label then Some (u "NOME_PESSOA")
  else if contains (u "LOC") label || contains (u "GPE") label then Some (u "ENDERECO")
  else if contains (u "ORG") label then Some (u "ORGANIZACAO")
  else None.

Definition bert_entity (type_ value : str) (start_ end__ : nat) : Entity :=
  mkEntity type_ value (Z.of_nat start_) (Z.of_nat end__) (dec 75) (u "bert")
           (u "Entidade detectada por análise contextual BERT").

(** [current_entity], [current_start] and [current_type]: set together
    and cleared together, so one optional triple. *)
Definition current := option (str * nat * str).

Definition truthy (s : str) : bool := negb (Str.eqb s []).

(** [current_type != entity_type] *)
Definition other_type (c : current) (entity_type : str) : bool :=
  match c with
  | Some (_, _, t) => negb (Str.eqb t entity_type)
  | None => true
  end.

(** One turn of the loop. *)
Definition token_step (id2label : list (Z * str)) (text : str)
           (acc : list Entity * current) (tok : Z * (nat * nat)) : list Entity * current :=
  let '(entities, cur) := acc in
  let '(pred, (o0, o1)) := tok in
  if negb (pred =? 0)%Z && negb (o0 =? o1) then
    let label := label_of id2label pred in
    match entity_type_of label with
    | None => acc
    | Some entity_type =>
        if Str.startswith (u "B-") label || other_type cur entity_type then
          let entities :=
            match cur with
            | Some (current_entity, current_start, current_type) =>
                if truthy current_entity
                then entities ++ [bert_entity current_type current_entity current_start o0]
                else entities
            | None => entities
            end in
          (entities, Some (Str.slice text o0 o1, o0, entity_type))
        else
          match cur with
          | Some (current_entity, current_start, current_type) =>
              (entities, Some (current_entity ++ Str.slice text o0 o1, current_start, current_type))
          | None => acc
          end
    end
  else
    match cur with
    | Some (current_entity, current_start, current_type) =>
        if truthy current_entity
        then (entities ++ [bert_entity current_type (Str.strip current_entity) current_start o0],
              None)
        else acc
    | None => acc
    end.

Definition token_loop (id2label : list (Z * str)) (text : str)
           (predictions : list Z) (offset_mapping : list (nat * nat)) : list Entity * current :=
  fold_left (token_step id2label text) (combine predictions offset_mapping) ([], None).

Definition _bert_contextual_detection (id2label : list (Z * str)) (text : str)
           (predictions : list Z) (offset_mapping : list (nat * nat)) : list Entity :=
  fst (token_loop id2label text predictions offset_mapping).

(** A prediction with its offsets, as [zip] pairs them. *)
Definition token := (Z * (nat * nat))%type.

(** A token that can open an entity of type [t]: it is predicted, not
    empty, and its label has the type [t]. *)
Definition opens (id2label : list (Z * str)) (t : str) (tok : token) : Prop :=
  fst tok <> 0%Z /\ fst (snd tok) <> snd (snd tok)
  /\ entity_type_of (label_of id2label (fst tok)) = Some t.

(** An entity that starts where a token opening its type starts, and ends
    where a later token starts. *)
Definition spans_tokens (id2label : list (Z * str)) (tokens : list token) (e : Entity) : Prop :=
  exists before a mid b after,
    tokens = before ++ a :: mid ++ b :: after
    /\ opens id2label (type e) a
    /\ start e = Z.of_nat (fst (snd a)) /\ end_ e = Z.of_nat (fst (snd b)).

(** An entity as the loop reports it. *)
Definition reported (id2label : list (Z * str)) (tokens : list token) (e : Entity) : Prop :=
  spans_tokens id2label tokens e
  /\ confidence e = dec 75 /\ detection_method e = u "bert"
  /\ validation_status e = u "not_validated".

(** What holds of the list and of the three loop variables after the
    tokens [tokens]. *)
Definition loop_invariant (id2label : list (Z * str)) (tokens : list token)
           (acc : list Entity * current) : Prop :=
  Forall (reported id2label tokens) (fst acc)
  /\ match snd acc with
     | Some (_, current_start, current_type) =>
         exists before a mid,
           tokens = before ++ a :: mid
           /\ opens id2label current_type a /\ current_start = fst (snd a)
     | None => True
     end.



End Tokens.

(* ================================================================== *)
(** ** utils.py: masking and anonymizing *)

(** [mask_pii] and [anonymize_text] take the entities as the dictionaries
    of [Entity.to_dict]: every key is present, so the defaults of [get] are
    never used, and an entity stands for its dictionary. *)
Module Utils.

Import Detector.

(** [s * n] *)
Definition str_mul (s : str) (n : nat) : str := concat (repeat s n).

(** [sorted(entities, key=lambda x: x.get('start', 0), reverse=True)]:
    stable, so entities with equal starts keep their order. *)
Fixpoint insert_desc (x : Entity) (l : list Entity) : list Entity :=
  match l with
  | [] => [x]
  | y :: l' => if (start y <=? start x)%Z then x :: l else y :: insert_desc x l'
  end.

Definition sorted_desc (l : list Entity) : list Entity := fold_right insert_desc [] l.

(** [result[:start] + piece + result[end:]] for [0 <= start] and [0 <= end]. *)
Definition splice (result : str) (start_ end__ : Z) (piece : str) : str :=
  firstn (Z.to_nat start_) result ++ piece ++ skipn (Z.to_nat end__) result.

(** [value[:2] + mask_char * (len(value) - 4) + value[-2:]], or the mask
    all over a short value. *)
Definition masked (mask_char value : str) : str :=
  if 4 <? length value
  then firstn 2 value ++ str_mul mask_char (length value - 4) ++ skipn (length value - 2) value
  else str_mul mask_char (length value).

Definition applies (entity : Entity) : bool :=
  (0 <=? start entity)%Z && (start entity <? end_ entity)%Z.

Definition mask_step (mask_char : str) (result : str) (entity : Entity) : str :=
  if applies entity
  then splice result (start entity) (end_ entity) (masked mask_char (value entity))
  else result.

Definition mask_pii (text : str) (entities : list Entity) (mask_char : str) : str :=
  match entities with
  | [] => text
  | _ => fold_left (mask_step mask_char) (sorted_desc entities) text
  end.

Definition placeholders : list (str * str) :=
  map (fun kv => (u (fst kv), u (snd kv)))
      [ ("CPF", "[CPF_REMOVIDO]"); ("CNPJ", "[CNPJ_REMOVIDO]");
        ("TELEFONE", "[TELEFONE_REMOVIDO]"); ("CELULAR", "[CELULAR_REMOVIDO]");
        ("EMAIL", "[EMAIL_REMOVIDO]"); ("CEP", "[CEP_REMOVIDO]");
        ("NOME_PESSOA", "[NOME_REMOVIDO]"); ("ENDERECO", "[ENDERECO_REMOVIDO]");
        ("RG", "[RG_REMOVIDO]"); ("DATA_NASCIMENTO", "[DATA_REMOVIDA]") ]%string.

(** [placeholders.get(entity_type, f'[{entity_type}_REMOVIDO]')] *)
Definition placeholder_for (entity_type : str) : str :=
  match find (fun kv => Str.eqb (fst kv) entity_type) placeholders with
  | Some (_, p) => p
  | None => u "[" ++ entity_type ++ u "_REMOVIDO]"
  end.

Definition placeholder_of (entity : Entity) : str :=
  placeholder_for (base_type_of (type entity)).

Definition anonymize_step (result : str) (entity : Entity) : str :=
  if applies entity
  then splice result (start entity) (end_ entity) (placeholder_of entity)
  else result.

Definition anonymize_text (text : str) (entities : list Entity) : str :=
  match entities with
  | [] => text
  | _ => fold_left anonymize_step (sorted_desc entities) text
  end.

(** *** What the two functions are for *)

(** The text with the span of each entity replaced, from left to right. *)
Fixpoint replace_spans (repl : Entity -> str) (text : str) (pos : nat)
         (entities : list Entity) : str :=
  match entities with
  | [] => skipn pos text
  | e :: rest =>
      Str.slice text pos (Z.to_nat (start e)) ++ repl e
      ++ replace_spans repl text (Z.to_nat (end_ e)) rest
  end.

(** Entities inside the text. *)
Definition inside (text : str) (e : Entity) : Prop :=
  (0 <= start e)%Z /\ (start e < end_ e)%Z /\ (end_ e <= Z.of_nat (length text))%Z.

(** Entities in the order of the text, none touching the next. *)
Definition in_text_order (entities : list Entity) : Prop :=
  ForallOrdPairs (fun a b => (end_ a <= start b)%Z) entities.

(** The value is as long as the span. *)
Definition value_fits (e : Entity) : Prop :=
  Z.of_nat (length (value e)) = (end_ e - start e)%Z.

(** *** chunk_text *)

(** A slice bound [i] as Python reads it on a sequence of length [n]. *)
Definition bound (n : nat) (i : Z) : nat :=
  if (i <? 0)%Z then Z.to_nat (Z.max 0 (i + Z.of_nat n)) else Nat.min (Z.to_nat i) n.

(** [s[a:b]] for any integers. *)
Definition slice_z (s : str) (a b : Z) : str :=
  Str.slice s (bound (length s) a) (bound (length s) b).

Fixpoint rfind_from (c : Str.char) (s : str) (i lo hi : nat) (best : Z) : Z :=
  match s with
  | [] => best
  | x :: s' =>
      rfind_from c s' (S i) lo hi
                 (if (lo <=? i) && (i <? hi) && Str.ceqb x c then Z.of_nat i else best)
  end.

(** [s.rfind(c, a, b)] for a character [c] *)
Definition rfind (c : Str.char) (s : str) (a b : Z) : Z :=
  rfind_from c s 0 (bound (length s) a) (bound (length s) b) (-1).

(** [end] as a turn of the loop leaves it. *)
Definition chunk_end (text : str) (max_length start_ : Z) : Z :=
  let end__ := (start_ + max_length)%Z in
  if (end__ <? Z.of_nat (length text))%Z then
    let last_space := rfind (Str.chr 32) text start_ end__ in
    if (start_ + max_length / 2 <? last_space)%Z then last_space else end__
  else end__.

(** The [while] loop, with a bound on the number of turns: [None] when
    the bound is reached before the loop ends. *)
Fixpoint chunk_loop (turns : nat) (text : str) (max_length overlap : Z)
         (start_ : Z) (chunks : list str) : option (list str) :=
  match turns with
  | 0 => None
  | S turns' =>
      if (start_ <? Z.of_nat (length text))%Z then
        let end__ := chunk_end text max_length start_ in
        chunk_loop turns' text max_length overlap (end__ - overlap)%Z
                   (chunks ++ [Str.strip (slice_z text start_ end__)])
      else Some chunks
  end.

Definition chunk_text (turns : nat) (text : str) (max_length overlap : Z)
  : option (list str) :=
  if (Z.of_nat (length text) <=? max_length)%Z then Some [text]
  else chunk_loop turns text max_length overlap 0 [].

End Utils.
(* ================================================================== *)
(** * Properties *)

Module StrFacts.
Import Str.

Lemma eqb_spec (a b : str) : reflect (a = b) (eqb a b).
Proof.
  revert b; induction a as [|x a IH]; intros [|y b]; simpl;
    try (constructor; congruence).
  unfold ceqb. destruct (N.eqb_spec x y) as [->|Hn]; simpl.
  - destruct (IH b) as [->|Hn]; constructor; congruence.
  - constructor; congruence.
Qed.

Lemma eqb_eq (a b : str) : eqb a b = true <-> a = b.
Proof. destruct (eqb_spec a b); split; congruence. Qed.

Lemma eqb_refl (a : str) : eqb a a = true.
Proof. apply eqb_eq; reflexivity. Qed.

Lemma eqb_neq (a b : str) : eqb a b = false <-> a <> b.
Proof. destruct (eqb_spec a b); split; congruence. Qed.

End StrFacts.

Module ValidatorExamples.
Import Validators.

Example cpf_ok :
  verdict (CPFValidator.validate (u "529.982.247-25")) = Some (true, dec 98).
Proof. vm_compute. reflexivity. Qed.

Example cpf_known_valid :
  map (fun s => verdict (CPFValidator.validate (u s)))
      ["52998224725"; "123.456.789-09"; "000.000.001-91"]%string
  = [Some (true, dec 98); Some (true, dec 98); Some (true, dec 98)].
Proof. vm_compute. reflexivity. Qed.

Example cpf_known_invalid :
  map (fun s => verdict (CPFValidator.validate (u s)))
      ["111.111.111-11"; "123.456.789-00"; "123"; "abc.def.ghi-jk"]%string
  = [Some (false, dec 0); Some (false, dec 30); Some (false, dec 0); Some (false, dec 0)].
Proof. vm_compute. reflexivity. Qed.

Example cnpj_known :
  map (fun s => verdict (CNPJValidator.validate (u s)))
      ["11.222.333/0001-81"; "11.111.111/1111-11"; "12.345.678/0001-00"; "123"]%string
  = [Some (true, dec 98); Some (false, dec 0); Some (false, dec 30); Some (false, dec 0)].
Proof. vm_compute. reflexivity. Qed.

Example phone_known :
  map (fun s => verdict (PhoneValidator.validate (u s)))
      ["(11) 99999-8888"; "(61) 3456-7890"; "+55 11 99999-8888"; "1234567";
       "(00) 99999-8888"; "99999-8888"]%string
  = [Some (true, dec 90); Some (true, dec 90); Some (true, dec 90); Some (false, dec 0);
     Some (false, dec 40); Some (false, dec 0)].
Proof. vm_compute. reflexivity. Qed.

Example email_known :
  map (fun s => verdict (EmailValidator.validate (u s)))
      ["usuario@exemplo.com"; "a@b.co"; "x@y.zz"; "usuario@dominio"; "usuario @dominio.com"; ""]%string
  = [Some (true, dec 95); Some (true, dec 95); Some (true, dec 85); Some (false, dec 0);
     Some (false, dec 0); Some (false, dec 0)].
Proof. vm_compute. reflexivity. Qed.

Example cep_known :
  map (fun s => verdict (CEPValidator.validate (u s)))
      ["70000-000"; "01310100"; "1234567"; "00000000"]%string
  = [Some (true, dec 85); Some (true, dec 85); Some (false, dec 0); Some (false, dec 0)].
Proof. vm_compute. reflexivity. Qed.

End ValidatorExamples.

(* ================================================================== *)
(** ** The validators *)

Module ValidatorFacts.
Import Validators.

Lemma in_range_spec (lo hi : N) (c : Str.char) :
  Str.in_range lo hi c = true <-> (lo <= c <= hi)%N.
Proof. unfold Str.in_range, Str.code. rewrite andb_true_iff, !N.leb_le. tauto. Qed.

(** The digits of ASCII. *)
Lemma ascii_digit_cases (c : Str.char) :
  Str.in_range 48 57 c = true ->
  In c (map Str.chr [48; 49; 50; 51; 52; 53; 54; 55; 56; 57]%N).
Proof.
  intros H. apply in_range_spec in H. unfold Str.chr. cbn [map In].
  assert (Hc : (c = 48 \/ c = 49 \/ c = 50 \/ c = 51 \/ c = 52 \/ c = 53 \/ c = 54
                \/ c = 55 \/ c = 56 \/ c = 57)%N) by lia.
  intuition congruence.
Qed.

Lemma ascii_digit_decimal (c : Str.char) :
  Str.in_range 48 57 c = true -> Str.is_decimal c = true.
Proof.
  intros H. unfold Str.is_decimal, Str.latin1. pose proof (proj1 (in_range_spec _ _ _) H).
  destruct (N.ltb_spec (Str.code c) 256); [exact H|unfold Str.code in *; lia].
Qed.

(** A table whose ranges lie in the ranges of another. *)
Lemma table_within (small big : list (N * N)) :
  forallb (fun r => existsb (fun r' => (fst r' <=? fst r)%N && (snd r <=? snd r')%N) big) small
  = true ->
  forall c, Str.in_table small c = true -> Str.in_table big c = true.
Proof.
  intros Hall c Hc. unfold Str.in_table in *.
  apply existsb_exists in Hc as (r & Hr & Hin).
  rewrite forallb_forall in Hall. specialize (Hall r Hr).
  apply existsb_exists in Hall as (r' & Hr' & Hle).
  apply existsb_exists. exists r'. split; [exact Hr'|].
  apply andb_prop in Hle as [H1 H2]. apply N.leb_le in H1, H2.
  apply in_range_spec in Hin. apply in_range_spec. lia.
Qed.

Lemma decimal_isdigit (c : Str.char) : Str.is_decimal c = true -> Str.isdigit c = true.
Proof.
  unfold Str.is_decimal, Str.isdigit. destruct (Str.latin1 c).
  - intros ->. reflexivity.
  - apply table_within. vm_compute. reflexivity.
Qed.

Lemma clean_decimal (s : str) : forallb Str.is_decimal (clean s) = true.
Proof.
  unfold clean. induction s as [|c s IH]; simpl; [reflexivity|].
  destruct (Str.is_decimal c) eqn:E; simpl; [rewrite E|]; assumption.
Qed.

Lemma clean_isdigit (s : str) : clean s <> [] -> str_isdigit (clean s) = true.
Proof.
  intros Hne. unfold str_isdigit. destruct (clean s) as [|c l] eqn:E; [congruence|].
  rewrite <- E. apply forallb_forall. intros x Hx.
  apply decimal_isdigit.
  pose proof (clean_decimal s) as Hd. rewrite forallb_forall in Hd. auto.
Qed.

Lemma py_int_digit (c : Str.char) :
  Str.is_decimal c = true -> py_int [c] = Ret (digit_val c).
Proof. intros H. unfold py_int. simpl. rewrite H. simpl. reflexivity. Qed.

Lemma int_digits_ok (cleaned : str) :
  forallb Str.is_decimal cleaned = true ->
  int_digits cleaned = Ret (digits_of cleaned).
Proof.
  unfold int_digits, digits_of.
  induction cleaned as [|c l IH]; intros H; [reflexivity|].
  simpl in H. apply andb_prop in H as [Hc Hl].
  cbn [mapM map]. rewrite (py_int_digit _ Hc). cbn [bind]. rewrite (IH Hl). reflexivity.
Qed.

(** The program's closed form of the rule: ten times the sum, modulo 11,
    modulo 10. *)
Lemma mod11_rule (s : Z) : ((s * 10 mod 11) mod 10 = official_digit s)%Z.
Proof.
  unfold official_digit.
  rewrite <- Z.mul_mod_idemp_l by lia.
  pose proof (Z.mod_pos_bound s 11 ltac:(lia)) as Hr.
  remember (s mod 11)%Z as r eqn:Er. clear Er.
  assert (Hc : (r = 0 \/ r = 1 \/ r = 2 \/ r = 3 \/ r = 4 \/ r = 5 \/ r = 6 \/ r = 7
                \/ r = 8 \/ r = 9 \/ r = 10)%Z) by lia.
  repeat (destruct Hc as [Hc|Hc]; [subst r; reflexivity|]).
  subst r; reflexivity.
Qed.

Lemma all_repeated_repeat (c : Str.char) (l : str) :
  forallb (Str.ceqb c) l = true -> l = repeat c (length l).
Proof.
  induction l as [|x l IH]; simpl; [reflexivity|].
  intros H. apply andb_prop in H as [Hx Hl].
  unfold Str.ceqb in Hx. apply N.eqb_eq in Hx. subst x.
  f_equal. auto.
Qed.

Lemma forallb_ceqb_repeat (c : Str.char) (n : nat) :
  forallb (Str.ceqb c) (repeat c n) = true.
Proof.
  induction n as [|n IH]; [reflexivity|].
  cbn [repeat forallb]. unfold Str.ceqb at 1. rewrite N.eqb_refl. exact IH.
Qed.

(** Membership in a table of the ten repeated sequences is the same as
    being one digit of ASCII repeated. *)
Lemma repeated_table (n : nat) (table : list str) (cleaned : str) :
  table = map (fun c => repeat c n)
              (map Str.chr [48; 49; 50; 51; 52; 53; 54; 55; 56; 57]%N) ->
  0 < n ->
  length cleaned = n ->
  str_in cleaned table = listed_repeated cleaned.
Proof.
  intros Ht Hn Hlen. unfold listed_repeated.
  destruct cleaned as [|c rest]; [simpl in Hlen; lia|].
  destruct (all_repeated (c :: rest) && Str.in_range 48 57 c) eqn:Hrep.
  - apply andb_prop in Hrep as [Hrep Hc]. simpl in Hrep.
    apply all_repeated_repeat in Hrep.
    apply ascii_digit_cases in Hc.
    unfold str_in. apply existsb_exists.
    exists (repeat c n). split.
    + rewrite Ht. apply (in_map (fun d => repeat d n)). exact Hc.
    + apply StrFacts.eqb_eq. simpl in Hlen. subst n. simpl. f_equal. exact Hrep.
  - apply not_true_is_false. intros Hin.
    unfold str_in in Hin. apply existsb_exists in Hin as [x [Hx Heq]].
    apply StrFacts.eqb_eq in Heq. subst x. rewrite Ht in Hx.
    apply in_map_iff in Hx as [d [Hd Hdin]].
    destruct n as [|n]; [lia|]. cbn [repeat] in Hd. injection Hd as -> Hrest.
    assert (Hall : all_repeated (c :: rest) = true).
    { cbn [all_repeated]. rewrite <- Hrest. apply forallb_ceqb_repeat. }
    assert (Hc : Str.in_range 48 57 c = true).
    { cbn [map In] in Hdin. unfold Str.chr in Hdin.
      repeat (destruct Hdin as [<-|Hdin]; [reflexivity|]). destruct Hdin. }
    rewrite Hall, Hc in Hrep. discriminate.
Qed.

(** With digits of ASCII only, the listed sequences are all the repeated
    ones. *)
Lemma listed_all_repeated (cleaned : str) :
  forallb (Str.in_range 48 57) cleaned = true ->
  listed_repeated cleaned = all_repeated cleaned.
Proof.
  unfold listed_repeated. destruct cleaned as [|c rest]; [reflexivity|].
  cbn [forallb]. intros H. apply andb_prop in H as [-> _]. apply andb_true_r.
Qed.

Lemma py_nth_ok (l : list Z) (i : nat) : i < length l -> py_nth l i = Ret (nth i l 0%Z).
Proof.
  intros H. unfold py_nth.
  destruct (nth_error l i) eqn:E.
  - f_equal. symmetry. apply nth_error_nth. exact E.
  - apply nth_error_None in E. lia.
Qed.

Lemma digits_of_length (c : str) : length (digits_of c) = length c.
Proof. unfold digits_of. apply length_map. Qed.

Lemma cpf_exact (s : str) :
  verdict (CPFValidator.validate s) = Some (code_cpf s).
Proof.
  unfold CPFValidator.validate, code_cpf, code_verdict, structure_accepted.
  change (9 + 2) with 11.
  pose proof (clean_decimal s) as Hdec.
  destruct (length (clean s) =? 11) eqn:Hlen; cbn [negb andb]; [|reflexivity].
  apply Nat.eqb_eq in Hlen.
  rewrite clean_isdigit by (intros E; rewrite E in Hlen; discriminate).
  cbn [negb].
  rewrite (@repeated_table 11 CPFValidator.INVALID_CPFS (clean s) eq_refl ltac:(lia) Hlen).
  destruct (listed_repeated (clean s)); cbn [negb]; [reflexivity|].
  rewrite (int_digits_ok _ Hdec). cbn [bind].
  rewrite !py_nth_ok by (rewrite digits_of_length; lia). cbn [bind].
  unfold check_digits_ok. rewrite !mod11_rule.
  rewrite (Z.eqb_sym (official_digit _) (nth 9 _ _)).
  destruct (nth 9 (digits_of (clean s)) 0 =? _)%Z; cbn [negb andb]; [|reflexivity].
  rewrite (Z.eqb_sym (official_digit _) (nth 10 _ _)).
  destruct (nth 10 (digits_of (clean s)) 0 =? _)%Z; reflexivity.
Qed.

Lemma cnpj_exact (s : str) :
  verdict (CNPJValidator.validate s) = Some (code_cnpj s).
Proof.
  unfold CNPJValidator.validate, code_cnpj, code_verdict, structure_accepted.
  change (12 + 2) with 14.
  pose proof (clean_decimal s) as Hdec.
  destruct (length (clean s) =? 14) eqn:Hlen; cbn [negb andb]; [|reflexivity].
  apply Nat.eqb_eq in Hlen.
  rewrite clean_isdigit by (intros E; rewrite E in Hlen; discriminate).
  cbn [negb].
  rewrite (@repeated_table 14 CNPJValidator.INVALID_CNPJS (clean s) eq_refl ltac:(lia) Hlen).
  destruct (listed_repeated (clean s)); cbn [negb]; [reflexivity|].
  rewrite (int_digits_ok _ Hdec). cbn [bind].
  rewrite !py_nth_ok by (rewrite digits_of_length; lia). cbn [bind].
  unfold check_digits_ok, official_digit.
  rewrite (Z.eqb_sym _ (nth 12 _ _)).
  destruct (nth 12 (digits_of (clean s)) 0 =? _)%Z; cbn [negb andb]; [|reflexivity].
  rewrite (Z.eqb_sym _ (nth 13 _ _)).
  destruct (nth 13 (digits_of (clean s)) 0 =? _)%Z; reflexivity.
Qed.

Lemma py_int_ok (s : str) :
  s <> [] -> forallb Str.is_decimal s = true -> exists z, py_int s = Ret z.
Proof.
  intros Hne Hd. unfold py_int. destruct s as [|c l]; [congruence|].
  rewrite Hd. eexists; reflexivity.
Qed.

Lemma forallb_skipn {A} (f : A -> bool) (n : nat) (l : list A) :
  forallb f l = true -> forallb f (skipn n l) = true.
Proof.
  revert l; induction n as [|n IH]; intros [|x l] H; simpl; auto.
  simpl in H. apply andb_prop in H as [_ H]. auto.
Qed.

Lemma forallb_firstn {A} (f : A -> bool) (n : nat) (l : list A) :
  forallb f l = true -> forallb f (firstn n l) = true.
Proof.
  revert l; induction n as [|n IH]; intros [|x l] H; simpl; auto.
  simpl in H. apply andb_prop in H as [Hx H]. rewrite Hx. simpl. auto.
Qed.

Lemma phone_digits_decimal (s : str) : forallb Str.is_decimal (phone_digits s) = true.
Proof.
  unfold phone_digits.
  destruct (Str.startswith (u "55") (clean s) && (11 <? length (clean s))).
  - apply forallb_skipn, clean_decimal.
  - apply clean_decimal.
Qed.

Lemma phone_total (s : str) : exists r, PhoneValidator.validate s = Ret r.
Proof.
  unfold PhoneValidator.validate. cbv zeta.
  change (if Str.startswith (u "55") (clean s) && (11 <? length (clean s))
          then skipn 2 (clean s) else clean s) with (phone_digits s).
  pose proof (phone_digits_decimal s) as Hd.
  set (c := phone_digits s) in *.
  destruct ((length c =? 10) || (length c =? 11)) eqn:Hlen; cbn [negb];
    [|eexists; reflexivity].
  assert (Hl : 10 <= length c).
  { apply orb_prop in Hlen as [H|H]; apply Nat.eqb_eq in H; lia. }
  destruct (@py_int_ok (firstn 2 c)) as [ddd Hddd].
  - destruct c as [|a [|b c']]; simpl in Hl; try lia. discriminate.
  - apply forallb_firstn, Hd.
  - rewrite Hddd. cbn [bind].
    destruct (negb (existsb (Z.eqb ddd) PhoneValidator.VALID_DDDS)); [eexists; reflexivity|].
    assert (Hidx : exists x, py_index c 2 = Ret x).
    { unfold py_index. destruct (nth_error c 2) eqn:E; [eexists; reflexivity|].
      apply nth_error_None in E. lia. }
    destruct Hidx as [x Hx]. rewrite Hx.
    destruct (length c =? 11); cbn [bind].
    + destruct (negb (Str.ceqb x (Str.chr 57))); [eexists; reflexivity|].
      destruct (distinct_chars (skipn 2 c) =? 1); eexists; reflexivity.
    + destruct (distinct_chars (skipn 2 c) =? 1); eexists; reflexivity.
Qed.

Lemma app_nonempty (a b : str) : a <> [] -> a ++ b <> [].
Proof. destruct a; [congruence|discriminate]. Qed.

Ltac nonempty_message :=
  cbn [message]; first [apply app_nonempty|idtac]; vm_compute; discriminate.

Ltac rejected_zero :=
  eexists; split; [reflexivity|];
  split; [reflexivity|]; split; [reflexivity|]; nonempty_message.

Lemma phone_wrong_length (s : str) :
  length (phone_digits s) <> 10 -> length (phone_digits s) <> 11 ->
  exists r, PhoneValidator.validate s = Ret r
            /\ is_valid r = false /\ confidence r = dec 0 /\ message r <> [].
Proof.
  intros H10 H11. unfold PhoneValidator.validate. cbv zeta.
  change (if Str.startswith (u "55") (clean s) && (11 <? length (clean s))
          then skipn 2 (clean s) else clean s) with (phone_digits s).
  apply Nat.eqb_neq in H10, H11. rewrite H10, H11. cbn [orb negb].
  rejected_zero.
Qed.

Lemma email_total (s : str) : exists r, EmailValidator.validate s = Ret r.
Proof.
  unfold EmailValidator.validate.
  destruct (Re.re_match _ _ _); [|eexists; reflexivity].
  destruct (split_last _ _) as [[local domain]|]; [|eexists; reflexivity].
  destruct (64 <? length local); [eexists; reflexivity|].
  destruct (255 <? length domain); [eexists; reflexivity|].
  destruct (length (last_part _ domain) <? 2); eexists; reflexivity.
Qed.

Lemma email_no_match (s : str) :
  Re.re_match false (Str.lower_str (Str.strip s)) EmailValidator.EMAIL_PATTERN = None ->
  exists r, EmailValidator.validate s = Ret r
            /\ is_valid r = false /\ confidence r = dec 0 /\ message r <> [].
Proof.
  intros H. unfold EmailValidator.validate. rewrite H.
  rejected_zero.
Qed.

(** The over-long parts of an address: rejected, with confidence 0.3. *)
Lemma email_too_long (s : str) (local domain : str) :
  Re.re_match false (Str.lower_str (Str.strip s)) EmailValidator.EMAIL_PATTERN <> None ->
  split_last (Str.chr 64) (Str.lower_str (Str.strip s)) = Some (local, domain) ->
  64 < length local \/ 255 < length domain ->
  exists r, EmailValidator.validate s = Ret r
            /\ is_valid r = false /\ confidence r = dec 30.
Proof.
  intros Hm Hs Hlong. unfold EmailValidator.validate.
  destruct (Re.re_match _ _ _); [|congruence].
  rewrite Hs.
  destruct (64 <? length local) eqn:E1; [eexists; repeat split; reflexivity|].
  destruct (255 <? length domain) eqn:E2; [eexists; repeat split; reflexivity|].
  apply Nat.ltb_ge in E1, E2. lia.
Qed.

Lemma cep_total (s : str) : exists r, CEPValidator.validate s = Ret r.
Proof.
  unfold CEPValidator.validate.
  pose proof (clean_decimal s) as Hd.
  destruct (length (clean s) =? 8) eqn:Hlen; cbn [negb]; [|eexists; reflexivity].
  apply Nat.eqb_eq in Hlen.
  destruct (negb (str_isdigit (clean s))); [eexists; reflexivity|].
  destruct (distinct_chars (clean s) =? 1); [eexists; reflexivity|].
  destruct (clean s) as [|c0 rest]; [discriminate|].
  cbn [py_index nth_error bind].
  simpl in Hd. apply andb_prop in Hd as [Hc _].
  rewrite (py_int_digit _ Hc). cbn [bind]. eexists; reflexivity.
Qed.

Lemma cep_wrong_length (s : str) :
  length (clean s) <> 8 ->
  exists r, CEPValidator.validate s = Ret r
            /\ is_valid r = false /\ confidence r = dec 0 /\ message r <> [].
Proof.
  intros H. unfold CEPValidator.validate.
  apply Nat.eqb_neq in H. rewrite H. cbn [negb].
  rejected_zero.
Qed.

Lemma cpf_wrong_length (s : str) :
  length (clean s) <> 11 ->
  exists r, CPFValidator.validate s = Ret r
            /\ is_valid r = false /\ confidence r = dec 0 /\ message r <> [].
Proof.
  intros H. unfold CPFValidator.validate.
  apply Nat.eqb_neq in H. rewrite H. cbn [negb].
  rejected_zero.
Qed.

Lemma cnpj_wrong_length (s : str) :
  length (clean s) <> 14 ->
  exists r, CNPJValidator.validate s = Ret r
            /\ is_valid r = false /\ confidence r = dec 0 /\ message r <> [].
Proof.
  intros H. unfold CNPJValidator.validate.
  apply Nat.eqb_neq in H. rewrite H. cbn [negb].
  rejected_zero.
Qed.

Lemma verdict_total (r : py ValidationResult) (v : bool * Q) :
  verdict r = Some v -> exists x, r = Ret x.
Proof. destruct r; [eexists; reflexivity|discriminate]. Qed.

Lemma code_verdict_valid (n : nat) (w1 w2 : list Z) (s : str) :
  fst (code_verdict n w1 w2 s) = true <->
  length (clean s) = n + 2 /\ listed_repeated (clean s) = false
  /\ check_digits_ok n w1 w2 (clean s) = true.
Proof.
  unfold code_verdict, structure_accepted.
  destruct (Nat.eqb_spec (length (clean s)) (n + 2)) as [E|E];
    destruct (listed_repeated (clean s)); destruct (check_digits_ok n w1 w2 (clean s));
    cbn; split; intros H; try discriminate H; try tauto;
    destruct H as (H1 & H2 & H3); congruence.
Qed.

Lemma code_verdict_confidence (n : nat) (w1 w2 : list Z) (s : str) :
  snd (code_verdict n w1 w2 s) =
  if fst (code_verdict n w1 w2 s) then dec 98
  else if structure_accepted n (clean s) then dec 30 else dec 0.
Proof.
  unfold code_verdict.
  destruct (structure_accepted n (clean s)); [|reflexivity].
  destruct (check_digits_ok n w1 w2 (clean s)); reflexivity.
Qed.

(** On digits of ASCII the code gives the verdict of the rule. *)
Lemma code_verdict_official (n : nat) (w1 w2 : list Z) (s : str) :
  ascii_digits s = true -> code_verdict n w1 w2 s = official_verdict n w1 w2 s.
Proof.
  intros H. unfold code_verdict, official_verdict, structure_accepted, structure_ok.
  rewrite (listed_all_repeated _ H). reflexivity.
Qed.


End ValidatorFacts.

Module C2.
Import Validators ValidatorFacts.



End C2.

Module C8.
Import Validators ValidatorFacts.

(** C8, as stated, fails: an address whose local part is too long (65
    characters, the limit is 64) is a failure of length, and the validator
    rejects it with confidence 0.3, not 0.0. *)
Lemma email_wrong_length_confidence :
  length (fst (match split_last (Str.chr 64) (repeat (Str.chr 97) 65 ++ u "@b.com") with
               | Some p => p | None => ([], []) end)) = 65
  /\ exists r, EmailValidator.validate (repeat (Str.chr 97) 65 ++ u "@b.com") = Ret r
               /\ is_valid r = false
               /\ confidence r = dec 30
               /\ ~ (confidence r == 0)%Q.
Proof.
  split; [vm_compute; reflexivity|].
  eexists. split; [vm_compute; reflexivity|].
  cbn. repeat split. intros H. vm_compute in H. discriminate H.
Qed.

(** C8, amended.  Every validator returns a result for every candidate and
    never raises.  A candidate with a wrong number of digits after cleaning
    (CPF 11, CNPJ 14, telephone 10 or 11 once a leading country code is
    dropped, CEP 8), or an address that does not match the address pattern,
    gets is_valid = false, confidence 0.0 and a non-empty message.  An
    address that matches the pattern but whose local part is longer than 64
    or whose domain is longer than 255 characters gets is_valid = false
    with confidence 0.3. *)
Theorem validators_total (s : str) :
  ((exists r, CPFValidator.validate s = Ret r)
   /\ (exists r, CNPJValidator.validate s = Ret r)
   /\ (exists r, PhoneValidator.validate s = Ret r)
   /\ (exists r, EmailValidator.validate s = Ret r)
   /\ (exists r, CEPValidator.validate s = Ret r))
  /\ (length (clean s) <> 11 ->
      exists r, CPFValidator.validate s = Ret r
                /\ is_valid r = false /\ confidence r = dec 0 /\ message r <> [])
  /\ (length (clean s) <> 14 ->
      exists r, CNPJValidator.validate s = Ret r
                /\ is_valid r = false /\ confidence r = dec 0 /\ message r <> [])
  /\ (length (phone_digits s) <> 10 -> length (phone_digits s) <> 11 ->
      exists r, PhoneValidator.validate s = Ret r
                /\ is_valid r = false /\ confidence r = dec 0 /\ message r <> [])
  /\ (length (clean s) <> 8 ->
      exists r, CEPValidator.validate s = Ret r
                /\ is_valid r = false /\ confidence r = dec 0 /\ message r <> [])
  /\ (Re.re_match false (Str.lower_str (Str.strip s)) EmailValidator.EMAIL_PATTERN = None ->
      exists r, EmailValidator.validate s = Ret r
                /\ is_valid r = false /\ confidence r = dec 0 /\ message r <> [])
  /\ (forall local domain,
      Re.re_match false (Str.lower_str (Str.strip s)) EmailValidator.EMAIL_PATTERN <> None ->
      split_last (Str.chr 64) (Str.lower_str (Str.strip s)) = Some (local, domain) ->
      64 < length local \/ 255 < length domain ->
      exists r, EmailValidator.validate s = Ret r
                /\ is_valid r = false /\ confidence r = dec 30).
Proof.
  split; [repeat split|repeat split].
  - exact (verdict_total _ (cpf_exact s)).
  - exact (verdict_total _ (cnpj_exact s)).
  - apply phone_total.
  - apply email_total.
  - apply cep_total.
  - apply cpf_wrong_length.
  - apply cnpj_wrong_length.
  - apply phone_wrong_length.
  - apply cep_wrong_length.
  - apply email_no_match.
  - intros local domain. apply email_too_long.
Qed.

(** The amended claim at work on the candidate ["12-34"]: too few digits
    for every numeric validator, and no address. *)
Lemma validators_total_witness :
  (exists r, CPFValidator.validate (u "12-34") = Ret r
             /\ is_valid r = false /\ confidence r = dec 0 /\ message r <> [])
  /\ (exists r, CNPJValidator.validate (u "12-34") = Ret r
             /\ is_valid r = false /\ confidence r = dec 0 /\ message r <> [])
  /\ (exists r, PhoneValidator.validate (u "12-34") = Ret r
             /\ is_valid r = false /\ confidence r = dec 0 /\ message r <> [])
  /\ (exists r, CEPValidator.validate (u "12-34") = Ret r
             /\ is_valid r = false /\ confidence r = dec 0 /\ message r <> [])
  /\ (exists r, EmailValidator.validate (u "12-34") = Ret r
             /\ is_valid r = false /\ confidence r = dec 0 /\ message r <> [])
  /\ (exists r, EmailValidator.validate (repeat (Str.chr 97) 65 ++ u "@b.com") = Ret r
             /\ is_valid r = false /\ confidence r = dec 30).
Proof.
  destruct (validators_total (repeat (Str.chr 97) 65 ++ u "@b.com")) as (_ & _ & _ & _ & _ & _ & H6).
  destruct (validators_total (u "12-34")) as (_ & H1 & H2 & H3 & H4 & H5 & _).
  split; [apply H1; vm_compute; discriminate|].
  split; [apply H2; vm_compute; discriminate|].
  split; [apply H3; vm_compute; discriminate|].
  split; [apply H4; vm_compute; discriminate|].
  split; [apply H5; vm_compute; reflexivity|].
  apply (H6 (repeat (Str.chr 97) 65) (u "b.com")).
  - vm_compute; discriminate.
  - vm_compute; reflexivity.
  - left. vm_compute. lia.
Defined.

End C8.

(* ================================================================== *)
(** ** The validation stage *)

Module ValidationFacts.
Import Detector.

(** The registered validators never raise. *)
Lemma validators_return (b : str) (v : str -> py Validators.ValidationResult) (s : str) :
  validators b = Some v -> exists r, v s = Ret r.
Proof.
  unfold validators. intros H.
  destruct (Str.eqb b (u "CPF")).
  { injection H as <-. exact (ValidatorFacts.verdict_total _ (ValidatorFacts.cpf_exact s)). }
  destruct (Str.eqb b (u "CNPJ")).
  { injection H as <-. exact (ValidatorFacts.verdict_total _ (ValidatorFacts.cnpj_exact s)). }
  destruct (Str.eqb b (u "TELEFONE")).
  { injection H as <-. apply ValidatorFacts.phone_total. }
  destruct (Str.eqb b (u "CELULAR")).
  { injection H as <-. apply ValidatorFacts.phone_total. }
  destruct (Str.eqb b (u "EMAIL")).
  { injection H as <-. apply ValidatorFacts.email_total. }
  destruct (Str.eqb b (u "CEP")).
  { injection H as <-. apply ValidatorFacts.cep_total. }
  discriminate.
Qed.

Lemma validate_one_returns (cfg : DetectionConfig) (e : Entity) :
  exists k, validate_one cfg e = Ret k.
Proof.
  unfold validate_one.
  destruct (validators (base_type_of (type e))) as [v|] eqn:Hv; [|eexists; reflexivity].
  destruct (@validators_return _ _ (value e) Hv) as [r Hr]. rewrite Hr. cbn [bind].
  destruct (Validators.is_valid r); [eexists; reflexivity|].
  destruct (is_cpf_or_cnpj _); [|eexists; reflexivity].
  destruct (is_strict _); eexists; reflexivity.
Qed.

Lemma validate_one_kept (cfg : DetectionConfig) (e : Entity) :
  validate_one cfg e = Ret (kept cfg e).
Proof.
  unfold kept. destruct (validate_one_returns cfg e) as [k Hk]. rewrite Hk. reflexivity.
Qed.

(** The stage returns, and what it returns is what each turn keeps, in
    order. *)
Lemma validate_consistency_kept (cfg : DetectionConfig) (es : list Entity) :
  _validate_consistency cfg es = Ret (flat_map (fun e => keep_list (kept cfg e)) es).
Proof.
  induction es as [|e es IH]; [reflexivity|].
  cbn [_validate_consistency flat_map]. rewrite validate_one_kept. cbn [bind].
  rewrite IH. cbn [bind]. destruct (kept cfg e); reflexivity.
Qed.

End ValidationFacts.

Module C3.
Import Detector ValidationFacts.

(** The telephone hit of the text "Número: 99999-8888" as it enters the
    validation stage. *)
Lemma phone_hit_enters :
  collect {| config := _get_config_for_mode BALANCED; bert_model := None |}
          (u "Número: 99999-8888")
  = [ mkEntity (u "TELEFONE") (u "99999-8888") 8 18 (dec 60) (u "regex")
               (u "Telefone sem DDD") ].
Proof. vm_compute. reflexivity. Qed.

(** C3, as stated, fails in its third case: a hit of a type other than CPF
    and CNPJ that its validator rejects is kept, but not unchanged: it
    leaves the stage marked invalid and carrying the validator's message. *)
Lemma invalid_phone_is_changed :
  let e := mkEntity (u "TELEFONE") (u "99999-8888") 8 18 (dec 60) (u "regex")
                    (u "Telefone sem DDD") in
  exists e',
    _validate_consistency (_get_config_for_mode BALANCED) [e] = Ret [e']
    /\ e' <> e
    /\ validation_status e = u "not_validated"
    /\ validation_status e' = u "invalid"
    /\ validation_message e' = u "Telefone deve ter 10 ou 11 dígitos, encontrado: 9".
Proof.
  eexists. split; [vm_compute; reflexivity|].
  split; [intros H; apply (f_equal validation_status) in H; vm_compute in H; discriminate H|].
  repeat split; vm_compute; reflexivity.
Qed.

(** C3, amended.  For an entity [e] with base type [b] (its type without
    "_CONTEXTUAL") the validation stage keeps or drops it as follows.
    With a validator for [b] whose result [r] is valid: kept, marked valid
    with the message of [r], confidence [max(confidence, r.confidence)],
    message appended to the explanation.  With [r] invalid and [b] CPF or
    CNPJ: in strict mode kept, marked invalid, confidence halved, a warning
    appended to the explanation; in balanced and precise mode dropped.
    With [r] invalid and any other [b]: kept with type, value, span,
    confidence, method and explanation as they were, and marked invalid
    with the message of [r].  Without a validator: kept, marked
    not_applicable, nothing else changed.  The stage returns what the turns
    keep, in order. *)
Theorem validation_stage (cfg : DetectionConfig) (e : Entity) :
  let b := base_type_of (type e) in
  (forall v r, validators b = Some v -> v (value e) = Ret r ->
     Validators.is_valid r = true ->
     validate_one cfg e =
     Ret (Some {| type := type e; value := value e; start := start e; end_ := end_ e;
                  confidence := Qmax (confidence e) (Validators.confidence r);
                  validation_status := u "valid";
                  validation_message := Validators.message r;
                  detection_method := detection_method e;
                  explanation := explanation e ++ u " | Validação: " ++ Validators.message r |}))
  /\ (forall v r, validators b = Some v -> v (value e) = Ret r ->
     Validators.is_valid r = false -> is_cpf_or_cnpj b = true -> mode cfg = STRICT ->
     validate_one cfg e =
     Ret (Some {| type := type e; value := value e; start := start e; end_ := end_ e;
                  confidence := (confidence e * (1 # 2))%Q;
                  validation_status := u "invalid";
                  validation_message := Validators.message r;
                  detection_method := detection_method e;
                  explanation := explanation e ++ u " | AVISO: " ++ Validators.message r |}))
  /\ (forall v r, validators b = Some v -> v (value e) = Ret r ->
     Validators.is_valid r = false -> is_cpf_or_cnpj b = true -> mode cfg <> STRICT ->
     validate_one cfg e = Ret None)
  /\ (forall v r, validators b = Some v -> v (value e) = Ret r ->
     Validators.is_valid r = false -> is_cpf_or_cnpj b = false ->
     validate_one cfg e =
     Ret (Some {| type := type e; value := value e; start := start e; end_ := end_ e;
                  confidence := confidence e;
                  validation_status := u "invalid";
                  validation_message := Validators.message r;
                  detection_method := detection_method e;
                  explanation := explanation e |}))
  /\ (validators b = None ->
     validate_one cfg e =
     Ret (Some {| type := type e; value := value e; start := start e; end_ := end_ e;
                  confidence := confidence e;
                  validation_status := u "not_applicable";
                  validation_message := validation_message e;
                  detection_method := detection_method e;
                  explanation := explanation e |}))
  /\ (forall rest,
     _validate_consistency cfg (e :: rest) =
     Ret (keep_list (kept cfg e) ++ flat_map (fun x => keep_list (kept cfg x)) rest)).
Proof.
  intros b. subst b.
  split; [|split; [|split; [|split; [|split]]]].
  - intros v r Hv Hr Hval. unfold validate_one. rewrite Hv, Hr. cbn [bind].
    rewrite Hval. reflexivity.
  - intros v r Hv Hr Hval Hid Hm. unfold validate_one. rewrite Hv, Hr. cbn [bind].
    rewrite Hval, Hid, Hm. reflexivity.
  - intros v r Hv Hr Hval Hid Hm. unfold validate_one. rewrite Hv, Hr. cbn [bind].
    rewrite Hval, Hid. destruct (mode cfg); try reflexivity. congruence.
  - intros v r Hv Hr Hval Hid. unfold validate_one. rewrite Hv, Hr. cbn [bind].
    rewrite Hval, Hid. reflexivity.
  - intros Hv. unfold validate_one. rewrite Hv. reflexivity.
  - intros rest. rewrite validate_consistency_kept. reflexivity.
Qed.

(** The amended claim on three entities: a valid CPF in balanced mode, a
    CPF of one repeated digit in strict and in precise mode, a short
    telephone number, and a name. *)
Lemma validation_stage_witness :
  (exists e', validate_one (_get_config_for_mode BALANCED)
                (mkEntity (u "CPF_CONTEXTUAL") (u "529.982.247-25") 5 19 (dec 85)
                          (u "anti_fn") (u "x")) = Ret (Some e')
              /\ confidence e' = Qmax (dec 85) (dec 98)
              /\ validation_status e' = u "valid")
  /\ (exists e', validate_one (_get_config_for_mode STRICT)
                (mkEntity (u "CPF") (u "111.111.111-11") 5 19 (dec 90)
                          (u "regex") (u "x")) = Ret (Some e')
              /\ confidence e' = (dec 90 * (1 # 2))%Q)
  /\ validate_one (_get_config_for_mode PRECISE)
                (mkEntity (u "CPF") (u "111.111.111-11") 5 19 (dec 90)
                          (u "regex") (u "x")) = Ret None
  /\ (exists e', validate_one (_get_config_for_mode PRECISE)
                (mkEntity (u "TELEFONE") (u "99999-8888") 8 18 (dec 60)
                          (u "regex") (u "x")) = Ret (Some e')
              /\ confidence e' = dec 60 /\ explanation e' = u "x"
              /\ validation_status e' = u "invalid")
  /\ (exists e', validate_one (_get_config_for_mode PRECISE)
                (mkEntity (u "NOME_PESSOA") (u "Ana Lima") 4 12 (dec 75)
                          (u "anti_fn") (u "x")) = Ret (Some e')
              /\ validation_status e' = u "not_applicable").
Proof.
  pose (answer := fun (v : str -> py Validators.ValidationResult) (s : str) =>
                    match v s with
                    | Ret r => r
                    | Raise _ => {| Validators.is_valid := false; Validators.confidence := dec 0;
                                    Validators.message := []; Validators.cleaned_value := None |}
                    end).
  split; [|split; [|split; [|split]]].
  - eexists. split.
    + apply (proj1 (validation_stage (_get_config_for_mode BALANCED)
                      (mkEntity (u "CPF_CONTEXTUAL") (u "529.982.247-25") 5 19 (dec 85)
                                (u "anti_fn") (u "x")))
                   Validators.CPFValidator.validate
                   (answer Validators.CPFValidator.validate (u "529.982.247-25")));
        [reflexivity | vm_compute; reflexivity | vm_compute; reflexivity].
    + split; vm_compute; reflexivity.
  - eexists. split.
    + apply (proj1 (proj2 (validation_stage (_get_config_for_mode STRICT)
                      (mkEntity (u "CPF") (u "111.111.111-11") 5 19 (dec 90)
                                (u "regex") (u "x"))))
                   Validators.CPFValidator.validate
                   (answer Validators.CPFValidator.validate (u "111.111.111-11")));
        [reflexivity | vm_compute; reflexivity | vm_compute; reflexivity
        | vm_compute; reflexivity | reflexivity].
    + vm_compute. reflexivity.
  - apply (proj1 (proj2 (proj2 (validation_stage (_get_config_for_mode PRECISE)
                      (mkEntity (u "CPF") (u "111.111.111-11") 5 19 (dec 90)
                                (u "regex") (u "x")))))
                 Validators.CPFValidator.validate
                 (answer Validators.CPFValidator.validate (u "111.111.111-11")));
      [reflexivity | vm_compute; reflexivity | vm_compute; reflexivity
      | vm_compute; reflexivity | discriminate].
  - eexists. split.
    + apply (proj1 (proj2 (proj2 (proj2 (validation_stage (_get_config_for_mode PRECISE)
                      (mkEntity (u "TELEFONE") (u "99999-8888") 8 18 (dec 60)
                                (u "regex") (u "x"))))))
                   Validators.PhoneValidator.validate
                   (answer Validators.PhoneValidator.validate (u "99999-8888")));
        [reflexivity | vm_compute; reflexivity | vm_compute; reflexivity
        | vm_compute; reflexivity].
    + repeat split; vm_compute; reflexivity.
  - eexists. split.
    + apply (proj1 (proj2 (proj2 (proj2 (proj2 (validation_stage (_get_config_for_mode PRECISE)
                      (mkEntity (u "NOME_PESSOA") (u "Ana Lima") 4 12 (dec 75)
                                (u "anti_fn") (u "x")))))))).
      vm_compute. reflexivity.
    + vm_compute. reflexivity.
Defined.

End C3.

Unset Implicit Arguments.

(* ================================================================== *)
(** ** The fusion *)

Module MergeFacts.
Import Detector.

Lemma absorb_none (b : Entity) (regs : list Entity) :
  absorb b regs = None <-> overlaps_any b regs = false.
Proof.
  unfold overlaps_any. induction regs as [|r regs IH]; simpl; [tauto|].
  destruct (_has_overlap b r); simpl; [split; discriminate|].
  destruct (absorb b regs); split; intros H; try discriminate H;
    try (apply IH in H; discriminate H); try (apply IH; reflexivity); reflexivity.
Qed.

Lemma absorb_first (b : Entity) (pre : list Entity) (r : Entity) (post : list Entity) :
  overlaps_any b pre = false -> _has_overlap b r = true ->
  absorb b (pre ++ r :: post) = Some (pre ++ raised b r :: post).
Proof.
  unfold overlaps_any. induction pre as [|x pre IH]; simpl; intros Hpre Hr.
  - rewrite Hr. reflexivity.
  - apply orb_false_elim in Hpre as [Hx Hpre]. rewrite Hx.
    rewrite (IH Hpre Hr). reflexivity.
Qed.

(** A hit that overlaps has a first overlapping pattern hit. *)
Lemma first_overlap (b : Entity) (regs : list Entity) :
  overlaps_any b regs = true ->
  exists pre r post, regs = pre ++ r :: post
                     /\ overlaps_any b pre = false /\ _has_overlap b r = true.
Proof.
  unfold overlaps_any. induction regs as [|x regs IH]; simpl; [discriminate|].
  destruct (_has_overlap b x) eqn:Hx; simpl.
  - intros _. exists [], x, regs. auto.
  - intros H. destruct (IH H) as (pre & r & post & -> & Hpre & Hr).
    exists (x :: pre), r, post. simpl. rewrite Hx. auto.
Qed.

Lemma raised_core (b r : Entity) : core (raised b r) = core r.
Proof. unfold raised. destruct (negb _); reflexivity. Qed.

Lemma overlap_core (b r r' : Entity) :
  core r = core r' -> _has_overlap b r = _has_overlap b r'.
Proof.
  unfold core, _has_overlap. intros H. injection H as _ _ Hs He. rewrite Hs, He. reflexivity.
Qed.

Lemma overlaps_any_core (b : Entity) (l l' : list Entity) :
  map core l = map core l' -> overlaps_any b l = overlaps_any b l'.
Proof.
  unfold overlaps_any. revert l'. induction l as [|x l IH]; intros [|y l'] H;
    try discriminate H; [reflexivity|].
  simpl in H.
  assert (Hxy : core x = core y) by congruence.
  assert (Hl : map core l = map core l') by congruence.
  simpl. rewrite (overlap_core b _ _ Hxy), (IH _ Hl). reflexivity.
Qed.

Lemma absorb_core (b : Entity) (regs regs' : list Entity) :
  absorb b regs = Some regs' -> map core regs' = map core regs.
Proof.
  intros H.
  destruct (overlaps_any b regs) eqn:Ho.
  - destruct (first_overlap _ _ Ho) as (pre & r & post & -> & Hpre & Hr).
    rewrite (absorb_first _ _ _ _ Hpre Hr) in H. injection H as <-.
    rewrite !map_app. simpl. rewrite raised_core. reflexivity.
  - apply absorb_none in Ho. congruence.
Qed.

Lemma lifted_more (b : Entity) (berts : list Entity) (r r' : Entity) :
  lifted berts r r' -> lifted (b :: berts) r r'.
Proof.
  intros [H|(H1 & H2 & H3 & H4 & H5 & x & Hx & H)]; [left; exact H|].
  right. repeat (split; [assumption|]). exists x. split; [right; exact Hx|exact H].
Qed.

Lemma Qle_bool_false (a b : Q) : Qle_bool a b = false -> ~ (a <= b)%Q.
Proof. intros H Hle. apply Qle_bool_iff in Hle. congruence. Qed.

Lemma Qle_lt_trans' (a b c : Q) : ~ (b <= a)%Q -> ~ (c <= b)%Q -> ~ (c <= a)%Q.
Proof.
  intros H1 H2 H3. apply Qnot_le_lt in H1, H2.
  apply (Qlt_irrefl a). apply (Qlt_le_trans _ b); [exact H1|].
  apply Qlt_le_weak. apply (Qlt_le_trans _ c); assumption.
Qed.

(** One model hit met after others: the pattern hit stays lifted. *)
Lemma lifted_step (b : Entity) (berts : list Entity) (r0 r : Entity) :
  lifted berts r0 r -> _has_overlap b r = true -> lifted (berts ++ [b]) r0 (raised b r).
Proof.
  intros Hl Hov. unfold raised.
  destruct (Qle_bool (confidence b) (confidence r)) eqn:Hc; cbn [negb].
  - destruct Hl as [H|(H1 & H2 & H3 & H4 & H5 & x & Hx & H)]; [left; exact H|].
    right. repeat (split; [assumption|]). exists x. split; [apply in_or_app; left; exact Hx|exact H].
  - apply Qle_bool_false in Hc. right.
    assert (Hcore : core r = core r0).
    { destruct Hl as [->|(_ & H & _)]; [reflexivity|exact H]. }
    split; [reflexivity|]. split; [exact Hcore|].
    split; [destruct Hl as [->|(_ & _ & H & _)]; [reflexivity|exact H]|].
    split; [destruct Hl as [->|(_ & _ & _ & H & _)]; [reflexivity|exact H]|].
    split; [destruct Hl as [->|(_ & _ & _ & _ & H & _)]; [reflexivity|exact H]|].
    exists b. split; [apply in_or_app; right; left; reflexivity|].
    split; [rewrite <- (overlap_core b _ _ Hcore); exact Hov|].
    split; [reflexivity|].
    destruct Hl as [->|(_ & _ & _ & _ & _ & x & _ & _ & Hx & Hlt)]; [exact Hc|].
    rewrite Hx in Hc. exact (Qle_lt_trans' _ _ _ Hlt Hc).
Qed.

Lemma lifted_weaken (berts berts' : list Entity) (r r' : Entity) :
  incl berts berts' -> lifted berts r r' -> lifted berts' r r'.
Proof.
  intros Hi [H|(H1 & H2 & H3 & H4 & H5 & x & Hx & H)]; [left; exact H|].
  right. repeat (split; [assumption|]). exists x. split; [apply Hi; exact Hx|exact H].
Qed.

(** The loop, with the model hits [seen] before it and [berts] ahead:
    the pattern hits keep their place and core and are lifted at most; the
    appended hits are the ones that overlap no pattern hit, in order. *)
Lemma merge_loop_spec (berts : list Entity) :
  forall (regs0 regs appended seen : list Entity),
    Forall2 (lifted seen) regs0 regs ->
    let '(regs', appended') := merge_loop berts regs appended in
    Forall2 (lifted (seen ++ berts)) regs0 regs'
    /\ appended' = appended ++ filter (fun b => negb (overlaps_any b regs0)) berts.
Proof.
  induction berts as [|b berts IH]; intros regs0 regs appended seen Hl.
  - simpl. rewrite !app_nil_r. split; [exact Hl|reflexivity].
  - assert (Hcore : map core regs = map core regs0).
    { clear - Hl. induction Hl as [|x y l l' [->|(_ & H & _)] _ IHl]; simpl; congruence. }
    cbn [merge_loop filter].
    rewrite <- (overlaps_any_core b _ _ Hcore).
    destruct (overlaps_any b regs) eqn:Ho.
    + destruct (first_overlap _ _ Ho) as (pre & r & post & -> & Hpre & Hr).
      rewrite (absorb_first _ _ _ _ Hpre Hr). cbn [negb].
      assert (Hl' : Forall2 (lifted (seen ++ [b])) regs0 (pre ++ raised b r :: post)).
      { apply Forall2_app_inv_r in Hl as (p0 & q0 & Hp & Hq & ->).
        inversion Hq as [|r0 ? post0 ? Hr0 Hpost]; subst.
        apply Forall2_app.
        - eapply Forall2_impl; [|exact Hp]. intros x y. apply lifted_weaken.
          intros z Hz. apply in_or_app. left. exact Hz.
        - constructor.
          + apply lifted_step; assumption.
          + eapply Forall2_impl; [|exact Hpost]. intros x y. apply lifted_weaken.
            intros z Hz. apply in_or_app. left. exact Hz. }
      specialize (IH regs0 _ appended _ Hl').
      destruct (merge_loop berts (pre ++ raised b r :: post) appended) as [regs' appended'].
      rewrite <- app_assoc in IH. exact IH.
    + apply absorb_none in Ho. rewrite Ho. cbn [negb].
      assert (Hl' : Forall2 (lifted (seen ++ [b])) regs0 regs).
      { eapply Forall2_impl; [|exact Hl]. intros x y. apply lifted_weaken.
        intros z Hz. apply in_or_app. left. exact Hz. }
      specialize (IH regs0 _ (appended ++ [b]) _ Hl').
      destruct (merge_loop berts regs (appended ++ [b])) as [regs' appended'].
      rewrite <- !app_assoc in IH. exact IH.
Qed.

Lemma Forall2_refl_lifted (regs : list Entity) : Forall2 (lifted []) regs regs.
Proof. induction regs; constructor; [left; reflexivity|assumption]. Qed.


(** The merged list: the pattern hits, lifted at most, then the model hits
    that overlap no pattern hit. *)
Lemma merge_shape (regs berts : list Entity) :
  exists regs',
    _merge_detections regs berts
    = regs' ++ filter (fun b => negb (overlaps_any b regs)) berts
    /\ Forall2 (lifted berts) regs regs'.
Proof.
  pose proof (merge_loop_spec berts regs regs [] [] (Forall2_refl_lifted regs)) as H.
  unfold _merge_detections.
  destruct (merge_loop berts regs []) as [regs' appended'].
  destruct H as [Hl Ha]. simpl in Hl, Ha. subst appended'.
  exists regs'. split; [reflexivity|exact Hl].
Qed.

End MergeFacts.

Module C5.
Import Detector MergeFacts.



End C5.

(* ================================================================== *)
(** ** Thresholds and modes *)

Module ThresholdFacts.
Import Detector ValidationFacts.

Lemma dict_get_mono (d d' : dict) (key : str) (def def' : Q) :
  Forall2 (fun kv kv' => fst kv = fst kv' /\ (snd kv <= snd kv')%Q) d d' ->
  (def <= def')%Q ->
  (dict_get d key def <= dict_get d' key def')%Q.
Proof.
  intros H Hdef. induction H as [|[k v] [k' v'] d d' [Hk Hv] _ IH]; simpl; [exact Hdef|].
  simpl in Hk, Hv. subst k'. destruct (Str.eqb k key); assumption.
Qed.

(** Two threshold tables with the same keys in the same order, the second
    nowhere below the first: no type gets a lower threshold. *)
Lemma threshold_for_mono (old new : DetectionConfig) :
  Forall2 (fun kv kv' => fst kv = fst kv' /\ (snd kv <= snd kv')%Q)
          (thresholds old) (thresholds new) ->
  forall b, (threshold_for old b <= threshold_for new b)%Q.
Proof.
  intros H b. unfold threshold_for.
  apply dict_get_mono; [exact H|].
  apply dict_get_mono; [exact H|apply Qle_refl].
Qed.

Lemma passes_mono (old new : DetectionConfig) (e : Entity) :
  (forall b, (threshold_for old b <= threshold_for new b)%Q) ->
  passes new e = true -> passes old e = true.
Proof.
  unfold passes. intros H Hp. apply Qle_bool_iff in Hp. apply Qle_bool_iff.
  eapply Qle_trans; [apply H|exact Hp].
Qed.

Lemma filter_filter_mono {A} (p q : A -> bool) (l : list A) :
  (forall x, q x = true -> p x = true) ->
  filter q l = filter q (filter p l).
Proof.
  intros H. induction l as [|x l IH]; [reflexivity|].
  simpl. destruct (q x) eqn:Hq.
  - rewrite (H x Hq). simpl. rewrite Hq. f_equal. exact IH.
  - destruct (p x); simpl; [rewrite Hq|]; exact IH.
Qed.

Lemma filter_length_le {A} (q : A -> bool) (l : list A) : length (filter q l) <= length l.
Proof.
  induction l as [|x l IH]; simpl; [lia|]. destruct (q x); simpl; lia.
Qed.

Lemma strict_below_precise (b : str) :
  (threshold_for (_get_config_for_mode STRICT) b
   <= threshold_for (_get_config_for_mode PRECISE) b)%Q.
Proof.
  apply threshold_for_mono.
  repeat (constructor; [split; [reflexivity|vm_compute; discriminate]|]).
  constructor.
Qed.

(** What precise mode keeps in the validation stage, strict mode keeps
    too, and keeps the same. *)
Lemma kept_precise_strict (e e' : Entity) :
  kept (_get_config_for_mode PRECISE) e = Some e' ->
  kept (_get_config_for_mode STRICT) e = Some e'.
Proof.
  unfold kept, validate_one.
  destruct (validators (base_type_of (type e))) as [v|] eqn:Hv; [|trivial].
  destruct (@validators_return _ _ (value e) Hv) as [r Hr]. rewrite Hr. cbn [bind].
  destruct (Validators.is_valid r); [trivial|].
  destruct (is_cpf_or_cnpj _); [|trivial].
  cbn. discriminate.
Qed.

Lemma survivors_precise_strict (l : list Entity) :
  length (_apply_thresholds (_get_config_for_mode PRECISE)
            (flat_map (fun e => keep_list (kept (_get_config_for_mode PRECISE) e)) l))
  <= length (_apply_thresholds (_get_config_for_mode STRICT)
            (flat_map (fun e => keep_list (kept (_get_config_for_mode STRICT) e)) l)).
Proof.
  unfold _apply_thresholds.
  induction l as [|e l IH]; [simpl; lia|].
  cbn [flat_map]. rewrite !filter_app, !length_app.
  apply Nat.add_le_mono; [|exact IH].
  destruct (kept (_get_config_for_mode PRECISE) e) as [e'|] eqn:Hk; [|simpl; lia].
  rewrite (kept_precise_strict _ _ Hk). cbn [keep_list filter].
  destruct (passes (_get_config_for_mode PRECISE) e') eqn:Hp; [|simpl; lia].
  rewrite (passes_mono (_get_config_for_mode STRICT) (_get_config_for_mode PRECISE) e'
             strict_below_precise Hp).
  simpl. lia.
Qed.

End ThresholdFacts.

Module C6.
Import Detector ThresholdFacts.

(** C6.  For one list of entities entering the threshold stage and two
    configurations of which the second gives no base type a lower threshold
    than the first (the DEFAULT fallback included, since the threshold of a
    type is looked up with that fallback): every survivor under the second
    is a survivor under the first, the survivors under the second are the
    survivors under the first filtered once more, and they are no more in
    number. *)
Theorem threshold_monotone (old new : DetectionConfig) (es : list Entity) :
  (forall b, (threshold_for old b <= threshold_for new b)%Q) ->
  (forall e, In e (_apply_thresholds new es) -> In e (_apply_thresholds old es))
  /\ _apply_thresholds new es = _apply_thresholds new (_apply_thresholds old es)
  /\ length (_apply_thresholds new es) <= length (_apply_thresholds old es).
Proof.
  intros H.
  assert (Hf : _apply_thresholds new es = _apply_thresholds new (_apply_thresholds old es)).
  { unfold _apply_thresholds. apply filter_filter_mono.
    intros e. apply passes_mono. exact H. }
  split; [|split; [exact Hf|]].
  - intros e He. unfold _apply_thresholds in *.
    apply filter_In in He as [Hin Hp]. apply filter_In. split; [exact Hin|].
    exact (passes_mono old new e H Hp).
  - rewrite Hf. unfold _apply_thresholds at 1. apply filter_length_le.
Qed.

(** From the strict to the precise thresholds, on a telephone hit of
    confidence 0.60 and an e-mail hit of confidence 0.95. *)
Lemma threshold_monotone_witness :
  let es := [ mkEntity (u "TELEFONE") (u "99999-8888") 8 18 (dec 60) (u "regex") [];
              mkEntity (u "EMAIL") (u "a@b.com") 20 27 (dec 95) (u "regex") [] ] in
  length (_apply_thresholds (_get_config_for_mode PRECISE) es)
  <= length (_apply_thresholds (_get_config_for_mode STRICT) es)
  /\ length (_apply_thresholds (_get_config_for_mode PRECISE) es) = 1
  /\ length (_apply_thresholds (_get_config_for_mode STRICT) es) = 2.
Proof.
  intros es. split; [|split; reflexivity].
  apply (threshold_monotone (_get_config_for_mode STRICT) (_get_config_for_mode PRECISE) es).
  apply threshold_for_mono.
  repeat (constructor; [split; [reflexivity|vm_compute; discriminate]|]).
  constructor.
Defined.

End C6.

Module C7.
Import Detector ValidationFacts ThresholdFacts.

(** C7.  For every text, and whatever the model answers (the same to both
    detectors), the detector with the strict preset and the one with the
    precise preset both return, and the strict one returns at least as many
    entities.  On "Número: 99999-8888", without a model, strict returns one
    entity and precise none. *)
Theorem strict_finds_no_fewer :
  (forall (text : str) (model : option (str -> list Entity)),
     exists rs rp,
       detect {| config := _get_config_for_mode STRICT; bert_model := model |} text = Ret rs
       /\ detect {| config := _get_config_for_mode PRECISE; bert_model := model |} text = Ret rp
       /\ length (entities rp) <= length (entities rs))
  /\ (exists rs rp,
       detect {| config := _get_config_for_mode STRICT; bert_model := None |}
              (u "Número: 99999-8888") = Ret rs
       /\ detect {| config := _get_config_for_mode PRECISE; bert_model := None |}
              (u "Número: 99999-8888") = Ret rp
       /\ length (entities rs) = 1 /\ length (entities rp) = 0).
Proof.
  split.
  - intros text model. unfold detect.
    destruct (Str.eqb text [] || Str.eqb (Str.strip text) []).
    + eexists. eexists. split; [reflexivity|]. split; [reflexivity|]. simpl. lia.
    + change (collect {| config := _get_config_for_mode PRECISE; bert_model := model |} text)
        with (collect {| config := _get_config_for_mode STRICT; bert_model := model |} text).
      set (merged := collect _ text).
      cbn [config validate_documents _get_config_for_mode].
      rewrite !validate_consistency_kept. cbn [bind].
      eexists. eexists. split; [reflexivity|]. split; [reflexivity|].
      cbn [entities]. apply survivors_precise_strict.
  - eexists. eexists. split; [vm_compute; reflexivity|]. split; [vm_compute; reflexivity|].
    split; reflexivity.
Qed.

End C7.

Module C10.
Import Detector ValidationFacts.

Lemma validate_one_mode (c1 c2 : DetectionConfig) (e : Entity) :
  mode c1 = mode c2 -> validate_one c1 e = validate_one c2 e.
Proof. intros H. unfold validate_one. rewrite H. reflexivity. Qed.

Lemma validate_consistency_mode (c1 c2 : DetectionConfig) (es : list Entity) :
  mode c1 = mode c2 -> _validate_consistency c1 es = _validate_consistency c2 es.
Proof.
  intros H. induction es as [|e es IH]; [reflexivity|].
  cbn [_validate_consistency]. rewrite (validate_one_mode c1 c2 e H), IH. reflexivity.
Qed.

Lemma apply_thresholds_table (c1 c2 : DetectionConfig) (es : list Entity) :
  thresholds c1 = thresholds c2 -> _apply_thresholds c1 es = _apply_thresholds c2 es.
Proof.
  intros H. unfold _apply_thresholds. apply filter_ext. intros e.
  unfold passes, threshold_for. rewrite H. reflexivity.
Qed.

(** C10.  Two detectors with the same model whose configurations agree on
    everything but [min_confidence] return the same result for every text:
    the same entities in the same order, the same summary, the same
    [has_pii] (the elapsed time, which the model leaves out, apart).  The
    field is read nowhere in the pipeline; which entities survive is
    settled by the thresholds table. *)
Theorem min_confidence_unused (c1 c2 : DetectionConfig)
        (model : option (str -> list Entity)) (text : str) :
  mode c1 = mode c2 ->
  use_bert c1 = use_bert c2 ->
  use_contextual c1 = use_contextual c2 ->
  validate_documents c1 = validate_documents c2 ->
  thresholds c1 = thresholds c2 ->
  detect {| config := c1; bert_model := model |} text
  = detect {| config := c2; bert_model := model |} text.
Proof.
  intros Hm Hb Hc Hv Ht. unfold detect, collect. cbn [config bert_model].
  rewrite Hm, Hb, Hc, Hv.
  destruct (Str.eqb text [] || Str.eqb (Str.strip text) []); [reflexivity|].
  set (merged := if use_contextual c2 then _ else _).
  rewrite (validate_consistency_mode c1 c2 merged Hm).
  destruct (if validate_documents c2 then _validate_consistency c2 merged else Ret merged)
    as [validated|x]; [|reflexivity].
  cbn [bind]. rewrite (apply_thresholds_table c1 c2 validated Ht). reflexivity.
Qed.

(** The balanced preset with [min_confidence] 0.5 and with 0.99, on a
    text with a telephone number. *)
Lemma min_confidence_unused_witness :
  let c1 := _get_config_for_mode BALANCED in
  let c2 := {| mode := BALANCED; use_bert := true; use_contextual := true;
               validate_documents := true; min_confidence := dec 99;
               thresholds := default_thresholds |} in
  min_confidence c1 <> min_confidence c2
  /\ detect {| config := c1; bert_model := None |} (u "(61) 99999-8888")
     = detect {| config := c2; bert_model := None |} (u "(61) 99999-8888").
Proof.
  intros c1 c2. split; [discriminate|].
  apply (min_confidence_unused c1 c2 None (u "(61) 99999-8888")); reflexivity.
Defined.

End C10.

(* ================================================================== *)
(** ** The aggressive expressions *)

Module AggressiveFacts.
Import Detector.

Lemma aggressive_step_spec (text : str) (lo hi : nat) (t : string) (c : Q) (expl : string)
      (entities : list Entity) (mo : Re.mobj) :
  aggressive_step text lo hi t c expl entities mo =
  if (lo <=? Str.count_digits (Re.group0 text mo))
     && (Str.count_digits (Re.group0 text mo) <=? hi)
     && negb (has_value entities (Re.group0 text mo))
  then entities ++ [ mkEntity (u t) (Re.group0 text mo)
                              (Z.of_nat (Re.m_start mo)) (Z.of_nat (Re.m_end mo))
                              c (u "regex_aggressive") (u expl) ]
  else entities.
Proof.
  unfold aggressive_step, has_value.
  destruct (existsb _ entities); cbn [negb]; [rewrite andb_false_r; reflexivity|].
  rewrite andb_true_r. reflexivity.
Qed.

Lemma fold_step_grows (P : Entity -> Prop) (step : list Entity -> Re.mobj -> list Entity)
      (hits : list Re.mobj) :
  (forall es mo, step es mo = es \/ exists e, step es mo = es ++ [e] /\ P e) ->
  forall es, exists added, fold_left step hits es = es ++ added /\ Forall P added.
Proof.
  intros Hstep. induction hits as [|mo hits IH]; intros es.
  - exists []. rewrite app_nil_r. split; [reflexivity|constructor].
  - cbn [fold_left]. destruct (Hstep es mo) as [->|(e & -> & He)].
    + apply IH.
    + destruct (IH (es ++ [e])) as (added & -> & Ha).
      exists (e :: added). rewrite <- app_assoc. split; [reflexivity|].
      constructor; assumption.
Qed.

Lemma has_value_seen (es : list Entity) (v : str) :
  has_value es v = existsb (fun s => Str.eqb s v) (map value es).
Proof.
  unfold has_value. induction es as [|e es IH]; [reflexivity|].
  cbn [existsb map]. rewrite IH. reflexivity.
Qed.

(** A loop of the first phase adds what the specification's words add. *)
Lemma fold_aggressive (text : str) (lo hi : nat) (t : string) (c : Q) (expl : string)
      (hits : list Re.mobj) :
  forall es,
    fold_left (aggressive_step text lo hi t c expl) hits es
    = es ++ aggressive_added text lo hi t c expl (map value es) hits.
Proof.
  induction hits as [|mo hits IH]; intros es; cbn [fold_left aggressive_added].
  - rewrite app_nil_r. reflexivity.
  - rewrite aggressive_step_spec, has_value_seen. cbv zeta.
    destruct (_ && _).
    + rewrite IH, map_app, <- app_assoc. reflexivity.
    + apply IH.
Qed.

(** The turn for one hit, after the hits before it. *)
Lemma fold_aggressive_turn (text : str) (lo hi : nat) (t : string) (c : Q) (expl : string)
      (pre : list Re.mobj) (mo : Re.mobj) (es : list Entity) :
  fold_left (aggressive_step text lo hi t c expl) (pre ++ [mo]) es
  = let before := es ++ aggressive_added text lo hi t c expl (map value es) pre in
    if (lo <=? Str.count_digits (Re.group0 text mo))
       && (Str.count_digits (Re.group0 text mo) <=? hi)
       && negb (has_value before (Re.group0 text mo))
    then before ++ [ mkEntity (u t) (Re.group0 text mo)
                              (Z.of_nat (Re.m_start mo)) (Z.of_nat (Re.m_end mo))
                              c (u "regex_aggressive") (u expl) ]
    else before.
Proof.
  rewrite fold_left_app. cbn [fold_left].
  rewrite fold_aggressive, aggressive_step_spec. reflexivity.
Qed.

Lemma added_all (P : Entity -> Prop) (text : str) (lo hi : nat) (t : string) (c : Q)
      (expl : string) (hits : list Re.mobj) :
  (forall v s e, P (mkEntity (u t) v s e c (u "regex_aggressive") (u expl))) ->
  forall seen, Forall P (aggressive_added text lo hi t c expl seen hits).
Proof.
  intros HP. induction hits as [|mo hits IH]; intros seen; cbn [aggressive_added];
    [constructor|].
  cbv zeta. destruct (_ && _); [constructor; [apply HP|apply IH]|apply IH].
Qed.

End AggressiveFacts.

Module C9.
Import Detector AggressiveFacts.

(** C9.  The first phase returns the catalog hits, then what the loop over
    the hits of the aggressive CPF expression adds, then what the loop over
    the hits of the aggressive telephone expression adds.  The turn for a
    hit adds an entity exactly when the value of the hit has a number of
    digits in range (9 to 11 for the CPF expression, 8 to 11 for the
    telephone expression) and no entity collected before that turn has the
    same value string; where the hit lies plays no part.  An added entity
    has the value and the span of its hit, the method "regex_aggressive"
    (the aggressive pattern method of the specification) and the confidence
    0.70 (CPF) or 0.75 (telephone).  In "123-456-789-09" the catalog finds
    nothing and the CPF expression adds the whole text; in "529.982.247-25"
    the CPF expression finds the value the catalog found and adds nothing;
    in "(61) 99999-8888" the telephone expression finds "61) 99999-8888"
    inside the catalog hit "(61) 99999-8888", the values differ, and it is
    added. *)
Theorem aggressive_matchers (text : str) :
  let catalog := map entity_of_match (Patterns.find_all text) in
  let cpf_hits := Re.finditer false text cpf_aggressive in
  let phone_hits := Re.finditer false text phone_aggressive in
  let added_cpf :=
    aggressive_added text 9 11 "CPF" (dec 70) "Padrão agressivo de CPF detectado"
                     (map value catalog) cpf_hits in
  let added_phone :=
    aggressive_added text 8 11 "TELEFONE" (dec 75) "Padrão agressivo de telefone detectado"
                     (map value (catalog ++ added_cpf)) phone_hits in
  _regex_detection_aggressive text = catalog ++ added_cpf ++ added_phone
  /\ (forall pre mo post,
        cpf_hits = pre ++ mo :: post ->
        let before :=
          catalog ++ aggressive_added text 9 11 "CPF" (dec 70)
                       "Padrão agressivo de CPF detectado" (map value catalog) pre in
        fold_left (cpf_step text) (pre ++ [mo]) catalog =
        if (9 <=? Str.count_digits (Re.group0 text mo))
           && (Str.count_digits (Re.group0 text mo) <=? 11)
           && negb (has_value before (Re.group0 text mo))
        then before ++ [ mkEntity (u "CPF") (Re.group0 text mo)
                                  (Z.of_nat (Re.m_start mo)) (Z.of_nat (Re.m_end mo))
                                  (dec 70) (u "regex_aggressive")
                                  (u "Padrão agressivo de CPF detectado") ]
        else before)
  /\ (forall pre mo post,
        phone_hits = pre ++ mo :: post ->
        let before :=
          (catalog ++ added_cpf)
          ++ aggressive_added text 8 11 "TELEFONE" (dec 75)
               "Padrão agressivo de telefone detectado"
               (map value (catalog ++ added_cpf)) pre in
        fold_left (phone_step text) (pre ++ [mo]) (catalog ++ added_cpf) =
        if (8 <=? Str.count_digits (Re.group0 text mo))
           && (Str.count_digits (Re.group0 text mo) <=? 11)
           && negb (has_value before (Re.group0 text mo))
        then before ++ [ mkEntity (u "TELEFONE") (Re.group0 text mo)
                                  (Z.of_nat (Re.m_start mo)) (Z.of_nat (Re.m_end mo))
                                  (dec 75) (u "regex_aggressive")
                                  (u "Padrão agressivo de telefone detectado") ]
        else before)
  /\ Forall aggressive_cpf added_cpf
  /\ Forall aggressive_phone added_phone
  /\ _regex_detection_aggressive (u "123-456-789-09")
     = [ mkEntity (u "CPF") (u "123-456-789-09") 0 14 (dec 70) (u "regex_aggressive")
                  (u "Padrão agressivo de CPF detectado") ]
  /\ (map (Re.group0 (u "529.982.247-25"))
          (Re.finditer false (u "529.982.247-25") cpf_aggressive)
      = [u "529.982.247-25"]
      /\ _regex_detection_aggressive (u "529.982.247-25")
         = [ mkEntity (u "CPF") (u "529.982.247-25") 0 14 (dec 90) (u "regex")
                      (u "CPF padrão com ou sem formatação") ])
  /\ (let found := mkEntity (u "TELEFONE") (u "(61) 99999-8888") 0 15 (dec 85) (u "regex")
                            (u "Telefone com DDD") in
      let added := mkEntity (u "TELEFONE") (u "61) 99999-8888") 1 15 (dec 75)
                            (u "regex_aggressive")
                            (u "Padrão agressivo de telefone detectado") in
      _regex_detection_aggressive (u "(61) 99999-8888") = [found; added]
      /\ _has_overlap found added = true).
Proof.
  intros catalog cpf_hits phone_hits added_cpf added_phone.
  assert (Hcpf : fold_left (cpf_step text) cpf_hits catalog = catalog ++ added_cpf)
    by apply fold_aggressive.
  split.
  { unfold _regex_detection_aggressive. fold catalog cpf_hits phone_hits.
    rewrite Hcpf. unfold phone_step. rewrite fold_aggressive, <- app_assoc. reflexivity. }
  split; [intros pre mo post _; apply fold_aggressive_turn|].
  split; [intros pre mo post _; apply fold_aggressive_turn|].
  split; [apply added_all; intros v s e; repeat split|].
  split; [apply added_all; intros v s e; repeat split|].
  split; [vm_compute; reflexivity|].
  split; [split; vm_compute; reflexivity|].
  split; vm_compute; reflexivity.
Qed.

End C9.
Unset Implicit Arguments.

(* ================================================================== *)
(** ** Where a match lies *)

Module ReFacts.
Import Re.

Section Spans.

Variable ic : bool.
Variable txt : str.

Lemma nth_error_in_range (i : nat) (t : Str.char) :
  nth_error txt i = Some t -> S i <= length txt.
Proof.
  intros H. assert (nth_error txt i <> None) as Hn by congruence.
  apply nth_error_Some in Hn. lia.
Qed.

(** A successful match hands the continuation a position not before the
    start and inside the text, strictly after the start when the expression
    cannot match the empty string, with groups that are all in order. *)
Lemma m_sound (r : regex) :
  groups_consume r = true ->
  forall (k : kont) (i : nat) (g : groups) (x : nat * groups),
    i <= length txt -> groups_ok txt g ->
    m ic txt r k i g = Some x ->
    exists j g',
      i <= j /\ j <= length txt /\ (nullable r = false -> i < j)
      /\ groups_ok txt g' /\ k j g' = Some x.
Proof.
  induction r as [ | |c|neg items|r1 IH1 r2 IH2|r1 IH1 r2 IH2|lo hi greedy r1 IH1
                 |n r1 IH1| | | ];
    intros Hgc k i g x Hi HG H; cbn [m] in H.
  - discriminate H.
  - exists i, g. cbn [nullable]. repeat split; auto; try discriminate.
  - destruct (nth_error txt i) as [t|] eqn:Et; [|discriminate H].
    destruct (chr_match ic c t); [|discriminate H].
    apply nth_error_in_range in Et.
    exists (S i), g. repeat split; auto; lia.
  - destruct (nth_error txt i) as [t|] eqn:Et; [|discriminate H].
    destruct (set_match ic neg items t); [|discriminate H].
    apply nth_error_in_range in Et.
    exists (S i), g. repeat split; auto; lia.
  - cbn [groups_consume] in Hgc. apply andb_prop in Hgc as [Hg1 Hg2].
    destruct (IH1 Hg1 _ _ _ _ Hi HG H) as (j1 & g1 & Hij1 & Hj1 & Hn1 & HG1 & H1).
    destruct (IH2 Hg2 _ _ _ _ Hj1 HG1 H1) as (j2 & g2 & Hij2 & Hj2 & Hn2 & HG2 & H2).
    exists j2, g2. repeat split; auto; try lia.
    cbn [nullable]. intros Hnull. apply andb_false_iff in Hnull as [Hnull|Hnull].
    + specialize (Hn1 Hnull). lia.
    + specialize (Hn2 Hnull). lia.
  - cbn [groups_consume] in Hgc. apply andb_prop in Hgc as [Hg1 Hg2].
    cbn [nullable].
    destruct (m ic txt r1 k i g) as [y|] eqn:E1.
    + injection H as <-.
      destruct (IH1 Hg1 _ _ _ _ Hi HG E1) as (j & g' & ? & ? & Hn & ? & ?).
      exists j, g'. repeat split; auto.
      intros Hnull. apply orb_false_elim in Hnull as [Hnull _]. auto.
    + destruct (IH2 Hg2 _ _ _ _ Hi HG H) as (j & g' & ? & ? & Hn & ? & ?).
      exists j, g'. repeat split; auto.
      intros Hnull. apply orb_false_elim in Hnull as [_ Hnull]. auto.
  - cbn [groups_consume] in Hgc. cbn [nullable].
    revert H. generalize (match hi with Some h => h | None => length txt end) as fuel.
    intros fuel. revert lo i g Hi HG.
    induction fuel as [|fuel IHf]; intros lo i g Hi HG H.
    + destruct (lo =? 0) eqn:Elo; [|discriminate H].
      exists i, g. repeat split; auto; try discriminate.
    + destruct (lo =? 0) eqn:Elo.
      * destruct greedy.
        -- match type of H with
           | match ?a with _ => _ end = _ => destruct a as [y|] eqn:Ea
           end.
           ++ injection H as <-.
              destruct (IH1 Hgc _ _ _ _ Hi HG Ea) as (j1 & g1 & ? & Hj1 & _ & HG1 & H1).
              destruct (IHf 0 j1 g1 Hj1 HG1 H1) as (j2 & g2 & ? & ? & _ & ? & ?).
              exists j2, g2. repeat split; auto; try lia; try discriminate.
           ++ exists i, g. repeat split; auto; try discriminate.
        -- destruct (k i g) as [y|] eqn:Ek.
           ++ injection H as <-. exists i, g. repeat split; auto; try discriminate.
           ++ destruct (IH1 Hgc _ _ _ _ Hi HG H) as (j1 & g1 & ? & Hj1 & _ & HG1 & H1).
              destruct (IHf 0 j1 g1 Hj1 HG1 H1) as (j2 & g2 & ? & ? & _ & ? & ?).
              exists j2, g2. repeat split; auto; try lia; try discriminate.
      * destruct (IH1 Hgc _ _ _ _ Hi HG H) as (j1 & g1 & ? & Hj1 & Hn1 & HG1 & H1).
        destruct (IHf (Init.Nat.pred lo) j1 g1 Hj1 HG1 H1) as (j2 & g2 & ? & ? & _ & ? & ?).
        exists j2, g2. repeat split; auto; try lia.
        cbn [orb]. intros Hnull. specialize (Hn1 Hnull). lia.
  - cbn [groups_consume] in Hgc. apply andb_prop in Hgc as [Hnn Hg1].
    apply negb_true_iff in Hnn. cbn [nullable].
    destruct (IH1 Hg1 _ _ _ _ Hi HG H) as (j & g' & ? & ? & Hn & HG' & Hk).
    specialize (Hn Hnn).
    exists j, ((n, (i, j)) :: g'). repeat split; auto.
    constructor; [cbn; lia|exact HG'].
  - destruct (boundary txt i); [|discriminate H].
    exists i, g. repeat split; auto; try discriminate.
  - destruct (i =? 0); [|discriminate H].
    exists i, g. repeat split; auto; try discriminate.
  - destruct (at_eol txt i); [|discriminate H].
    exists i, g. repeat split; auto; try discriminate.
Qed.

Lemma scan_ok (r : regex) :
  groups_consume r = true ->
  forall n i skip, i + n = S (length txt) ->
    Forall (mobj_ok txt (negb (nullable r))) (scan ic txt r n i skip).
Proof.
  intros Hgc. induction n as [|n IH]; intros i skip Hn; cbn [scan]; [constructor|].
  destruct skip as [|s]; [|apply IH; lia].
  destruct (m ic txt r k_done i []) as [[j g]|] eqn:E; [|apply IH; lia].
  constructor; [|apply IH; lia].
  destruct (@m_sound r Hgc k_done i [] (j, g)) as (j' & g' & ? & ? & Hnull & HG & Hk);
    [lia|constructor|exact E|].
  unfold k_done in Hk. injection Hk as -> ->.
  unfold mobj_ok. cbn [m_start m_end m_groups]. repeat split; auto.
  intros Hne. apply negb_true_iff in Hne. auto.
Qed.

Lemma finditer_ok (r : regex) :
  groups_consume r = true ->
  Forall (mobj_ok txt (negb (nullable r))) (finditer ic txt r).
Proof. intros H. unfold finditer. apply scan_ok; [exact H|lia]. Qed.

(** The spans of a consuming expression. *)
Lemma finditer_consuming (r : regex) (mo : mobj) :
  consuming r = true -> In mo (finditer ic txt r) ->
  m_start mo < m_end mo /\ m_end mo <= length txt
  /\ forall n, fst (span_of mo n) < snd (span_of mo n)
               /\ snd (span_of mo n) <= length txt.
Proof.
  unfold consuming. intros Hc Hin. apply andb_prop in Hc as [Hnn Hgc].
  pose proof (finditer_ok r Hgc) as Hall. rewrite Forall_forall in Hall.
  destruct (Hall mo Hin) as (_ & Hend & Hne & HG). rewrite Hnn in Hne.
  specialize (Hne eq_refl). split; [exact Hne|]. split; [exact Hend|].
  intros n. unfold span_of, group_span.
  destruct (find (fun p => fst p =? n) (m_groups mo)) as [[n' se]|] eqn:Ef.
  - apply find_some in Ef as [Hin' _].
    unfold groups_ok in HG. rewrite Forall_forall in HG. exact (HG _ Hin').
  - cbn [fst snd]. auto.
Qed.

End Spans.

End ReFacts.

(* ================================================================== *)
(** ** Every stage keeps entities in order *)

Module StageFacts.
Import Detector.

Lemma dec_unit (n : Z) : (0 <= n <= 100)%Z -> unit_conf (dec n).
Proof. intros H. unfold unit_conf, dec, Qle. simpl. lia. Qed.

Lemma unit_confb_ok (c : Q) : unit_confb c = true -> unit_conf c.
Proof.
  unfold unit_confb, unit_conf. intros H. apply andb_prop in H as [H0 H1].
  split; apply Qle_bool_iff; assumption.
Qed.

Lemma Qmax_unit (a b : Q) : unit_conf a -> unit_conf b -> unit_conf (Qmax a b).
Proof. unfold Qmax. destruct (Qle_bool b a); auto. Qed.

Lemma half_unit (a : Q) : unit_conf a -> unit_conf (a * (1 # 2))%Q.
Proof.
  unfold unit_conf, Qle, Qmult. destruct a as [n d]. simpl. intros [H0 H1]. split; lia.
Qed.

(** The confidence of any result of any validator. *)
Ltac confidence_cases H :=
  repeat match type of H with
         | (if ?c then _ else _) = _ => destruct c
         | bind ?m _ = _ => destruct m; cbn [bind] in H
         | match ?m with _ => _ end = _ => destruct m
         | Raise _ = Ret _ => discriminate H
         | Ret _ = Ret _ =>
             injection H as <-; cbn [Validators.confidence];
             try match goal with |- context [if ?c then _ else _] => destruct c end;
             apply dec_unit; lia
         end.

Lemma validator_confidence (b : str) (v : str -> py Validators.ValidationResult)
      (s : str) (r : Validators.ValidationResult) :
  validators b = Some v -> v s = Ret r -> unit_conf (Validators.confidence r).
Proof.
  unfold validators. intros Hv Hr.
  destruct (Str.eqb b (u "CPF")).
  { injection Hv as <-. unfold Validators.CPFValidator.validate in Hr. cbv zeta in Hr.
    confidence_cases Hr. }
  destruct (Str.eqb b (u "CNPJ")).
  { injection Hv as <-. unfold Validators.CNPJValidator.validate in Hr. cbv zeta in Hr.
    confidence_cases Hr. }
  destruct (Str.eqb b (u "TELEFONE")).
  { injection Hv as <-. unfold Validators.PhoneValidator.validate in Hr. cbv zeta in Hr.
    confidence_cases Hr. }
  destruct (Str.eqb b (u "CELULAR")).
  { injection Hv as <-. unfold Validators.PhoneValidator.validate in Hr. cbv zeta in Hr.
    confidence_cases Hr. }
  destruct (Str.eqb b (u "EMAIL")).
  { injection Hv as <-. unfold Validators.EmailValidator.validate in Hr. cbv zeta in Hr.
    confidence_cases Hr. }
  destruct (Str.eqb b (u "CEP")).
  { injection Hv as <-. unfold Validators.CEPValidator.validate in Hr. cbv zeta in Hr.
    confidence_cases Hr. }
  discriminate Hv.
Qed.

(** What the validation stage keeps has the core it had. *)
Lemma kept_core (cfg : DetectionConfig) (e e' : Entity) :
  kept cfg e = Some e' -> core e' = core e.
Proof.
  unfold kept, validate_one.
  destruct (validators (base_type_of (type e))) as [v|];
    [|intros H; injection H as <-; reflexivity].
  destruct (v (value e)) as [r|x]; cbn [bind]; [|discriminate].
  destruct (Validators.is_valid r); [intros H; injection H as <-; reflexivity|].
  destruct (is_cpf_or_cnpj _); [|intros H; injection H as <-; reflexivity].
  destruct (is_strict _); [intros H; injection H as <-; reflexivity|discriminate].
Qed.

Lemma kept_conf (cfg : DetectionConfig) (e e' : Entity) :
  kept cfg e = Some e' -> unit_conf (confidence e) -> unit_conf (confidence e').
Proof.
  intros Hk Hc. revert Hk. unfold kept, validate_one.
  destruct (validators (base_type_of (type e))) as [v|] eqn:Hv;
    [|intros H; injection H as <-; exact Hc].
  destruct (v (value e)) as [r|x] eqn:Hr; cbn [bind]; [|discriminate].
  pose proof (validator_confidence _ _ _ _ Hv Hr) as Hrc.
  destruct (Validators.is_valid r).
  { intros H; injection H as <-. cbn [confidence set_explanation set_confidence set_validation].
    apply Qmax_unit; assumption. }
  destruct (is_cpf_or_cnpj _); [|intros H; injection H as <-; exact Hc].
  destruct (is_strict _); [|discriminate].
  intros H; injection H as <-. cbn [confidence set_explanation set_confidence set_validation].
  apply half_unit; assumption.
Qed.

Lemma kept_ok (cfg : DetectionConfig) (text : str) (e e' : Entity) :
  kept cfg e = Some e' -> entity_ok text e -> entity_ok text e'.
Proof.
  intros Hk (H0 & H1 & H2 & Hc).
  pose proof (kept_core cfg e e' Hk) as Hcore.
  unfold core in Hcore. injection Hcore as _ _ Hs He.
  unfold entity_ok. rewrite Hs, He. repeat (split; [assumption|]).
  exact (kept_conf cfg e e' Hk Hc).
Qed.


Lemma flat_map_kept_ok (cfg : DetectionConfig) (text : str) (es : list Entity) :
  Forall (entity_ok text) es ->
  Forall (entity_ok text) (flat_map (fun e => keep_list (kept cfg e)) es).
Proof.
  induction 1 as [|e es He _ IH]; [constructor|].
  cbn [flat_map]. apply Forall_app. split; [|exact IH].
  destruct (kept cfg e) as [e'|] eqn:Hk; [|constructor].
  constructor; [|constructor]. exact (kept_ok cfg text e e' Hk He).
Qed.

(** A loop that appends at most one entity per hit keeps a property of
    all entities when each appended one has it. *)
Lemma fold_keeps {H : Type} (P : Entity -> Prop) (step : list Entity -> H -> list Entity)
      (hits : list H) :
  (forall es h, In h hits -> step es h = es \/ exists e, step es h = es ++ [e] /\ P e) ->
  forall es, Forall P es -> Forall P (fold_left step hits es).
Proof.
  induction hits as [|h hits IH]; intros Hstep es Hes; [exact Hes|].
  cbn [fold_left]. apply IH.
  - intros es' h' Hin. apply Hstep. right. exact Hin.
  - destruct (Hstep es h (or_introl eq_refl)) as [->|(e & -> & He)]; [exact Hes|].
    apply Forall_app. split; [exact Hes|]. constructor; [exact He|constructor].
Qed.

End StageFacts.

(* ================================================================== *)
(** ** The catalog *)

Module CatalogFacts.
Import Patterns.

Lemma in_insert_sorted (x y : Match) (l : list Match) :
  In x (insert_sorted y l) <-> x = y \/ In x l.
Proof.
  induction l as [|z l IH]; simpl; [intuition congruence|].
  destruct (key_le y z); simpl; [intuition congruence|].
  rewrite IH. intuition congruence.
Qed.

Lemma in_sorted (x : Match) (l : list Match) : In x (sorted l) <-> In x l.
Proof.
  unfold sorted. induction l as [|y l IH]; simpl; [tauto|].
  rewrite in_insert_sorted, IH. intuition congruence.
Qed.

Lemma in_dedup_loop (x : Match) (l result : list Match) :
  In x (dedup_loop result l) -> In x result \/ In x l.
Proof.
  revert result. induction l as [|y l IH]; intros result H; simpl in *; [auto|].
  apply IH in H as [H|H]; [|auto].
  destruct (existsb _ result); [auto|].
  apply in_app_or in H as [H|[H|[]]]; auto.
Qed.

Lemma in_deduplicate (x : Match) (l : list Match) :
  In x (_deduplicate_matches l) -> In x l.
Proof.
  unfold _deduplicate_matches. destruct l as [|y l]; [auto|].
  intros H. apply in_dedup_loop in H as [[]|H]. exact (proj1 (in_sorted x _) H).
Qed.

Lemma has_overlap_sym (a b : Match) : _has_overlap a b = _has_overlap b a.
Proof. unfold _has_overlap. rewrite orb_comm. reflexivity. Qed.

Lemma FOP_snoc {A} (R : A -> A -> Prop) (l : list A) (x : A) :
  ForallOrdPairs R l -> Forall (fun a => R a x) l -> ForallOrdPairs R (l ++ [x]).
Proof.
  induction 1 as [|a l Ha _ IH]; intros Hx; simpl.
  - constructor; constructor.
  - inversion Hx as [|? ? Hax Hlx]; subst. constructor.
    + apply Forall_app. split; [exact Ha|]. constructor; [exact Hax|constructor].
    + apply IH. exact Hlx.
Qed.

(** No two hits that [_deduplicate_matches] keeps overlap. *)
Lemma dedup_loop_disjoint (l result : list Match) :
  ForallOrdPairs (fun a b => _has_overlap a b = false) result ->
  ForallOrdPairs (fun a b => _has_overlap a b = false) (dedup_loop result l).
Proof.
  revert result. induction l as [|y l IH]; intros result H; simpl; [exact H|].
  apply IH. destruct (existsb (fun existing => _has_overlap y existing) result) eqn:E;
    [exact H|].
  apply FOP_snoc; [exact H|].
  apply Forall_forall. intros a Ha.
  rewrite has_overlap_sym.
  destruct (_has_overlap y a) eqn:Ey; [|reflexivity].
  assert (existsb (fun existing => _has_overlap y existing) result = true) as Hex.
  { apply existsb_exists. exists a. auto. }
  congruence.
Qed.

Lemma deduplicate_disjoint (l : list Match) :
  ForallOrdPairs (fun a b => _has_overlap a b = false) (_deduplicate_matches l).
Proof.
  unfold _deduplicate_matches. destruct l as [|y l]; [constructor|].
  apply dedup_loop_disjoint. constructor.
Qed.

Lemma catalog_checked_ok : Detector.catalog_checked = true.
Proof. vm_compute. reflexivity. Qed.

Lemma contextual_checked_ok : Detector.contextual_checked = true.
Proof. vm_compute. reflexivity. Qed.

(** A catalog hit lies in the text, is not empty, and has a confidence
    between 0 and 1. *)
Lemma find_all_ok (text : str) (x : Match) :
  In x (find_all text) ->
  (0 <= m_start x)%Z /\ (m_start x < m_end x)%Z /\ (m_end x <= Z.of_nat (length text))%Z
  /\ Detector.unit_conf (m_confidence x).
Proof.
  unfold find_all. intros H. apply in_deduplicate in H.
  apply in_flat_map in H as ([t l] & Htl & H).
  apply in_flat_map in H as ([r c] & Hrc & H). cbn [fst snd] in *.
  pose proof catalog_checked_ok as Hck. unfold Detector.catalog_checked in Hck.
  rewrite forallb_forall in Hck. specialize (Hck _ Htl). cbn [snd] in Hck.
  rewrite forallb_forall in Hck. specialize (Hck _ Hrc). cbn [fst snd] in Hck.
  apply andb_prop in Hck as [Hck Hfl]. apply andb_prop in Hck as [Hcons Hconf].
  unfold hits_of in H. apply in_map_iff in H as (mo & <- & Hmo).
  destruct (ReFacts.finditer_consuming _ _ _ _ Hcons Hmo) as (Hlt & Hend & _).
  cbn [m_start m_end m_confidence]. repeat split; try lia.
  - apply StageFacts.unit_confb_ok in Hconf. apply Hconf.
  - apply StageFacts.unit_confb_ok in Hconf. apply Hconf.
Qed.

(** A contextual hit likewise. *)
Lemma find_contextual_ok (text : str) (x : CMatch) :
  In x (find_contextual text) ->
  (0 <= c_start x)%Z /\ (c_start x < c_end x)%Z /\ (c_end x <= Z.of_nat (length text))%Z
  /\ Detector.unit_conf (c_confidence x).
Proof.
  unfold find_contextual. intros H.
  apply in_flat_map in H as ([n l] & Hnl & H).
  apply in_flat_map in H as ([r c] & Hrc & H). cbn [fst snd] in *.
  pose proof contextual_checked_ok as Hck. unfold Detector.contextual_checked in Hck.
  rewrite forallb_forall in Hck. specialize (Hck _ Hnl). cbn [snd] in Hck.
  rewrite forallb_forall in Hck. specialize (Hck _ Hrc). cbn [fst snd] in Hck.
  apply andb_prop in Hck as [Hcons Hconf].
  unfold contextual_hits in H. apply in_map_iff in H as (mo & <- & Hmo).
  destruct (ReFacts.finditer_consuming _ _ _ _ Hcons Hmo) as (_ & _ & Hspan).
  destruct (Hspan 1) as [Hlt Hend].
  cbn [c_start c_end c_confidence]. repeat split; try lia.
  - apply StageFacts.unit_confb_ok in Hconf. apply Hconf.
  - apply StageFacts.unit_confb_ok in Hconf. apply Hconf.
Qed.

End CatalogFacts.

(* ================================================================== *)
(** ** The pipeline keeps entities in order *)

Module PipelineFacts.
Import Detector StageFacts.

Lemma consuming_cpf_aggressive : Re.consuming cpf_aggressive = true.
Proof. reflexivity. Qed.
Lemma consuming_phone_aggressive : Re.consuming phone_aggressive = true.
Proof. reflexivity. Qed.
Lemma consuming_number_pattern : Re.consuming number_pattern = true.
Proof. reflexivity. Qed.
Lemma consuming_cpf_context : Re.consuming cpf_context = true.
Proof. reflexivity. Qed.
Lemma consuming_name_keywords : Re.consuming name_keywords = true.
Proof. reflexivity. Qed.

Lemma mk_ok (text : str) (t v : str) (s e : nat) (c : Q) (m x : str) :
  s < e -> e <= length text -> unit_conf c ->
  entity_ok text (mkEntity t v (Z.of_nat s) (Z.of_nat e) c m x).
Proof.
  intros Hlt Hend Hc. unfold entity_ok. cbn [start end_ confidence mkEntity].
  repeat split; try lia; apply Hc.
Qed.

Lemma regex_stage_ok (text : str) :
  Forall (entity_ok text) (_regex_detection_aggressive text).
Proof.
  unfold _regex_detection_aggressive.
  apply fold_keeps.
  { intros es mo Hmo. unfold phone_step, aggressive_step.
    destruct (negb _); [|left; reflexivity].
    destruct (_ && _); [right|left; reflexivity].
    eexists. split; [reflexivity|].
    destruct (ReFacts.finditer_consuming _ _ _ _ consuming_phone_aggressive Hmo)
      as (Hlt & Hend & _).
    apply mk_ok; [exact Hlt|exact Hend|apply dec_unit; lia]. }
  apply fold_keeps.
  { intros es mo Hmo. unfold cpf_step, aggressive_step.
    destruct (negb _); [|left; reflexivity].
    destruct (_ && _); [right|left; reflexivity].
    eexists. split; [reflexivity|].
    destruct (ReFacts.finditer_consuming _ _ _ _ consuming_cpf_aggressive Hmo)
      as (Hlt & Hend & _).
    apply mk_ok; [exact Hlt|exact Hend|apply dec_unit; lia]. }
  apply Forall_forall. intros e He. apply in_map_iff in He as (x & <- & Hx).
  destruct (CatalogFacts.find_all_ok text x Hx) as (H0 & H1 & H2 & Hc).
  unfold entity_ok, entity_of_match. cbn [start end_ confidence mkEntity]. auto.
Qed.




Lemma lifted_ok (text : str) (berts : list Entity) (r r' : Entity) :
  Forall (entity_ok text) berts -> lifted berts r r' ->
  entity_ok text r -> entity_ok text r'.
Proof.
  intros Hb [->|(_ & Hcore & _ & _ & _ & b & Hin & _ & Hconf & _)] Hr; [exact Hr|].
  unfold core in Hcore. injection Hcore as _ _ Hs He.
  destruct Hr as (H0 & H1 & H2 & _).
  rewrite Forall_forall in Hb. destruct (Hb b Hin) as (_ & _ & _ & Hc).
  unfold entity_ok. rewrite Hs, He, Hconf. auto.
Qed.

(** The fusion keeps a property of all entities that lifting keeps and
    that the appended model hits have. *)
Lemma merge_keeps (P : Entity -> Prop) (regs berts : list Entity) :
  Forall P regs ->
  (forall r r', P r -> lifted berts r r' -> P r') ->
  (forall b, In b berts -> P b) ->
  Forall P (_merge_detections regs berts).
Proof.
  intros Hr Hl Hb.
  destruct (MergeFacts.merge_shape regs berts) as (regs' & -> & H2).
  apply Forall_app. split.
  - clear - H2 Hr Hl. induction H2 as [|x y l l' Hxy _ IH]; [constructor|].
    inversion Hr; subst. constructor; [|auto]. eapply Hl; eassumption.
  - apply Forall_forall. intros b Hin. apply filter_In in Hin as [Hin _]. auto.
Qed.

Lemma merge_ok (text : str) (regs berts : list Entity) :
  Forall (entity_ok text) regs -> Forall (entity_ok text) berts ->
  Forall (entity_ok text) (_merge_detections regs berts).
Proof.
  intros Hr Hb. apply merge_keeps; [exact Hr| |].
  - intros r r' H Hl. exact (lifted_ok text berts r r' Hb Hl H).
  - apply Forall_forall. exact Hb.
Qed.

(** The anti-false-negative pass keeps a property of all entities that
    every entity in order has. *)
Lemma anti_fn_keeps (P : Entity -> Prop) (text : str) (es : list Entity) :
  (forall e, entity_ok text e -> P e) ->
  Forall P es -> Forall P (_anti_false_negative_filter es text).
Proof.
  intros HP Hes. unfold _anti_false_negative_filter.
  apply fold_keeps.
  { intros l mo Hmo. unfold name_step.
    destruct (negb _); [|left; reflexivity].
    destruct (_ || _); [right|left; reflexivity].
    eexists. split; [reflexivity|].
    destruct (ReFacts.finditer_consuming _ _ _ _ consuming_name_keywords Hmo)
      as (_ & _ & Hspan).
    destruct (Hspan 2) as [Hlt Hend]. unfold span2. cbn [fst snd].
    apply HP, mk_ok; [exact Hlt|exact Hend|apply dec_unit; lia]. }
  apply fold_keeps.
  { intros l mo Hmo. unfold cpf_context_step.
    destruct (_ && _); [right|left; reflexivity].
    eexists. split; [reflexivity|].
    destruct (ReFacts.finditer_consuming _ _ _ _ consuming_cpf_context Hmo)
      as (_ & _ & Hspan).
    destruct (Hspan 2) as [Hlt Hend]. unfold span2. cbn [fst snd].
    apply HP, mk_ok; [exact Hlt|exact Hend|apply dec_unit; lia]. }
  apply fold_keeps.
  { intros l mo Hmo. unfold number_step.
    destruct (negb _); [right|left; reflexivity].
    eexists. split; [reflexivity|].
    destruct (ReFacts.finditer_consuming _ _ _ _ consuming_number_pattern Hmo)
      as (_ & _ & Hspan).
    destruct (Hspan 2) as [Hlt Hend]. unfold span2. cbn [fst snd].
    apply HP, mk_ok; [exact Hlt|exact Hend|apply dec_unit; lia]. }
  apply fold_keeps; [|exact Hes].
  intros l x Hx. unfold contextual_step.
  destruct (_ && _); [right|left; reflexivity].
  eexists. split; [reflexivity|].
  destruct (CatalogFacts.find_contextual_ok text x Hx) as (H0 & H1 & H2 & Hc).
  apply HP. unfold entity_ok. cbn [start end_ confidence mkEntity]. auto.
Qed.

Lemma anti_fn_ok (text : str) (es : list Entity) :
  Forall (entity_ok text) es ->
  Forall (entity_ok text) (_anti_false_negative_filter es text).
Proof. apply anti_fn_keeps. intros e H. exact H. Qed.

(** The first four phases collect entities with a property that every
    entity in order has, that lifting keeps, and that the model hits
    have. *)
Lemma collect_keeps (P : Entity -> Prop) (self : PIIGuardian) (text : str) :
  (forall e, entity_ok text e -> P e) ->
  (forall r r', P r -> lifted (model_hits self text) r r' -> P r') ->
  (forall b, In b (model_hits self text) -> P b) ->
  Forall P (collect self text).
Proof.
  intros HP Hl Hb. unfold collect. fold (model_hits self text).
  assert (Hmerged : Forall P (_merge_detections (_regex_detection_aggressive text)
                                                (model_hits self text))).
  { apply merge_keeps; [|exact Hl|exact Hb].
    eapply Forall_impl; [exact HP|apply regex_stage_ok]. }
  destruct (use_contextual (config self)); [|exact Hmerged].
  apply anti_fn_keeps; assumption.
Qed.

Lemma collect_ok (self : PIIGuardian) (text : str) :
  (forall model, bert_model self = Some model -> Forall (entity_ok text) (model text)) ->
  Forall (entity_ok text) (collect self text).
Proof.
  intros Hm.
  assert (Hb : Forall (entity_ok text) (model_hits self text)).
  { unfold model_hits. destruct (bert_model self) as [model|]; [|constructor].
    destruct (use_bert (config self)); [|constructor]. apply Hm. reflexivity. }
  apply collect_keeps.
  - intros e H. exact H.
  - intros r r' H Hl. exact (lifted_ok text _ r r' Hb Hl H).
  - apply Forall_forall. exact Hb.
Qed.

(** The pipeline returns; its entities are what the last two stages leave
    of the collected ones. *)
Lemma detect_returns (self : PIIGuardian) (text : str) :
  exists r, detect self text = Ret r
    /\ (entities r = []
        \/ entities r =
           _apply_thresholds (config self)
             (if validate_documents (config self)
              then flat_map (fun e => keep_list (kept (config self) e)) (collect self text)
              else collect self text)).
Proof.
  unfold detect.
  destruct (Str.eqb text [] || Str.eqb (Str.strip text) []).
  - eexists. split; [reflexivity|]. left. reflexivity.
  - destruct (validate_documents (config self)).
    + rewrite ValidationFacts.validate_consistency_kept. cbn [bind].
      eexists. split; [reflexivity|]. right. reflexivity.
    + cbn [bind]. eexists. split; [reflexivity|]. right. reflexivity.
Qed.

End PipelineFacts.

Module C4.
Import Detector StageFacts PipelineFacts.



End C4.

(* ================================================================== *)
(** ** What the stages deduplicate *)

Module ApartFacts.
Import Detector StageFacts.














End ApartFacts.

Module ApartPipeline.
Import Detector StageFacts ApartFacts.


Lemma each_after_weaken (R S : Entity -> Entity -> Prop) (added : list Entity) :
  (forall a b, R a b -> S a b) ->
  forall base, each_after R base added -> each_after S base added.
Proof.
  intros HRS. induction added as [|e added IH]; intros base H; cbn [each_after] in *;
    [exact I|].
  destruct H as [He H]. split; [|apply IH; exact H].
  eapply Forall_impl; [|exact He]. intros a. apply HRS.
Qed.


(** A contextual hit is added only when it overlaps no entity collected
    so far and no such entity has its value. *)
Lemma contextual_step_clear (es : list Entity) (x : Patterns.CMatch) :
  contextual_step es x = es
  \/ exists e, contextual_step es x = es ++ [e]
               /\ Forall (fun a => disjoint a e /\ value a <> value e) es.
Proof.
  unfold contextual_step.
  destruct (existsb _ es) eqn:Ed; cbn [negb andb]; [left; reflexivity|].
  destruct (negb _); [right|left; reflexivity].
  eexists. split; [reflexivity|].
  apply Forall_forall. intros a Ha.
  assert (Hno : Str.eqb (value a) (Patterns.c_value x) || _has_overlap_dict x a = false).
  { destruct (Str.eqb (value a) (Patterns.c_value x) || _has_overlap_dict x a) eqn:E;
      [|reflexivity].
    assert (existsb (fun e => Str.eqb (value e) (Patterns.c_value x)
                              || _has_overlap_dict x e) es = true) as Hex
      by (apply existsb_exists; exists a; auto).
    congruence. }
  apply orb_false_elim in Hno as [Hv Ho]. split.
  - unfold disjoint, _has_overlap. cbn [start end_ mkEntity].
    unfold _has_overlap_dict in Ho. rewrite orb_comm. exact Ho.
  - cbn [value mkEntity]. intros E. apply StrFacts.eqb_eq in E. congruence.
Qed.

Lemma contextual_step_apart (es : list Entity) (x : Patterns.CMatch) :
  contextual_step es x = es
  \/ exists e, contextual_step es x = es ++ [e] /\ Forall (fun a => apart a e) es.
Proof.
  destruct (contextual_step_clear es x) as [H|(e & H & He)]; [left; exact H|].
  right. exists e. split; [exact H|].
  eapply Forall_impl; [|exact He]. intros a [Hd _]. left. exact Hd.
Qed.





















End ApartPipeline.

Module C1.
Import Detector StageFacts ApartFacts ApartPipeline PipelineFacts.



End C1.
Unset Implicit Arguments.

(* ================================================================== *)
(** * Further properties of the validators *)

Module DigitFacts.
Import Validators ValidatorFacts.

Lemma clean_app (a b : str) : clean (a ++ b) = clean a ++ clean b.
Proof. unfold clean. apply filter_app. Qed.

Lemma clean_fixed (s : str) : forallb Str.is_decimal s = true -> clean s = s.
Proof.
  unfold clean. induction s as [|c s IH]; simpl; [reflexivity|].
  intros H. apply andb_prop in H as [Hc Hs]. rewrite Hc. f_equal. auto.
Qed.

Lemma clean_idem (s : str) : clean (clean s) = clean s.
Proof. apply clean_fixed, clean_decimal. Qed.

Lemma clean_length_le (s : str) : length (clean s) <= length s.
Proof. unfold clean. apply filter_length_le. Qed.

(** A string that keeps its length when cleaned has only digits. *)
Lemma clean_full (s : str) : length (clean s) = length s -> forallb Str.is_decimal s = true.
Proof.
  unfold clean. induction s as [|c s IH]; simpl; [reflexivity|].
  destruct (Str.is_decimal c); simpl; intros H.
  - apply IH. lia.
  - pose proof (filter_length_le Str.is_decimal s). lia.
Qed.

Lemma digit_val_range (c : Str.char) :
  Str.is_decimal c = true -> (0 <= digit_val c <= 9)%Z.
Proof.
  unfold digit_val, Str.decimal_value, Str.is_decimal.
  destruct (Str.latin1 c).
  - intros H. apply in_range_spec in H. unfold Str.code in *. lia.
  - intros _. destruct (find _ _) as [[lo hi]|]; [|lia].
    pose proof (N.mod_upper_bound (Str.code c - lo) 10 ltac:(discriminate)) as Hk.
    revert Hk. generalize ((Str.code c - lo) mod 10)%N. intros k Hk. lia.
Qed.

(** [str(d)] for the value of a digit of ASCII is the character of that
    digit. *)
Lemma str_of_digit (c : Str.char) :
  Str.in_range 48 57 c = true -> str_of_Z (digit_val c) = [c].
Proof.
  intros H. apply ascii_digit_cases in H. simpl in H.
  repeat (destruct H as [<-|H]; [vm_compute; reflexivity|]). destruct H.
Qed.

Lemma digit_val_inj (a b : Str.char) :
  Str.in_range 48 57 a = true -> Str.in_range 48 57 b = true ->
  digit_val a = digit_val b -> a = b.
Proof.
  intros Ha Hb E. apply str_of_digit in Ha, Hb. rewrite E in Ha. congruence.
Qed.

Lemma official_digit_range (s : Z) : (0 <= official_digit s <= 9)%Z.
Proof.
  unfold official_digit. pose proof (Z.mod_pos_bound s 11 ltac:(lia)).
  destruct (s mod 11 <? 2)%Z eqn:E; [lia|]. apply Z.ltb_ge in E. lia.
Qed.

(** A digit value is the value of a digit of ASCII, which [str] gives. *)
Lemma digit_of_value (d : Z) :
  (0 <= d <= 9)%Z ->
  exists c, Str.in_range 48 57 c = true /\ digit_val c = d /\ str_of_Z d = [c].
Proof.
  intros H.
  assert (Hc : (d = 0 \/ d = 1 \/ d = 2 \/ d = 3 \/ d = 4 \/ d = 5 \/ d = 6 \/ d = 7
                \/ d = 8 \/ d = 9)%Z) by lia.
  destruct Hc as [->|[->|[->|[->|[->|[->|[->|[->|[->| ->]]]]]]]]].
  - exists (Str.chr 48). repeat split.
  - exists (Str.chr 49). repeat split.
  - exists (Str.chr 50). repeat split.
  - exists (Str.chr 51). repeat split.
  - exists (Str.chr 52). repeat split.
  - exists (Str.chr 53). repeat split.
  - exists (Str.chr 54). repeat split.
  - exists (Str.chr 55). repeat split.
  - exists (Str.chr 56). repeat split.
  - exists (Str.chr 57). repeat split.
Qed.

Lemma digits_of_app (a b : str) : digits_of (a ++ b) = digits_of a ++ digits_of b.
Proof. unfold digits_of. apply map_app. Qed.

(** What [calculate_check_digits] computes, once the base has nine digits. *)
Lemma calculate_check_digits_value (base : str) :
  9 <= length (clean base) ->
  CPFValidator.calculate_check_digits base =
  Ret (official_digit (weighted_sum (digits_of (firstn 9 (clean base))) CPFValidator.range_10_1),
       official_digit
         (weighted_sum
            (digits_of (firstn 9 (clean base))
             ++ [official_digit (weighted_sum (digits_of (firstn 9 (clean base)))
                                              CPFValidator.range_10_1)])
            CPFValidator.range_11_1)).
Proof.
  intros H. unfold CPFValidator.calculate_check_digits. cbv zeta.
  rewrite length_firstn, Nat.min_l by exact H. cbn [Nat.eqb negb].
  rewrite int_digits_ok by (apply forallb_firstn, clean_decimal).
  cbn [bind]. rewrite !mod11_rule. reflexivity.
Qed.

Lemma all_repeated_app_false (a b : str) :
  all_repeated a = false -> a <> [] -> all_repeated (a ++ b) = false.
Proof.
  destruct a as [|c a]; [congruence|]. cbn [all_repeated app]. intros H _.
  rewrite forallb_app, H. reflexivity.
Qed.

Lemma digits_of_repeat (c : Str.char) (n : nat) :
  digits_of (repeat c n) = repeat (digit_val c) n.
Proof. unfold digits_of. induction n as [|n IH]; simpl; [reflexivity|]. f_equal. exact IH. Qed.

(** One digit repeated nine times has that digit as both check digits. *)
Lemma repeated_base_digits (c : Str.char) :
  Str.is_decimal c = true ->
  official_digit (weighted_sum (digits_of (repeat c 9)) CPFValidator.range_10_1) = digit_val c
  /\ official_digit (weighted_sum (digits_of (repeat c 9) ++ [digit_val c])
                                  CPFValidator.range_11_1) = digit_val c.
Proof.
  intros H. apply digit_val_range in H. rewrite digits_of_repeat.
  assert (Hc : (digit_val c = 0 \/ digit_val c = 1 \/ digit_val c = 2 \/ digit_val c = 3
                \/ digit_val c = 4 \/ digit_val c = 5 \/ digit_val c = 6 \/ digit_val c = 7
                \/ digit_val c = 8 \/ digit_val c = 9)%Z) by lia.
  destruct Hc as [E|[E|[E|[E|[E|[E|[E|[E|[E|E]]]]]]]]]; rewrite E;
    split; vm_compute; reflexivity.
Qed.

Lemma listed_repeated_app_false (a b : str) :
  listed_repeated a = false -> a <> [] -> listed_repeated (a ++ b) = false.
Proof.
  destruct a as [|c a]; [congruence|].
  unfold listed_repeated. cbn [all_repeated app]. intros H _.
  rewrite forallb_app.
  destruct (Str.in_range 48 57 c); [|apply andb_false_r].
  rewrite andb_true_r in *. rewrite H. reflexivity.
Qed.

End DigitFacts.

Module CheckDigits.
Import Validators ValidatorFacts DigitFacts.

(** X1.  [CPFValidator.calculate_check_digits] raises [ValueError] exactly
    when its argument holds fewer than nine decimal digits.  With nine or
    more it returns two digits between 0 and 9, and they depend on the
    first nine digits only: formatting characters and any digit after the
    ninth are ignored. *)
Theorem calculate_check_digits_behaviour (base : str) :
  (length (clean base) < 9 ->
   CPFValidator.calculate_check_digits base = Raise ValueError)
  /\ (9 <= length (clean base) ->
      exists d1 d2 : Z,
        CPFValidator.calculate_check_digits base = Ret (d1, d2)
        /\ (0 <= d1 <= 9)%Z /\ (0 <= d2 <= 9)%Z
        /\ CPFValidator.calculate_check_digits (firstn 9 (clean base)) = Ret (d1, d2)).
Proof.
  split.
  - intros H. unfold CPFValidator.calculate_check_digits. cbv zeta.
    rewrite length_firstn.
    destruct (Nat.eqb_spec (Nat.min 9 (length (clean base))) 9) as [E|E]; [lia|].
    reflexivity.
  - intros H. eexists. eexists.
    split; [apply calculate_check_digits_value; exact H|].
    split; [apply official_digit_range|].
    split; [apply official_digit_range|].
    assert (Hfix : clean (firstn 9 (clean base)) = firstn 9 (clean base))
      by (apply clean_fixed, forallb_firstn, clean_decimal).
    rewrite calculate_check_digits_value; rewrite Hfix.
    + rewrite firstn_firstn. reflexivity.
    + rewrite length_firstn. lia.
Qed.

(** X2.  The check digits that [calculate_check_digits] returns for a base
    of nine digits are the ones [CPFValidator.validate] accepts: the base
    followed by the two digits is valid with confidence 0.98, unless the
    base is one of the digits 0 to 9 of ASCII repeated, in which case the
    eleven digits are that digit repeated and the candidate is rejected with
    confidence 0.0.  A base that repeats a decimal digit of another script
    is accepted with its check digits.  Two characters after the base make
    a valid CPF only when they are decimal digits with the values of the two
    check digits; among the digits of ASCII these are the two characters
    that [str] gives for the check digits. *)
Theorem check_digits_round_trip (base : str) (d1 d2 : Z) :
  length (clean base) = 9 ->
  CPFValidator.calculate_check_digits base = Ret (d1, d2) ->
  verdict (CPFValidator.validate (base ++ str_of_Z d1 ++ str_of_Z d2))
  = Some (if listed_repeated (clean base) then (false, dec 0) else (true, dec 98))
  /\ forall a b : Str.char,
       verdict (CPFValidator.validate (base ++ [a; b])) = Some (true, dec 98) ->
       Str.is_decimal a = true /\ Str.is_decimal b = true
       /\ digit_val a = d1 /\ digit_val b = d2
       /\ (Str.in_range 48 57 a = true -> [a] = str_of_Z d1)
       /\ (Str.in_range 48 57 b = true -> [b] = str_of_Z d2).
Proof.
  intros Hlen Hcalc.
  rewrite calculate_check_digits_value in Hcalc by lia.
  rewrite firstn_all2 in Hcalc by lia.
  assert (Hd1 : d1 = official_digit (weighted_sum (digits_of (clean base))
                                                  CPFValidator.range_10_1)) by congruence.
  assert (Hd2 : d2 = official_digit (weighted_sum (digits_of (clean base) ++ [d1])
                                                  CPFValidator.range_11_1)) by congruence.
  clear Hcalc.
  assert (Hdl : length (digits_of (clean base)) = 9) by (rewrite digits_of_length; exact Hlen).
  (* the verdict on the base followed by two digit characters *)
  assert (Hver : forall a b : Str.char,
            Str.is_decimal a = true -> Str.is_decimal b = true ->
            code_cpf (base ++ [a; b])
            = if listed_repeated (clean base ++ [a; b]) then (false, dec 0)
              else if (digit_val a =? d1)%Z && (digit_val b =? official_digit
                         (weighted_sum (digits_of (clean base) ++ [digit_val a])
                                       CPFValidator.range_11_1))%Z
                   then (true, dec 98) else (false, dec 30)).
  { intros a b Ha Hb. unfold code_cpf, code_verdict, structure_accepted.
    rewrite clean_app. rewrite (clean_fixed [a; b]) by (simpl; rewrite Ha, Hb; reflexivity).
    rewrite length_app, Hlen. cbn [length Nat.add Nat.eqb andb].
    destruct (listed_repeated (clean base ++ [a; b])); cbn [negb]; [reflexivity|].
    unfold check_digits_ok. rewrite digits_of_app.
    change (digits_of [a; b]) with [digit_val a; digit_val b].
    set (ds := digits_of (clean base)) in *.
    rewrite !firstn_app, !Hdl. change (9 - 9) with 0. change (10 - 9) with 1.
    change (firstn 0 [digit_val a; digit_val b]) with (@nil Z).
    change (firstn 1 [digit_val a; digit_val b]) with [digit_val a].
    rewrite app_nil_r, !firstn_all2 by lia.
    rewrite !app_nth2 by lia. rewrite !Hdl. change (9 - 9) with 0. change (10 - 9) with 1.
    change (nth 0 [digit_val a; digit_val b] 0%Z) with (digit_val a).
    change (nth 1 [digit_val a; digit_val b] 0%Z) with (digit_val b).
    rewrite <- Hd1. reflexivity. }
  split.
  - rewrite cpf_exact. f_equal.
    destruct (digit_of_value d1) as (a & Ha & Hva & Hsa);
      [rewrite Hd1; apply official_digit_range|].
    destruct (digit_of_value d2) as (b & Hb & Hvb & Hsb);
      [rewrite Hd2; apply official_digit_range|].
    rewrite Hsa, Hsb.
    change ([a] ++ [b]) with [a; b].
    rewrite (Hver a b (ascii_digit_decimal a Ha) (ascii_digit_decimal b Hb)).
    destruct (listed_repeated (clean base)) eqn:Hrep.
    + (* the base is one digit of ASCII repeated: so are the eleven digits *)
      unfold listed_repeated in Hrep.
      destruct (clean base) as [|c rest] eqn:Ec; [discriminate|].
      apply andb_prop in Hrep as [Hrep Hc].
      cbn [all_repeated] in Hrep. apply all_repeated_repeat in Hrep.
      assert (Hbase : c :: rest = repeat c 9).
      { simpl in Hlen. injection Hlen as Hlen. rewrite Hlen in Hrep. rewrite Hrep.
        reflexivity. }
      destruct (repeated_base_digits c (ascii_digit_decimal c Hc)) as [E1 E2].
      rewrite Hbase in Hd1. rewrite E1 in Hd1.
      rewrite Hbase, Hd1, E2 in Hd2.
      assert (a = c) by (apply digit_val_inj; congruence).
      assert (b = c) by (apply digit_val_inj; congruence).
      subst a b. rewrite Hbase.
      change (repeat c 9 ++ [c; c]) with (c :: repeat c 10).
      unfold listed_repeated. cbn [all_repeated].
      rewrite (forallb_ceqb_repeat c 10), Hc. reflexivity.
    + rewrite listed_repeated_app_false;
        [|exact Hrep|intros E; rewrite E in Hlen; discriminate].
      rewrite Hva, Z.eqb_refl. cbn [andb]. rewrite Hvb, Hd2, Z.eqb_refl. reflexivity.
  - intros a b Hv. rewrite cpf_exact in Hv. injection Hv as Hv.
    (* a valid candidate has eleven digits, so both characters are digits *)
    assert (Hab : Str.is_decimal a = true /\ Str.is_decimal b = true).
    { pose proof (proj1 (code_verdict_valid 9 CPFValidator.range_10_1
                           CPFValidator.range_11_1 (base ++ [a; b]))) as Hs.
      unfold code_cpf in Hv. rewrite Hv in Hs. destruct (Hs eq_refl) as (Hl & _ & _).
      rewrite clean_app, length_app, Hlen in Hl.
      assert (Hfull : length (clean [a; b]) = length [a; b]) by (cbn [length]; lia).
      apply clean_full in Hfull. simpl in Hfull.
      apply andb_prop in Hfull as [Ha Hb]. apply andb_prop in Hb as [Hb _]. auto. }
    destruct Hab as [Ha Hb]. rewrite (Hver a b Ha Hb) in Hv.
    destruct (listed_repeated (clean base ++ [a; b])); [discriminate|].
    destruct (digit_val a =? d1)%Z eqn:E1; cbn [andb] in Hv; [|discriminate].
    apply Z.eqb_eq in E1.
    destruct (digit_val b =? _)%Z eqn:E2; [|discriminate].
    apply Z.eqb_eq in E2. rewrite E1, <- Hd2 in E2.
    split; [exact Ha|]. split; [exact Hb|]. split; [exact E1|]. split; [exact E2|].
    split; intros Hr; [rewrite <- E1|rewrite <- E2]; rewrite str_of_digit by exact Hr;
      reflexivity.
Qed.

(** On the base "529982247", whose check digits are 2 and 5; a base of
    nine ARABIC-INDIC DIGIT ONE has the check digits 1 and 1 and is accepted
    with them. *)
Lemma check_digits_round_trip_witness :
  (verdict (CPFValidator.validate (u "529982247" ++ str_of_Z 2 ++ str_of_Z 5))
   = Some (if listed_repeated (clean (u "529982247")) then (false, dec 0) else (true, dec 98))
   /\ forall a b : Str.char,
        verdict (CPFValidator.validate (u "529982247" ++ [a; b])) = Some (true, dec 98) ->
        Str.is_decimal a = true /\ Str.is_decimal b = true
        /\ digit_val a = 2%Z /\ digit_val b = 5%Z
        /\ (Str.in_range 48 57 a = true -> [a] = str_of_Z 2)
        /\ (Str.in_range 48 57 b = true -> [b] = str_of_Z 5))
  /\ verdict (CPFValidator.validate (repeat (Str.chr 1633) 9 ++ str_of_Z 1 ++ str_of_Z 1))
     = Some (true, dec 98).
Proof.
  split.
  - apply (check_digits_round_trip (u "529982247") 2 5); vm_compute; reflexivity.
  - exact (proj1 (check_digits_round_trip (repeat (Str.chr 1633) 9) 1 1
                    ltac:(vm_compute; reflexivity) ltac:(vm_compute; reflexivity))).
Defined.

End CheckDigits.

(* ================================================================== *)
(** ** Formatting keeps the digits *)

Module FormatFacts.
Import Validators ValidatorFacts DigitFacts.








End FormatFacts.

Module Formats.
Import Validators ValidatorFacts DigitFacts FormatFacts.


End Formats.

(* ================================================================== *)
(** ** The telephone and postal-code validators *)

Module VerdictFacts.
Import Validators ValidatorFacts DigitFacts.

Lemma nodup_nonempty (x : Str.char) (l : str) : nodup N.eq_dec (x :: l) <> [].
Proof.
  intros E. assert (H : In x (nodup N.eq_dec (x :: l))) by (apply nodup_In; left; reflexivity).
  rewrite E in H. destruct H.
Qed.

(** [len(set(s)) == 1]: one character, repeated. *)
Lemma distinct_one (s : str) : (distinct_chars s =? 1) = all_repeated s.
Proof.
  unfold distinct_chars. destruct s as [|c rest]; [reflexivity|].
  cbn [all_repeated]. revert c. induction rest as [|x r IH]; intros c; [reflexivity|].
  cbn [forallb]. change (nodup N.eq_dec (c :: x :: r))
    with (if in_dec N.eq_dec c (x :: r) then nodup N.eq_dec (x :: r)
          else c :: nodup N.eq_dec (x :: r)).
  change (Str.ceqb c x) with (N.eqb c x).
  destruct (in_dec N.eq_dec c (x :: r)) as [Hin|Hout].
  - rewrite IH. destruct (N.eqb_spec c x) as [->|Hne]; [reflexivity|].
    cbn [andb]. destruct (forallb (Str.ceqb x) r) eqn:Hall; [|reflexivity].
    exfalso. destruct Hin as [E|Hin]; [congruence|].
    rewrite forallb_forall in Hall. specialize (Hall c Hin).
    unfold Str.ceqb in Hall. apply N.eqb_eq in Hall. congruence.
  - cbn [length]. pose proof (nodup_nonempty x r) as Hn.
    destruct (nodup N.eq_dec (x :: r)) as [|y l]; [congruence|].
    cbn [length Nat.eqb]. symmetry.
    destruct (N.eqb_spec c x) as [->|Hne]; [|reflexivity].
    exfalso. apply Hout. left. reflexivity.
Qed.

(** The region table has an entry for every first digit. *)
Lemma region_known (c : Str.char) :
  Str.is_decimal c = true ->
  exists name, find (fun kv => Z.eqb (fst kv) (digit_val c)) CEPValidator.regions
               = Some (digit_val c, name).
Proof.
  intros H. apply digit_val_range in H.
  assert (Hc : (digit_val c = 0 \/ digit_val c = 1 \/ digit_val c = 2 \/ digit_val c = 3
                \/ digit_val c = 4 \/ digit_val c = 5 \/ digit_val c = 6 \/ digit_val c = 7
                \/ digit_val c = 8 \/ digit_val c = 9)%Z) by lia.
  destruct Hc as [E|[E|[E|[E|[E|[E|[E|[E|[E|E]]]]]]]]]; rewrite E;
    eexists; vm_compute; reflexivity.
Qed.

(** [int(cleaned[:2])] *)
Lemma py_int_two (a b : Str.char) :
  Str.is_decimal a = true -> Str.is_decimal b = true ->
  py_int [a; b] = Ret (10 * digit_val a + digit_val b)%Z.
Proof.
  intros Ha Hb. unfold py_int. cbn [forallb]. rewrite Ha, Hb. cbn [andb fold_left].
  f_equal. lia.
Qed.

Lemma existsb_Zeqb (z : Z) (l : list Z) : existsb (Z.eqb z) l = true <-> In z l.
Proof.
  rewrite existsb_exists. split.
  - intros (x & Hx & E). apply Z.eqb_eq in E. congruence.
  - intros H. exists z. split; [exact H|apply Z.eqb_refl].
Qed.

Lemma cpf_separated (s : str) (r : ValidationResult) :
  CPFValidator.validate s = Ret r ->
  (is_valid r = true -> (85 # 100 <= confidence r)%Q)
  /\ (is_valid r = false -> (confidence r <= 1 # 2)%Q).
Proof.
  intros Hr. pose proof (cpf_exact s) as H. rewrite Hr in H. cbn [verdict] in H.
  injection H as H. unfold code_cpf, code_verdict in H.
  destruct (structure_accepted 9 (clean s)); [destruct (check_digits_ok _ _ _ _)|];
    injection H as -> ->; split; intros Hx; try discriminate Hx;
    vm_compute; discriminate.
Qed.

Lemma cnpj_separated (s : str) (r : ValidationResult) :
  CNPJValidator.validate s = Ret r ->
  (is_valid r = true -> (85 # 100 <= confidence r)%Q)
  /\ (is_valid r = false -> (confidence r <= 1 # 2)%Q).
Proof.
  intros Hr. pose proof (cnpj_exact s) as H. rewrite Hr in H. cbn [verdict] in H.
  injection H as H. unfold code_cnpj, code_verdict in H.
  destruct (structure_accepted 12 (clean s)); [destruct (check_digits_ok _ _ _ _)|];
    injection H as -> ->; split; intros Hx; try discriminate Hx;
    vm_compute; discriminate.
Qed.

Ltac separated Hr :=
  repeat match type of Hr with
         | (if ?c then _ else _) = _ => destruct c
         | bind ?m _ = _ => destruct m; cbn [bind] in Hr
         | match ?m with _ => _ end = _ => destruct m
         | Raise _ = Ret _ => discriminate Hr
         | Ret _ = Ret _ =>
             injection Hr as <-; cbn [is_valid confidence];
             try match goal with |- context [if ?c then _ else _] => destruct c end;
             split; intros Hx; try discriminate Hx; vm_compute; discriminate
         end.

Lemma phone_separated (s : str) (r : ValidationResult) :
  PhoneValidator.validate s = Ret r ->
  (is_valid r = true -> (85 # 100 <= confidence r)%Q)
  /\ (is_valid r = false -> (confidence r <= 1 # 2)%Q).
Proof.
  intros Hr. unfold PhoneValidator.validate in Hr. cbv zeta in Hr. separated Hr.
Qed.

Lemma email_separated (s : str) (r : ValidationResult) :
  EmailValidator.validate s = Ret r ->
  (is_valid r = true -> (85 # 100 <= confidence r)%Q)
  /\ (is_valid r = false -> (confidence r <= 1 # 2)%Q).
Proof.
  intros Hr. unfold EmailValidator.validate in Hr. cbv zeta in Hr. separated Hr.
Qed.

Lemma cep_separated (s : str) (r : ValidationResult) :
  CEPValidator.validate s = Ret r ->
  (is_valid r = true -> (85 # 100 <= confidence r)%Q)
  /\ (is_valid r = false -> (confidence r <= 1 # 2)%Q).
Proof.
  intros Hr. unfold CEPValidator.validate in Hr. cbv zeta in Hr. separated Hr.
Qed.

End VerdictFacts.

Module Verdicts.
Import Validators ValidatorFacts DigitFacts VerdictFacts.

(** X4.  [CEPValidator.validate] accepts a candidate exactly when it has
    eight digits that are not one digit repeated; the confidence is 0.85
    for an accepted candidate and 0.0 for every other.  The message of an
    accepted candidate names a region of the table: the fallback name for
    an unknown region is never used. *)
Theorem cep_verdict (s : str) :
  exists r, CEPValidator.validate s = Ret r
    /\ is_valid r = (length (clean s) =? 8) && negb (all_repeated (clean s))
    /\ confidence r = (if is_valid r then dec 85 else dec 0)
    /\ (is_valid r = true ->
        cleaned_value r = Some (clean s)
        /\ exists name, In name (map snd CEPValidator.regions)
                        /\ message r = u "CEP válido - Região: " ++ name).
Proof.
  unfold CEPValidator.validate. cbv zeta.
  pose proof (clean_decimal s) as Hd.
  destruct (Nat.eqb_spec (length (clean s)) 8) as [E|E]; cbn [negb andb].
  2: { eexists. split; [reflexivity|]. cbn [is_valid confidence].
       split; [reflexivity|]. split; [reflexivity|]. discriminate. }
  rewrite clean_isdigit by (intros H; rewrite H in E; discriminate). cbn [negb].
  rewrite distinct_one.
  destruct (all_repeated (clean s)) eqn:Hrep; cbn [negb].
  { eexists. split; [reflexivity|]. cbn [is_valid confidence].
    split; [reflexivity|]. split; [reflexivity|]. discriminate. }
  destruct (clean s) as [|c0 rest] eqn:Ec; [discriminate|].
  cbn [py_index nth_error bind].
  assert (Hc : Str.is_decimal c0 = true).
  { simpl in Hd. apply andb_prop in Hd. tauto. }
  rewrite (py_int_digit _ Hc). cbn [bind].
  destruct (region_known c0 Hc) as [name Hname]. rewrite Hname.
  eexists. split; [reflexivity|]. cbn [is_valid confidence cleaned_value message].
  split; [reflexivity|]. split; [reflexivity|]. intros _. split; [reflexivity|].
  exists name. split; [|reflexivity].
  apply find_some in Hname as [Hin _]. apply (in_map snd) in Hin. exact Hin.
Qed.

(** X5.  A country code in front of a telephone number of ten or eleven
    digits makes no difference to [PhoneValidator.validate]: whatever is
    put before the number, as long as its digits are 55, the result is the
    result for the number alone. *)
Theorem phone_country_code (p s : str) :
  clean p = u "55" ->
  length (clean s) = 10 \/ length (clean s) = 11 ->
  PhoneValidator.validate (p ++ s) = PhoneValidator.validate s.
Proof.
  intros Hp Hs.
  assert (H1 : phone_digits (p ++ s) = clean s).
  { unfold phone_digits. rewrite clean_app, Hp.
    change (u "55" ++ clean s) with (Str.chr 53 :: Str.chr 53 :: clean s).
    change (Str.startswith (u "55") (Str.chr 53 :: Str.chr 53 :: clean s)) with true.
    cbn [andb length].
    destruct (Nat.ltb_spec 11 (S (S (length (clean s))))) as [_|H]; [reflexivity|lia]. }
  assert (H2 : phone_digits s = clean s).
  { unfold phone_digits.
    destruct (Nat.ltb_spec 11 (length (clean s))) as [H|_]; [lia|].
    rewrite andb_false_r. reflexivity. }
  unfold PhoneValidator.validate. cbv zeta.
  change (if Str.startswith (u "55") (clean (p ++ s)) && (11 <? length (clean (p ++ s)))
          then skipn 2 (clean (p ++ s)) else clean (p ++ s)) with (phone_digits (p ++ s)).
  change (if Str.startswith (u "55") (clean s) && (11 <? length (clean s))
          then skipn 2 (clean s) else clean s) with (phone_digits s).
  rewrite H1, H2. reflexivity.
Qed.

Lemma phone_country_code_witness :
  PhoneValidator.validate (u "+55 " ++ u "(11) 99999-8888")
  = PhoneValidator.validate (u "(11) 99999-8888").
Proof.
  apply (phone_country_code (u "+55 ") (u "(11) 99999-8888")).
  - vm_compute. reflexivity.
  - right. vm_compute. reflexivity.
Defined.

(** X6.  [PhoneValidator.validate] returns for every candidate, and
    accepts it exactly when its digits, a leading country code dropped,
    are ten or eleven, the first two are an area code of the table, the
    third is 9 when there are eleven, and the digits after the area code
    are not one digit repeated.  An accepted candidate has confidence 0.90
    and the digits without the country code as its cleaned value. *)
Theorem phone_verdict (s : str) :
  exists r, PhoneValidator.validate s = Ret r
    /\ (is_valid r = true <->
        (length (phone_digits s) = 10 \/ length (phone_digits s) = 11)
        /\ In (10 * digit_val (nth 0 (phone_digits s) (Str.chr 48))
               + digit_val (nth 1 (phone_digits s) (Str.chr 48)))%Z
              PhoneValidator.VALID_DDDS
        /\ (length (phone_digits s) = 11 -> nth 2 (phone_digits s) (Str.chr 48) = Str.chr 57)
        /\ all_repeated (skipn 2 (phone_digits s)) = false)
    /\ (is_valid r = true ->
        confidence r = dec 90 /\ cleaned_value r = Some (phone_digits s)).
Proof.
  unfold PhoneValidator.validate. cbv zeta.
  change (if Str.startswith (u "55") (clean s) && (11 <? length (clean s))
          then skipn 2 (clean s) else clean s) with (phone_digits s).
  pose proof (phone_digits_decimal s) as Hd.
  set (c := phone_digits s) in *.
  destruct ((length c =? 10) || (length c =? 11)) eqn:Hlen; cbn [negb].
  2: { eexists. split; [reflexivity|]. cbn [is_valid]. split; [|discriminate].
       split; [discriminate|]. intros ([H|H] & _); rewrite H in Hlen; discriminate. }
  assert (Hl : length c = 10 \/ length c = 11).
  { apply orb_prop in Hlen as [H|H]; apply Nat.eqb_eq in H; auto. }
  destruct c as [|a [|b [|x rest]]] eqn:Ec; try (cbn [length] in Hl; lia).
  cbn [forallb] in Hd.
  apply andb_prop in Hd as [Ha Hd]. apply andb_prop in Hd as [Hb Hd].
  cbn [firstn]. rewrite (py_int_two a b Ha Hb). cbn [bind nth skipn].
  destruct (existsb (Z.eqb (10 * digit_val a + digit_val b)) PhoneValidator.VALID_DDDS)
    eqn:Hddd; cbn [negb].
  2: { eexists. split; [reflexivity|]. cbn [is_valid]. split; [|discriminate].
       split; [discriminate|]. intros (_ & Hin & _).
       apply existsb_Zeqb in Hin. congruence. }
  apply existsb_Zeqb in Hddd.
  cbn [py_index nth_error]. rewrite distinct_one.
  destruct (Nat.eqb_spec (length (a :: b :: x :: rest)) 11) as [E11|E11]; cbn [bind].
  - change (Str.ceqb x (Str.chr 57)) with (N.eqb x (Str.chr 57)).
    destruct (N.eqb_spec x (Str.chr 57)) as [Ex|Ex]; cbn [negb].
    + destruct (all_repeated (x :: rest)) eqn:Hrep.
      * eexists. split; [reflexivity|]. cbn [is_valid]. split; [|discriminate].
        split; [discriminate|]. intros (_ & _ & _ & H). discriminate.
      * eexists. split; [reflexivity|]. cbn [is_valid confidence cleaned_value].
        split; [|auto]. split; [|reflexivity]. intros _. auto.
    + eexists. split; [reflexivity|]. cbn [is_valid]. split; [|discriminate].
      split; [discriminate|]. intros (_ & _ & H & _). exfalso. apply Ex, H. exact E11.
  - destruct (all_repeated (x :: rest)) eqn:Hrep.
    + eexists. split; [reflexivity|]. cbn [is_valid]. split; [|discriminate].
      split; [discriminate|]. intros (_ & _ & _ & H). discriminate.
    + eexists. split; [reflexivity|]. cbn [is_valid confidence cleaned_value].
      split; [|auto]. split; [|reflexivity]. intros _.
      repeat split; auto. intros H. contradiction.
Qed.

(** X7.  For each of the validators the detector registers, the
    confidence alone tells whether the candidate was accepted: an accepted
    candidate has confidence 0.85 or more, a rejected one 0.5 or less. *)
Theorem validity_shows_in_confidence (b : str) (v : str -> py ValidationResult)
        (s : str) (r : ValidationResult) :
  Detector.validators b = Some v -> v s = Ret r ->
  (is_valid r = true -> (85 # 100 <= confidence r)%Q)
  /\ (is_valid r = false -> (confidence r <= 1 # 2)%Q).
Proof.
  unfold Detector.validators. intros Hv Hr.
  destruct (Str.eqb b (u "CPF")); [injection Hv as <-; exact (cpf_separated s r Hr)|].
  destruct (Str.eqb b (u "CNPJ")); [injection Hv as <-; exact (cnpj_separated s r Hr)|].
  destruct (Str.eqb b (u "TELEFONE")); [injection Hv as <-; exact (phone_separated s r Hr)|].
  destruct (Str.eqb b (u "CELULAR")); [injection Hv as <-; exact (phone_separated s r Hr)|].
  destruct (Str.eqb b (u "EMAIL")); [injection Hv as <-; exact (email_separated s r Hr)|].
  destruct (Str.eqb b (u "CEP")); [injection Hv as <-; exact (cep_separated s r Hr)|].
  discriminate Hv.
Qed.

Lemma validity_shows_in_confidence_witness :
  (true = true -> (85 # 100 <= dec 98)%Q) /\ (true = false -> (dec 98 <= 1 # 2)%Q).
Proof.
  exact (validity_shows_in_confidence (u "CPF") CPFValidator.validate (u "529.982.247-25")
           {| is_valid := true; confidence := dec 98;
              message := u "CPF válido - dígitos verificadores conferem";
              cleaned_value := Some (u "52998224725") |}
           eq_refl eq_refl).
Defined.

End Verdicts.

(* ================================================================== *)
(** * Further properties of the pattern catalog *)

Module OrderFacts.
Import Patterns CatalogFacts.

Lemma key_le_start (x y : Match) : key_le x y = true -> (m_start x <= m_start y)%Z.
Proof.
  unfold key_le. intros H. apply orb_prop in H as [H|H].
  - apply Z.ltb_lt in H. lia.
  - apply andb_prop in H as [H _]. apply Z.eqb_eq in H. lia.
Qed.

(** The key as the source words it: an earlier start, or the same start
    and a confidence at least as high. *)
Lemma key_le_spec (x y : Match) :
  key_le x y = true <->
  (m_start x < m_start y)%Z
  \/ (m_start x = m_start y /\ (m_confidence y <= m_confidence x)%Q).
Proof.
  unfold key_le. rewrite orb_true_iff, andb_true_iff, Z.ltb_lt, Z.eqb_eq, Qle_bool_iff.
  split; (intros [H|[H1 H2]]; [left; exact H|right; split; [exact H1|]]).
  - apply Qopp_le_compat in H2. rewrite !Qopp_opp in H2. exact H2.
  - apply Qopp_le_compat. exact H2.
Qed.

Lemma key_le_total (x y : Match) : key_le x y = false -> key_le y x = true.
Proof.
  intros H. apply key_le_spec.
  destruct (Z.lt_trichotomy (m_start x) (m_start y)) as [Hlt|[Heq|Hgt]].
  - assert (key_le x y = true) by (apply key_le_spec; left; exact Hlt). congruence.
  - right. split; [lia|].
    destruct (Qlt_le_dec (m_confidence x) (m_confidence y)) as [Hc|Hc].
    + apply Qlt_le_weak, Hc.
    + assert (key_le x y = true) by (apply key_le_spec; right; split; assumption).
      congruence.
  - left. lia.
Qed.

Lemma key_le_trans (x y z : Match) :
  key_le x y = true -> key_le y z = true -> key_le x z = true.
Proof.
  rewrite !key_le_spec. intros [H1|[H1 C1]] [H2|[H2 C2]].
  - left. lia.
  - left. lia.
  - left. lia.
  - right. split; [lia|]. eapply Qle_trans; eassumption.
Qed.

(** [sorted] sorts: every hit is before the hits with a larger key. *)
Lemma insert_sorted_ordered (x : Match) (l : list Match) :
  ForallOrdPairs (fun a b => key_le a b = true) l ->
  ForallOrdPairs (fun a b => key_le a b = true) (insert_sorted x l).
Proof.
  induction 1 as [|y l Hy Hl IH]; cbn [insert_sorted].
  - constructor; constructor.
  - destruct (key_le x y) eqn:E.
    + constructor; [|constructor; assumption].
      constructor; [exact E|].
      eapply Forall_impl; [|exact Hy]. intros a Ha. eapply key_le_trans; eassumption.
    + constructor; [|exact IH].
      apply Forall_forall. intros a Ha. apply in_insert_sorted in Ha as [->|Ha].
      * apply key_le_total, E.
      * rewrite Forall_forall in Hy. auto.
Qed.

Lemma sorted_ordered (l : list Match) :
  ForallOrdPairs (fun a b => key_le a b = true) (sorted l).
Proof.
  unfold sorted. induction l as [|x l IH]; [constructor|].
  cbn [fold_right]. apply insert_sorted_ordered, IH.
Qed.

(** Sorting an ordered list changes nothing. *)
Lemma sorted_fixed (l : list Match) :
  ForallOrdPairs (fun a b => key_le a b = true) l -> sorted l = l.
Proof.
  unfold sorted. induction 1 as [|x l Hx Hl IH]; [reflexivity|].
  cbn [fold_right]. rewrite IH. destruct l as [|y l]; [reflexivity|].
  cbn [insert_sorted]. inversion Hx as [|? ? Hxy _]; subst. rewrite Hxy. reflexivity.
Qed.

Lemma dedup_loop_grows (l result : list Match) (x : Match) :
  In x result -> In x (dedup_loop result l).
Proof.
  revert result. induction l as [|y l IH]; intros result H; [exact H|].
  cbn [dedup_loop]. apply IH.
  destruct (existsb _ result); [exact H|]. apply in_or_app. left. exact H.
Qed.

(** The loop over ordered hits: each hit is kept, or overlaps a kept hit
    that came before it. *)
Lemma dedup_loop_maximal (l result : list Match) :
  ForallOrdPairs (fun a b => key_le a b = true) l ->
  (forall r y, In r result -> In y l -> key_le r y = true) ->
  forall x, In x l ->
    In x (dedup_loop result l)
    \/ exists k, In k (dedup_loop result l)
                 /\ _has_overlap x k = true /\ key_le k x = true.
Proof.
  intros Hs. revert result. induction Hs as [|y l Hy Hl IH]; intros result Hr x Hx;
    [destruct Hx|].
  cbn [dedup_loop]. destruct Hx as [<-|Hx].
  - destruct (existsb (fun existing => _has_overlap y existing) result) eqn:E.
    + right. apply existsb_exists in E as (k & Hk & Hov).
      exists k. split; [apply dedup_loop_grows, Hk|]. split; [exact Hov|].
      apply Hr; [exact Hk|left; reflexivity].
    + left. apply dedup_loop_grows. apply in_or_app. right. left. reflexivity.
  - apply IH; [|exact Hx].
    intros r z Hin Hz. rewrite Forall_forall in Hy.
    destruct (existsb _ result).
    + apply Hr; [exact Hin|right; exact Hz].
    + apply in_app_or in Hin as [Hin|[<-|[]]]; [apply Hr; [exact Hin|right; exact Hz]|].
      apply Hy, Hz.
Qed.

(** The loop keeps the order of the hits it is given. *)
Lemma dedup_loop_ordered (l result : list Match) :
  ForallOrdPairs (fun a b => key_le a b = true) l ->
  ForallOrdPairs (fun a b => key_le a b = true) result ->
  (forall r y, In r result -> In y l -> key_le r y = true) ->
  ForallOrdPairs (fun a b => key_le a b = true) (dedup_loop result l).
Proof.
  intros Hs. revert result. induction Hs as [|y l Hy Hl IH]; intros result Hres Hr;
    [exact Hres|].
  cbn [dedup_loop]. rewrite Forall_forall in Hy.
  destruct (existsb _ result).
  - apply IH; [exact Hres|]. intros r z Hin Hz. apply Hr; [exact Hin|right; exact Hz].
  - apply IH.
    + apply FOP_snoc; [exact Hres|]. apply Forall_forall. intros a Ha.
      apply Hr; [exact Ha|left; reflexivity].
    + intros r z Hin Hz. apply in_app_or in Hin as [Hin|[<-|[]]].
      * apply Hr; [exact Hin|right; exact Hz].
      * apply Hy, Hz.
Qed.

Lemma deduplicate_ordered (l : list Match) :
  ForallOrdPairs (fun a b => key_le a b = true) (_deduplicate_matches l).
Proof.
  unfold _deduplicate_matches. destruct l as [|y l]; [constructor|].
  apply dedup_loop_ordered; [apply sorted_ordered|constructor|].
  intros r z [].
Qed.

(** On hits no two of which overlap the loop drops nothing. *)
Lemma dedup_loop_fixed (l result : list Match) :
  ForallOrdPairs (fun a b => _has_overlap a b = false) l ->
  (forall r y, In r result -> In y l -> _has_overlap r y = false) ->
  dedup_loop result l = result ++ l.
Proof.
  intros Hs. revert result. induction Hs as [|y l Hy Hl IH]; intros result Hr.
  - cbn [dedup_loop]. rewrite app_nil_r. reflexivity.
  - cbn [dedup_loop].
    assert (E : existsb (fun existing => _has_overlap y existing) result = false).
    { apply not_true_is_false. intros H. apply existsb_exists in H as (k & Hk & Hov).
      rewrite has_overlap_sym in Hov.
      rewrite (Hr k y Hk (or_introl eq_refl)) in Hov. discriminate. }
    rewrite E, IH.
    + rewrite <- app_assoc. reflexivity.
    + rewrite Forall_forall in Hy. intros r z Hin Hz.
      apply in_app_or in Hin as [Hin|[<-|[]]]; [apply Hr; [exact Hin|right; exact Hz]|].
      apply Hy, Hz.
Qed.

Lemma FOP_and {A} (P Q : A -> A -> Prop) (l : list A) :
  ForallOrdPairs P l -> ForallOrdPairs Q l -> ForallOrdPairs (fun a b => P a b /\ Q a b) l.
Proof.
  induction 1 as [|x l Hx _ IH]; intros HQ; [constructor|].
  inversion HQ as [|? ? Hq Hl]; subst. constructor; [|apply IH, Hl].
  rewrite Forall_forall in *. intros a Ha. split; auto.
Qed.

Lemma FOP_implies {A} (P Q : A -> A -> Prop) (l : list A) :
  (forall a b, In a l -> In b l -> P a b -> Q a b) ->
  ForallOrdPairs P l -> ForallOrdPairs Q l.
Proof.
  intros H HP. induction HP as [|x l Hx _ IH]; [constructor|].
  constructor.
  - rewrite Forall_forall in *. intros a Ha. apply H; [left; reflexivity|right; exact Ha|].
    apply Hx, Ha.
  - apply IH. intros a b Ha Hb. apply H; right; assumption.
Qed.

End OrderFacts.

Module Deduplication.
Import Patterns CatalogFacts OrderFacts.

(** X8.  [_deduplicate_matches] drops a hit only for a hit it keeps: every
    hit it is given is kept, or overlaps a kept hit that starts earlier, or
    that starts at the same place with a confidence at least as high.
    The start decides before the confidence does. *)
Theorem dropped_hits_are_covered (matches : list Match) (x : Match) :
  In x matches ->
  In x (_deduplicate_matches matches)
  \/ exists k, In k (_deduplicate_matches matches)
               /\ _has_overlap x k = true
               /\ ((m_start k < m_start x)%Z
                   \/ (m_start k = m_start x /\ (m_confidence x <= m_confidence k)%Q)).
Proof.
  intros Hx. unfold _deduplicate_matches.
  destruct matches as [|y l]; [destruct Hx|].
  destruct (dedup_loop_maximal (sorted (y :: l)) [] (sorted_ordered _)
              (fun r z (H : In r []) _ => match H with end) x
              (proj2 (in_sorted x _) Hx)) as [H|(k & Hk & Hov & Hle)].
  - left. exact H.
  - right. exists k. split; [exact Hk|]. split; [exact Hov|].
    apply key_le_spec, Hle.
Qed.

Lemma dropped_hits_are_covered_witness :
  let a := {| m_type := u "CPF"; m_value := u "123.456.789-09"; m_start := 0; m_end := 14;
              m_confidence := dec 95; m_description := []; m_requires_validation := true;
              m_priority := 1 |} in
  let b := {| m_type := u "TELEFONE"; m_value := u "789-09"; m_start := 8; m_end := 14;
              m_confidence := dec 99; m_description := []; m_requires_validation := false;
              m_priority := 1 |} in
  In b (_deduplicate_matches [b; a])
  \/ exists k, In k (_deduplicate_matches [b; a])
               /\ _has_overlap b k = true
               /\ ((m_start k < m_start b)%Z
                   \/ (m_start k = m_start b /\ (m_confidence b <= m_confidence k)%Q)).
Proof.
  intros a b. apply (dropped_hits_are_covered [b; a] b). left. reflexivity.
Defined.

(** X9.  The hits [find_all] returns are in the order of the text and do
    not touch: of two hits, the one that comes first in the list ends
    where the other starts, or before. *)
Theorem find_all_in_text_order (text : str) :
  ForallOrdPairs (fun a b => (m_end a <= m_start b)%Z) (find_all text).
Proof.
  pose proof (FOP_and _ _ _ (deduplicate_ordered
                (flat_map (fun tp => flat_map (hits_of text (fst tp)) (snd tp))
                          _compiled_patterns))
              (deduplicate_disjoint _)) as H.
  fold (find_all text) in H.
  eapply FOP_implies; [|exact H].
  intros a b Ha Hb [Hle Hov]. cbv beta in Hle, Hov.
  apply key_le_start in Hle.
  destruct (find_all_ok text a Ha) as (_ & Hsa & _).
  destruct (find_all_ok text b Hb) as (_ & Hsb & _).
  unfold _has_overlap in Hov. apply negb_false_iff, orb_prop in Hov as [H1|H1];
    apply Z.leb_le in H1; lia.
Qed.

(** X10.  [_deduplicate_matches] is idempotent: its result is ordered by
    the sort key and free of overlaps, and on such a list neither the sort
    nor the loop changes anything. *)
Theorem deduplicate_idempotent (matches : list Match) :
  _deduplicate_matches (_deduplicate_matches matches) = _deduplicate_matches matches.
Proof.
  pose proof (deduplicate_ordered matches) as Hord.
  pose proof (deduplicate_disjoint matches) as Hdis.
  set (d := _deduplicate_matches matches) in *.
  unfold _deduplicate_matches at 1. destruct d as [|y l] eqn:E; [reflexivity|].
  rewrite (sorted_fixed _ Hord).
  rewrite (dedup_loop_fixed _ [] Hdis); [reflexivity|].
  intros r z [].
Qed.

End Deduplication.

(* ================================================================== *)
(** * Further properties of the detector *)

Module SummaryFacts.
Import Detector Results.

Lemma count_of_count_up (d : list (str * nat)) (t t' : str) :
  count_of (count_up d t) t' = count_of d t' + (if Str.eqb t t' then 1 else 0).
Proof.
  induction d as [|[k n] d IH]; cbn [count_up count_of].
  - destruct (Str.eqb t t'); reflexivity.
  - destruct (StrFacts.eqb_spec k t) as [->|Hkt]; cbn [count_of].
    + destruct (Str.eqb t t'); lia.
    + rewrite IH. destruct (StrFacts.eqb_spec k t') as [->|Hkt'].
      * destruct (StrFacts.eqb_spec t t') as [->|_]; [congruence|lia].
      * reflexivity.
Qed.

Lemma counted_count_up (d : list (str * nat)) (t : str) :
  counted (count_up d t) = S (counted d).
Proof.
  induction d as [|[k n] d IH]; cbn [count_up]; [reflexivity|].
  destruct (Str.eqb k t); cbn [counted fold_right snd] in *; [lia|].
  change (fold_right (fun kv m => snd kv + m) 0 (count_up d t)) with (counted (count_up d t)).
  rewrite IH. unfold counted. lia.
Qed.

Lemma keys_count_up (d : list (str * nat)) (t k : str) :
  In k (map fst (count_up d t)) -> k = t \/ In k (map fst d).
Proof.
  induction d as [|[k' n] d IH]; cbn [count_up map fst In].
  - intros [<-|[]]. left. reflexivity.
  - destruct (Str.eqb k' t); cbn [map fst In]; [tauto|].
    intros [H|H]; [tauto|]. apply IH in H. tauto.
Qed.

Lemma nodup_count_up (d : list (str * nat)) (t : str) :
  NoDup (map fst d) -> NoDup (map fst (count_up d t)).
Proof.
  induction d as [|[k n] d IH]; cbn [count_up map fst]; intros H.
  - constructor; [intros []|constructor].
  - destruct (StrFacts.eqb_spec k t) as [->|Hkt]; cbn [map fst]; [exact H|].
    inversion H as [|? ? Hk Hd]; subst. constructor; [|apply IH, Hd].
    intros Hin. apply keys_count_up in Hin as [E|Hin]; [congruence|contradiction].
Qed.

Lemma positive_count_up (d : list (str * nat)) (t : str) :
  Forall (fun kv => 0 < snd kv) d -> Forall (fun kv => 0 < snd kv) (count_up d t).
Proof.
  induction 1 as [|[k n] d Hk Hd IH]; cbn [count_up].
  - constructor; [cbn; lia|constructor].
  - cbn [snd] in Hk. destruct (Str.eqb k t); constructor; try assumption; cbn [snd]; lia.
Qed.

(** The loop that builds [by_type], from any dictionary. *)
Lemma summarize_from (es : list Entity) (d : list (str * nat)) :
  (forall t, count_of (fold_left (fun by_type entity =>
                                    count_up by_type (base_type_of (type entity))) es d) t
             = count_of d t + length (of_base_type t es))
  /\ counted (fold_left (fun by_type entity =>
                           count_up by_type (base_type_of (type entity))) es d)
     = counted d + length es
  /\ (NoDup (map fst d) ->
      NoDup (map fst (fold_left (fun by_type entity =>
                                   count_up by_type (base_type_of (type entity))) es d)))
  /\ (Forall (fun kv => 0 < snd kv) d ->
      Forall (fun kv => 0 < snd kv)
             (fold_left (fun by_type entity =>
                           count_up by_type (base_type_of (type entity))) es d)).
Proof.
  revert d. induction es as [|e es IH]; intros d; cbn [fold_left].
  - split; [intros t; cbn; lia|]. split; [cbn; lia|]. split; auto.
  - destruct (IH (count_up d (base_type_of (type e)))) as (H1 & H2 & H3 & H4).
    split; [|split; [|split]].
    + intros t. rewrite H1, count_of_count_up. unfold of_base_type. cbn [filter].
      destruct (Str.eqb (base_type_of (type e)) t); cbn [length]; lia.
    + rewrite H2, counted_count_up. cbn [length]. lia.
    + intros Hd. apply H3, nodup_count_up, Hd.
    + intros Hd. apply H4, positive_count_up, Hd.
Qed.

End SummaryFacts.

Module Summary.
Import Detector Results SummaryFacts.

(** X11.  The summary of every result of [detect] agrees with its list of
    entities: [total_entities] is the length of the list, [has_pii] says
    whether the list is non-empty, [by_type] has one entry per base type
    (the suffix _CONTEXTUAL dropped) that occurs, with the number of
    entities of that type, which is never 0, and the counts add up to
    [total_entities]. *)
Theorem summary_agrees_with_entities (self : PIIGuardian) (text : str) :
  exists r, detect self text = Ret r
    /\ total_entities r = length (entities r)
    /\ (has_pii r = true <-> entities r <> [])
    /\ NoDup (map fst (by_type r))
    /\ (forall t, count_of (by_type r) t = length (of_base_type t (entities r)))
    /\ counted (by_type r) = total_entities r
    /\ Forall (fun kv => 0 < snd kv) (by_type r).
Proof.
  unfold detect.
  destruct (Str.eqb text [] || Str.eqb (Str.strip text) []).
  - eexists. split; [reflexivity|]. cbn [total_entities entities has_pii by_type].
    split; [reflexivity|]. split; [split; [discriminate|congruence]|].
    split; [constructor|]. split; [reflexivity|]. split; [reflexivity|constructor].
  - assert (Hv : exists validated,
               (if validate_documents (config self)
                then _validate_consistency (config self) (collect self text)
                else Ret (collect self text)) = Ret validated).
    { destruct (validate_documents (config self)); [|eexists; reflexivity].
      rewrite ValidationFacts.validate_consistency_kept. eexists; reflexivity. }
    destruct Hv as [validated ->]. cbn [bind].
    eexists. split; [reflexivity|]. cbn [total_entities entities has_pii by_type].
    set (filtered := _apply_thresholds (config self) validated).
    destruct (summarize_from filtered []) as (H1 & H2 & H3 & H4).
    split; [reflexivity|]. split; [|split; [|split; [|split]]].
    + destruct filtered; cbn; split; congruence.
    + apply H3. constructor.
    + intros t. apply H1.
    + exact H2.
    + apply H4. constructor.
Qed.

End Summary.

(* ================================================================== *)
(** ** What the validation stage leaves in the result *)

Module StatusFacts.
Import Detector.

Lemma Qmax_ge_r (a b : Q) : (b <= Qmax a b)%Q.
Proof.
  unfold Qmax. destruct (Qle_bool b a) eqn:E; [apply Qle_bool_iff, E|apply Qle_refl].
Qed.

(** What one turn of the validation loop leaves in the entity it keeps. *)
Lemma kept_fields (cfg : DetectionConfig) (e e' : Entity) :
  kept cfg e = Some e' ->
  type e' = type e /\ value e' = value e
  /\ match validators (base_type_of (type e)) with
     | None => validation_status e' = u "not_applicable"
     | Some v =>
         exists r, v (value e) = Ret r
           /\ validation_status e' = (if Validators.is_valid r then u "valid" else u "invalid")
           /\ validation_message e' = Validators.message r
           /\ (Validators.is_valid r = true ->
               confidence e' = Qmax (confidence e) (Validators.confidence r))
           /\ (Validators.is_valid r = false ->
               is_cpf_or_cnpj (base_type_of (type e)) = true -> is_strict (mode cfg) = true)
     end.
Proof.
  unfold kept, validate_one.
  destruct (validators (base_type_of (type e))) as [v|] eqn:Hv.
  - destruct (@ValidationFacts.validators_return _ _ (value e) Hv) as [r Hr].
    rewrite Hr. cbn [bind].
    destruct (Validators.is_valid r) eqn:Hvalid.
    + intros H. injection H as <-.
      cbn [type value validation_status validation_message confidence
           set_explanation set_confidence set_validation].
      split; [reflexivity|]. split; [reflexivity|]. exists r.
      rewrite Hvalid. repeat split; auto; discriminate.
    + destruct (is_cpf_or_cnpj (base_type_of (type e))).
      * destruct (is_strict (mode cfg)); [|discriminate].
        intros H. injection H as <-.
        cbn [type value validation_status validation_message confidence
             set_explanation set_confidence set_validation].
        split; [reflexivity|]. split; [reflexivity|]. exists r.
        rewrite Hvalid. repeat split; auto; discriminate.
      * intros H. injection H as <-.
        cbn [type value validation_status validation_message confidence set_validation].
        split; [reflexivity|]. split; [reflexivity|]. exists r.
        rewrite Hvalid. repeat split; auto; discriminate.
  - intros H. injection H as <-.
    cbn [type value validation_status set_validation]. auto.
Qed.

(** Where the entities of a result come from, when documents are
    validated. *)
Lemma result_entities (self : PIIGuardian) (text : str) :
  validate_documents (config self) = true ->
  exists r, detect self text = Ret r
    /\ forall e', In e' (entities r) ->
         exists e, In e (collect self text)
                   /\ kept (config self) e = Some e'
                   /\ passes (config self) e' = true.
Proof.
  intros Hvd. destruct (PipelineFacts.detect_returns self text) as (r & Hr & Hent).
  exists r. split; [exact Hr|]. intros e' Hin.
  destruct Hent as [E|E]; rewrite E in Hin; [destruct Hin|].
  rewrite Hvd in Hin. unfold _apply_thresholds in Hin.
  apply filter_In in Hin as [Hin Hpass].
  apply in_flat_map in Hin as (e & He & Hk).
  exists e. split; [exact He|]. split; [|exact Hpass].
  destruct (kept (config self) e) as [k|]; [|destruct Hk].
  destruct Hk as [->|[]]. reflexivity.
Qed.

(** The validators of the two documents. *)
Lemma document_validator (b : str) :
  is_cpf_or_cnpj b = true ->
  validators b = Some (if Str.eqb b (u "CPF") then Validators.CPFValidator.validate
                       else Validators.CNPJValidator.validate).
Proof.
  unfold is_cpf_or_cnpj, validators. intros H.
  destruct (Str.eqb b (u "CPF")); [reflexivity|].
  cbn [orb] in H. rewrite H. reflexivity.
Qed.

(** An accepted candidate has confidence 0.85 or more. *)
Lemma accepted_confidence (b : str) (v : str -> py Validators.ValidationResult)
      (s : str) (r : Validators.ValidationResult) :
  validators b = Some v -> v s = Ret r -> Validators.is_valid r = true ->
  (85 # 100 <= Validators.confidence r)%Q.
Proof.
  unfold validators. intros Hv Hr.
  destruct (Str.eqb b (u "CPF"));
    [injection Hv as <-; apply (VerdictFacts.cpf_separated s r Hr)|].
  destruct (Str.eqb b (u "CNPJ"));
    [injection Hv as <-; apply (VerdictFacts.cnpj_separated s r Hr)|].
  destruct (Str.eqb b (u "TELEFONE"));
    [injection Hv as <-; apply (VerdictFacts.phone_separated s r Hr)|].
  destruct (Str.eqb b (u "CELULAR"));
    [injection Hv as <-; apply (VerdictFacts.phone_separated s r Hr)|].
  destruct (Str.eqb b (u "EMAIL"));
    [injection Hv as <-; apply (VerdictFacts.email_separated s r Hr)|].
  destruct (Str.eqb b (u "CEP"));
    [injection Hv as <-; apply (VerdictFacts.cep_separated s r Hr)|].
  discriminate Hv.
Qed.

(** A dictionary lookup gives the default or a value of the dictionary. *)
Lemma dict_get_below (d : dict) (key : str) (default bound : Q) :
  Results.thresholds_below bound d = true -> (default <= bound)%Q ->
  (dict_get d key default <= bound)%Q.
Proof.
  unfold Results.thresholds_below. intros Hd Hdef.
  induction d as [|[k v] d IH]; cbn [dict_get]; [exact Hdef|].
  cbn [forallb snd] in Hd. apply andb_prop in Hd as [Hv Hd].
  destruct (Str.eqb k key); [apply Qle_bool_iff, Hv|apply IH, Hd].
Qed.

(** No threshold of the three modes is above 0.8. *)
Lemma mode_thresholds_below (m : DetectionMode) (b : str) :
  (threshold_for (_get_config_for_mode m) b <= 80 # 100)%Q.
Proof.
  unfold threshold_for.
  assert (H : Results.thresholds_below (80 # 100) (thresholds (_get_config_for_mode m)) = true)
    by (destruct m; vm_compute; reflexivity).
  apply dict_get_below; [exact H|].
  apply dict_get_below; [exact H|]. vm_compute. discriminate.
Qed.

End StatusFacts.

Module Validation.
Import Detector StatusFacts.

(** X12.  When documents are validated, the validation fields of every
    entity that [detect] returns are those of the registered validator run
    on the entity's value: the status is valid or invalid as the validator
    says, the message is the validator's, and the confidence of an accepted
    entity is at least the validator's.  An entity of a type without a
    validator has the status not_applicable.  No returned entity keeps the
    initial status. *)
Theorem validation_fields_agree (self : PIIGuardian) (text : str) :
  validate_documents (config self) = true ->
  exists r, detect self text = Ret r
    /\ forall e, In e (entities r) ->
         match validators (base_type_of (type e)) with
         | None => validation_status e = u "not_applicable"
         | Some v =>
             exists res, v (value e) = Ret res
               /\ validation_status e
                  = (if Validators.is_valid res then u "valid" else u "invalid")
               /\ validation_message e = Validators.message res
               /\ (Validators.is_valid res = true ->
                   (Validators.confidence res <= confidence e)%Q)
         end.
Proof.
  intros Hvd. destruct (result_entities self text Hvd) as (r & Hr & Hent).
  exists r. split; [exact Hr|]. intros e' Hin.
  destruct (Hent e' Hin) as (e & _ & Hk & _).
  destruct (kept_fields _ _ _ Hk) as (Ht & Hval & Hf).
  rewrite Ht, Hval.
  destruct (validators (base_type_of (type e))) as [v|]; [|exact Hf].
  destruct Hf as (res & Hres & Hst & Hmsg & Hconf & _).
  exists res. split; [exact Hres|]. split; [exact Hst|]. split; [exact Hmsg|].
  intros Hv. rewrite (Hconf Hv). apply Qmax_ge_r.
Qed.

Lemma validation_fields_agree_witness :
  exists r, detect {| config := _get_config_for_mode STRICT; bert_model := None |}
                   (u "CPF 123.456.789-00") = Ret r
    /\ forall e, In e (entities r) ->
         match validators (base_type_of (type e)) with
         | None => validation_status e = u "not_applicable"
         | Some v =>
             exists res, v (value e) = Ret res
               /\ validation_status e
                  = (if Validators.is_valid res then u "valid" else u "invalid")
               /\ validation_message e = Validators.message res
               /\ (Validators.is_valid res = true ->
                   (Validators.confidence res <= confidence e)%Q)
         end.
Proof.
  apply (validation_fields_agree
           {| config := _get_config_for_mode STRICT; bert_model := None |}
           (u "CPF 123.456.789-00")).
  reflexivity.
Defined.

(** X13.  Outside the strict mode, when documents are validated, [detect]
    never returns a CPF or CNPJ that fails its check digits: every returned
    entity whose base type is CPF or CNPJ is marked valid, has confidence
    0.98 or more, and the digits of its value are eleven (CPF) or fourteen
    (CNPJ), satisfy the check-digit rule, and are not one of the digits 0 to
    9 of ASCII repeated. *)
Theorem no_invalid_documents (self : PIIGuardian) (text : str) :
  validate_documents (config self) = true ->
  is_strict (mode (config self)) = false ->
  exists r, detect self text = Ret r
    /\ forall e, In e (entities r) ->
         is_cpf_or_cnpj (base_type_of (type e)) = true ->
         validation_status e = u "valid"
         /\ (98 # 100 <= confidence e)%Q
         /\ Validators.listed_repeated (Validators.clean (value e)) = false
         /\ (if Str.eqb (base_type_of (type e)) (u "CPF")
             then length (Validators.clean (value e)) = 11
                  /\ Validators.check_digits_ok 9 Validators.CPFValidator.range_10_1
                        Validators.CPFValidator.range_11_1 (Validators.clean (value e)) = true
             else length (Validators.clean (value e)) = 14
                  /\ Validators.check_digits_ok 12 Validators.CNPJValidator.WEIGHTS_FIRST
                        Validators.CNPJValidator.WEIGHTS_SECOND (Validators.clean (value e))
                      = true).
Proof.
  intros Hvd Hmode. destruct (result_entities self text Hvd) as (r & Hr & Hent).
  exists r. split; [exact Hr|]. intros e' Hin Hdoc.
  destruct (Hent e' Hin) as (e & _ & Hk & _).
  destruct (kept_fields _ _ _ Hk) as (Ht & Hval & Hf).
  rewrite Ht in Hdoc. rewrite Ht, Hval.
  rewrite (document_validator _ Hdoc) in Hf.
  destruct Hf as (res & Hres & Hst & _ & Hconf & Hstrict).
  destruct (Validators.is_valid res) eqn:Hvalid.
  2: { specialize (Hstrict eq_refl Hdoc). congruence. }
  split; [exact Hst|].
  destruct (Str.eqb (base_type_of (type e)) (u "CPF")).
  - pose proof (ValidatorFacts.cpf_exact (value e)) as Hx. rewrite Hres in Hx.
    cbn [Validators.verdict] in Hx. injection Hx as Hx. rewrite Hvalid in Hx.
    pose proof (ValidatorFacts.code_verdict_confidence 9
                  Validators.CPFValidator.range_10_1 Validators.CPFValidator.range_11_1
                  (value e)) as Hc.
    pose proof (proj1 (ValidatorFacts.code_verdict_valid 9
                  Validators.CPFValidator.range_10_1 Validators.CPFValidator.range_11_1
                  (value e))) as Hrule.
    fold Validators.code_cpf in Hc, Hrule. rewrite <- Hx in Hc, Hrule. cbn [fst snd] in Hc, Hrule.
    destruct (Hrule eq_refl) as (Hlen & Hrep & Hok).
    split; [rewrite (Hconf eq_refl), Hc; apply (Qmax_ge_r (confidence e) (dec 98))|].
    split; [exact Hrep|]. split; [exact Hlen|exact Hok].
  - pose proof (ValidatorFacts.cnpj_exact (value e)) as Hx. rewrite Hres in Hx.
    cbn [Validators.verdict] in Hx. injection Hx as Hx. rewrite Hvalid in Hx.
    pose proof (ValidatorFacts.code_verdict_confidence 12
                  Validators.CNPJValidator.WEIGHTS_FIRST
                  Validators.CNPJValidator.WEIGHTS_SECOND (value e)) as Hc.
    pose proof (proj1 (ValidatorFacts.code_verdict_valid 12
                  Validators.CNPJValidator.WEIGHTS_FIRST
                  Validators.CNPJValidator.WEIGHTS_SECOND (value e))) as Hrule.
    fold Validators.code_cnpj in Hc, Hrule. rewrite <- Hx in Hc, Hrule. cbn [fst snd] in Hc, Hrule.
    destruct (Hrule eq_refl) as (Hlen & Hrep & Hok).
    split; [rewrite (Hconf eq_refl), Hc; apply (Qmax_ge_r (confidence e) (dec 98))|].
    split; [exact Hrep|]. split; [exact Hlen|exact Hok].
Qed.

(** The balanced detector on "CPF 529.982.247-25", which it returns. *)
Lemma no_invalid_documents_witness :
  (exists r, detect {| config := _get_config_for_mode BALANCED; bert_model := None |}
                    (u "CPF 529.982.247-25") = Ret r
     /\ forall e, In e (entities r) ->
          is_cpf_or_cnpj (base_type_of (type e)) = true ->
          validation_status e = u "valid"
          /\ (98 # 100 <= confidence e)%Q
          /\ Validators.listed_repeated (Validators.clean (value e)) = false
          /\ (if Str.eqb (base_type_of (type e)) (u "CPF")
              then length (Validators.clean (value e)) = 11
                   /\ Validators.check_digits_ok 9 Validators.CPFValidator.range_10_1
                         Validators.CPFValidator.range_11_1 (Validators.clean (value e)) = true
              else length (Validators.clean (value e)) = 14
                   /\ Validators.check_digits_ok 12 Validators.CNPJValidator.WEIGHTS_FIRST
                         Validators.CNPJValidator.WEIGHTS_SECOND (Validators.clean (value e))
                       = true))
  /\ (exists r e,
        detect {| config := _get_config_for_mode BALANCED; bert_model := None |}
               (u "CPF 529.982.247-25") = Ret r
        /\ In e (entities r)
        /\ type e = u "CPF" /\ value e = u "529.982.247-25"
        /\ is_cpf_or_cnpj (base_type_of (type e)) = true).
Proof.
  split.
  - apply (no_invalid_documents
             {| config := _get_config_for_mode BALANCED; bert_model := None |}
             (u "CPF 529.982.247-25")); reflexivity.
  - eexists. eexists.
    split; [vm_compute; reflexivity|].
    split; [left; reflexivity|].
    split; [reflexivity|]. split; reflexivity.
Defined.

(** X14.  In each of the three modes, a candidate that the first four
    phases found and that its validator accepts is reported: it leaves the
    validation stage marked valid with confidence 0.85 or more, and no
    threshold of the three modes is above 0.8. *)
Theorem accepted_candidates_are_reported
        (m : DetectionMode) (model : option (str -> list Entity)) (text : str)
        (e : Entity) (v : str -> py Validators.ValidationResult)
        (res : Validators.ValidationResult) :
  Str.strip text <> [] ->
  In e (collect {| config := _get_config_for_mode m; bert_model := model |} text) ->
  validators (base_type_of (type e)) = Some v ->
  v (value e) = Ret res ->
  Validators.is_valid res = true ->
  exists r e',
    detect {| config := _get_config_for_mode m; bert_model := model |} text = Ret r
    /\ In e' (entities r)
    /\ core e' = core e
    /\ validation_status e' = u "valid"
    /\ (85 # 100 <= confidence e')%Q.
Proof.
  intros Htext Hin Hv Hres Hvalid.
  set (self := {| config := _get_config_for_mode m; bert_model := model |}) in *.
  (* the entity as the validation stage keeps it *)
  assert (Hk : exists e', kept (config self) e = Some e'
                          /\ core e' = core e
                          /\ validation_status e' = u "valid"
                          /\ (85 # 100 <= confidence e')%Q).
  { unfold kept, validate_one. rewrite Hv, Hres. cbn [bind]. rewrite Hvalid.
    eexists. split; [reflexivity|].
    cbn [core type value start end_ validation_status confidence
         set_explanation set_confidence set_validation].
    split; [reflexivity|]. split; [reflexivity|].
    eapply Qle_trans; [exact (accepted_confidence _ _ _ _ Hv Hres Hvalid)|].
    apply Qmax_ge_r. }
  destruct Hk as (e' & Hk & Hcore & Hst & Hconf).
  exists {| has_pii := 0 <? length (_apply_thresholds (config self)
                          (flat_map (fun x => keep_list (kept (config self) x))
                                    (collect self text)));
            entities := _apply_thresholds (config self)
                          (flat_map (fun x => keep_list (kept (config self) x))
                                    (collect self text));
            total_entities := length (_apply_thresholds (config self)
                          (flat_map (fun x => keep_list (kept (config self) x))
                                    (collect self text)));
            by_type := summarize (_apply_thresholds (config self)
                          (flat_map (fun x => keep_list (kept (config self) x))
                                    (collect self text)));
            text_length := length text;
            meta_mode := Some (mode_value (mode (config self)));
            bert_enabled := Some (match bert_model self with
                                  | Some _ => true | None => false end) |}.
  exists e'. split.
  - unfold detect.
    assert (Hblank : Str.eqb text [] || Str.eqb (Str.strip text) [] = false).
    { apply orb_false_iff. split; apply StrFacts.eqb_neq; [|exact Htext].
      intros ->. apply Htext. reflexivity. }
    rewrite Hblank.
    assert (Hvd : validate_documents (config self) = true) by (destruct m; reflexivity).
    rewrite Hvd, ValidationFacts.validate_consistency_kept. reflexivity.
  - cbn [entities]. split; [|auto].
    unfold _apply_thresholds. apply filter_In. split.
    + apply in_flat_map. exists e. split; [exact Hin|]. rewrite Hk. left. reflexivity.
    + unfold passes. apply Qle_bool_iff.
      eapply Qle_trans; [apply mode_thresholds_below|].
      eapply Qle_trans; [|exact Hconf]. vm_compute. discriminate.
Qed.

Lemma accepted_candidates_are_reported_witness :
  exists r e',
    detect {| config := _get_config_for_mode PRECISE; bert_model := None |}
           (u "CPF 529.982.247-25") = Ret r
    /\ In e' (entities r)
    /\ core e' = core (hd (mkEntity [] [] 0 0 0 [] [])
                          (collect {| config := _get_config_for_mode PRECISE;
                                      bert_model := None |} (u "CPF 529.982.247-25")))
    /\ validation_status e' = u "valid"
    /\ (85 # 100 <= confidence e')%Q.
Proof.
  apply (accepted_candidates_are_reported PRECISE None (u "CPF 529.982.247-25")
           (hd (mkEntity [] [] 0 0 0 [] [])
               (collect {| config := _get_config_for_mode PRECISE; bert_model := None |}
                        (u "CPF 529.982.247-25")))
           Validators.CPFValidator.validate
           {| Validators.is_valid := true; Validators.confidence := dec 98;
              Validators.message := u "CPF válido - dígitos verificadores conferem";
              Validators.cleaned_value := Some (u "52998224725") |}).
  - vm_compute. discriminate.
  - vm_compute. left. reflexivity.
  - match goal with
    | |- validators ?b = _ => replace b with (u "CPF") by (vm_compute; reflexivity)
    end.
    reflexivity.
  - vm_compute. reflexivity.
  - reflexivity.
Defined.

End Validation.

(* ================================================================== *)
(** ** What phase 4 adds, and how a detector is made *)

Module FilterFacts.
Import Detector Results.

Lemma grown_refl (P : Entity -> Prop) (l : list Entity) : grown P l l.
Proof.
  exists []. split; [symmetry; apply app_nil_r|]. split; [constructor|].
  intros pre e post H. destruct pre; discriminate H.
Qed.

Lemma grown_one (P : Entity -> Prop) (l : list Entity) (e : Entity) :
  P e -> has_value l (value e) = false -> grown P l (l ++ [e]).
Proof.
  intros HP Hv. exists [e]. split; [reflexivity|]. split; [constructor; [exact HP|constructor]|].
  intros pre e' post H. destruct pre as [|x pre].
  - injection H as -> _. rewrite app_nil_r. exact Hv.
  - injection H as _ H. destruct pre; discriminate H.
Qed.

Lemma grown_trans (P : Entity -> Prop) (l1 l2 l3 : list Entity) :
  grown P l1 l2 -> grown P l2 l3 -> grown P l1 l3.
Proof.
  intros (a1 & -> & Hp1 & Hf1) (a2 & -> & Hp2 & Hf2).
  exists (a1 ++ a2). split; [symmetry; apply app_assoc|].
  split; [apply Forall_app; split; assumption|].
  intros pre e post H. apply app_eq_app in H as [k [[H1 H2]|[H1 H2]]].
  - destruct k as [|e' k].
    + rewrite app_nil_r in H1. subst pre. cbn [app] in H2.
      specialize (Hf2 [] e post (eq_sym H2)). rewrite app_nil_r in Hf2. exact Hf2.
    + cbn [app] in H2. injection H2 as <- _. exact (Hf1 pre e k H1).
  - subst pre. rewrite app_assoc. exact (Hf2 k e post H2).
Qed.

(** A loop whose turns append at most one entity, of a new value. *)
Lemma grown_fold {H : Type} (P : Entity -> Prop) (step : list Entity -> H -> list Entity)
      (xs : list H) :
  (forall l x, step l x = l
               \/ exists e, step l x = l ++ [e] /\ P e /\ has_value l (value e) = false) ->
  forall l, grown P l (fold_left step xs l).
Proof.
  intros Hstep. induction xs as [|x xs IH]; intros l; cbn [fold_left]; [apply grown_refl|].
  apply grown_trans with (l2 := step l x); [|apply IH].
  destruct (Hstep l x) as [->|(e & -> & HP & Hv)]; [apply grown_refl|].
  apply grown_one; assumption.
Qed.

Lemma has_value_weaker (l : list Entity) (v : str) (q : Entity -> bool) :
  existsb (fun e => Str.eqb (value e) v || q e) l = false -> has_value l v = false.
Proof.
  unfold has_value. induction l as [|e l IH]; cbn [existsb]; [reflexivity|].
  intros H. apply orb_false_elim in H as [H1 H2]. apply orb_false_elim in H1 as [H1 _].
  rewrite H1. cbn [orb]. exact (IH H2).
Qed.

Lemma made_contextual (t v : str) (s e : Z) (c : Q) (x : str) :
  filter_made (mkEntity t v s e c (u "contextual") x).
Proof. unfold filter_made. cbn. auto. Qed.

Lemma made_anti_fn (t v : str) (s e : Z) (c : Q) (x : str) :
  filter_made (mkEntity t v s e c (u "anti_fn") x).
Proof. unfold filter_made. cbn. auto. Qed.



End FilterFacts.

Module Additions.
Import Detector Results FilterFacts.

(** X15.  [_anti_false_negative_filter] only appends: the entities it is
    given stay as they are and where they are, at the head of the list it
    returns.  Every entity it adds has the method contextual or anti_fn and
    the initial validation fields, and its value is the value of no entity
    before it in the list, given or added. *)
Theorem filter_only_appends (entities : list Entity) (text : str) :
  exists added,
    _anti_false_negative_filter entities text = entities ++ added
    /\ Forall filter_made added
    /\ forall pre e post, added = pre ++ e :: post ->
         has_value (entities ++ pre) (value e) = false.
Proof.
  change (grown filter_made entities (_anti_false_negative_filter entities text)).
  unfold _anti_false_negative_filter.
  eapply grown_trans; [|apply grown_fold].
  eapply grown_trans; [|apply grown_fold].
  eapply grown_trans; [|apply grown_fold].
  apply grown_fold.
  - intros l x. unfold contextual_step.
    destruct (existsb _ l) eqn:E; cbn [negb andb]; [left; reflexivity|].
    destruct (negb _); [right|left; reflexivity].
    eexists. split; [reflexivity|]. split; [apply made_contextual|].
    cbn [value mkEntity]. exact (has_value_weaker _ _ _ E).
  - intros l mo. unfold number_step.
    destruct (has_value l _) eqn:E; cbn [negb]; [left; reflexivity|right].
    eexists. split; [reflexivity|]. split; [apply made_anti_fn|exact E].
  - intros l mo. unfold cpf_context_step.
    destruct (9 <=? _); cbn [andb]; [|left; reflexivity].
    destruct (has_value l _) eqn:E; cbn [negb]; [left; reflexivity|right].
    eexists. split; [reflexivity|]. split; [apply made_anti_fn|exact E].
  - intros l mo. unfold name_step.
    destruct (has_value l _) eqn:E; cbn [negb]; [left; reflexivity|].
    destruct (_ || _); [right|left; reflexivity].
    eexists. split; [reflexivity|]. split; [apply made_anti_fn|exact E].
Qed.


End Additions.

(* ================================================================== *)
(** ** The entities read off the token predictions *)

Module TokenFacts.
Import Detector Tokens.

Lemma spans_more (id2label : list (Z * str)) (tokens : list token) (tok : token) (e : Entity) :
  spans_tokens id2label tokens e -> spans_tokens id2label (tokens ++ [tok]) e.
Proof.
  intros (before & a & mid & b & after & -> & Ho & Hs & He).
  exists before, a, mid, b, (after ++ [tok]).
  split; [|auto]. rewrite <- !app_assoc. cbn [app]. rewrite <- app_assoc. reflexivity.
Qed.

Lemma reported_more (id2label : list (Z * str)) (tokens : list token) (tok : token)
      (entities : list Entity) :
  Forall (reported id2label tokens) entities ->
  Forall (reported id2label (tokens ++ [tok])) entities.
Proof.
  intros H. eapply Forall_impl; [|exact H].
  intros e (Hs & Hrest). split; [apply spans_more, Hs|exact Hrest].
Qed.

(** The entity appended when a token closes the current one. *)
Lemma reported_closing (id2label : list (Z * str)) (before mid : list token) (a : token)
      (pred : Z) (o0 o1 : nat) (t v : str) :
  opens id2label t a ->
  reported id2label ((before ++ a :: mid) ++ [(pred, (o0, o1))])
           (bert_entity t v (fst (snd a)) o0).
Proof.
  intros Ho. split; [|cbn; auto].
  exists before, a, mid, (pred, (o0, o1)), [].
  split; [rewrite <- app_assoc; reflexivity|]. cbn. auto.
Qed.

Lemma step_invariant (id2label : list (Z * str)) (text : str) (tokens : list token)
      (acc : list Entity * current) (tok : token) :
  loop_invariant id2label tokens acc ->
  loop_invariant id2label (tokens ++ [tok]) (token_step id2label text acc tok).
Proof.
  destruct acc as [entities cur]. destruct tok as [pred [o0 o1]].
  intros [Hent Hcur]. cbn [fst snd] in Hent, Hcur.
  assert (Hent' := reported_more id2label tokens (pred, (o0, o1)) entities Hent).
  assert (Hkeep : loop_invariant id2label (tokens ++ [(pred, (o0, o1))]) (entities, cur)).
  { split; [exact Hent'|]. cbn [snd]. destruct cur as [[[ce cs] ct]|]; [|exact I].
    destruct Hcur as (before & a & mid & -> & Ho & Hs).
    exists before, a, (mid ++ [(pred, (o0, o1))]).
    split; [rewrite <- app_assoc; reflexivity|auto]. }
  unfold token_step.
  destruct (negb (pred =? 0)%Z && negb (o0 =? o1)) eqn:Etok.
  - apply andb_prop in Etok as [Ep Eo].
    apply negb_true_iff in Ep, Eo. apply Z.eqb_neq in Ep. apply Nat.eqb_neq in Eo.
    destruct (entity_type_of (label_of id2label pred)) as [entity_type|] eqn:Ety;
      [|exact Hkeep].
    destruct (Str.startswith (u "B-") (label_of id2label pred) || other_type cur entity_type).
    + split; cbn [fst snd].
      * destruct cur as [[[ce cs] ct]|]; [|exact Hent'].
        destruct (truthy ce); [|exact Hent'].
        destruct Hcur as (before & a & mid & -> & Ho & ->).
        apply Forall_app. split; [exact Hent'|].
        constructor; [|constructor]. apply reported_closing, Ho.
      * exists tokens, (pred, (o0, o1)), []. split; [reflexivity|].
        split; [|reflexivity]. split; [exact Ep|]. split; [exact Eo|exact Ety].
    + destruct cur as [[[ce cs] ct]|]; [|exact Hkeep].
      split; [exact Hent'|]. exact (proj2 Hkeep).
  - destruct cur as [[[ce cs] ct]|]; [|exact Hkeep].
    destruct (truthy ce); [|exact Hkeep].
    split; cbn [fst snd]; [|exact I].
    destruct Hcur as (before & a & mid & -> & Ho & ->).
    apply Forall_app. split; [exact Hent'|].
    constructor; [|constructor]. apply reported_closing, Ho.
Qed.

Lemma loop_keeps_invariant (id2label : list (Z * str)) (text : str) (rest : list token) :
  forall (tokens : list token) (acc : list Entity * current),
    loop_invariant id2label tokens acc ->
    loop_invariant id2label (tokens ++ rest) (fold_left (token_step id2label text) rest acc).
Proof.
  induction rest as [|tok rest IH]; intros tokens acc H; cbn [fold_left].
  - rewrite app_nil_r. exact H.
  - change (tok :: rest) with ([tok] ++ rest). rewrite app_assoc.
    apply IH, step_invariant, H.
Qed.

(** What the loop reports, for any predictions and offsets. *)
Lemma loop_reports (id2label : list (Z * str)) (text : str)
      (predictions : list Z) (offset_mapping : list (nat * nat)) :
  Forall (reported id2label (combine predictions offset_mapping))
         (_bert_contextual_detection id2label text predictions offset_mapping).
Proof.
  unfold _bert_contextual_detection, token_loop.
  apply (loop_keeps_invariant id2label text (combine predictions offset_mapping) [] ([], None)).
  split; [constructor|exact I].
Qed.





End TokenFacts.

Module TokenEntities.
Import Detector Tokens TokenFacts.

(** X17.  Whatever the predictions and the offsets are, every entity that
    the loop of [_bert_contextual_detection] reports starts where a token
    starts that is predicted, not empty and labelled with the entity's
    type, and ends where a later token starts: the token that closed it.
    So an entity that is still open when the tokens run out is not
    reported, and no entity starts at the last token.  Every reported
    entity has the confidence 0.75, the method bert and the initial
    validation status. *)
Theorem entities_are_closed_by_a_token (id2label : list (Z * str)) (text : str)
        (predictions : list Z) (offset_mapping : list (nat * nat)) :
  Forall (fun e =>
            (exists before a mid b after,
               combine predictions offset_mapping = before ++ a :: mid ++ b :: after
               /\ fst a <> 0%Z /\ fst (snd a) <> snd (snd a)
               /\ entity_type_of (label_of id2label (fst a)) = Some (type e)
               /\ start e = Z.of_nat (fst (snd a)) /\ end_ e = Z.of_nat (fst (snd b)))
            /\ confidence e = dec 75 /\ detection_method e = u "bert"
            /\ validation_status e = u "not_validated")
         (_bert_contextual_detection id2label text predictions offset_mapping).
Proof.
  eapply Forall_impl; [|apply loop_reports].
  intros e ((before & a & mid & b & after & Ht & (Hp & Ho & Hty) & Hs & He) & Hrest).
  split; [|exact Hrest].
  exists before, a, mid, b, after. auto 7.
Qed.



End TokenEntities.

(* ================================================================== *)
(** * Properties of the text utilities *)

Module SpanFacts.
Import Detector Utils.

Lemma firstn_split {A} (p s : nat) (l : list A) :
  p <= s -> firstn s l = firstn p l ++ firstn (s - p) (skipn p l).
Proof.
  revert s l. induction p as [|p IH]; intros s l H.
  - cbn [firstn skipn app]. rewrite Nat.sub_0_r. reflexivity.
  - destruct s as [|s]; [lia|]. destruct l as [|x l]; [cbn [firstn skipn app Nat.sub]; rewrite firstn_nil; reflexivity|].
    cbn [firstn skipn app Nat.sub]. f_equal. apply IH. lia.
Qed.

Lemma insert_desc_last (x : Entity) (l : list Entity) :
  Forall (fun y => (start x < start y)%Z) l -> insert_desc x l = l ++ [x].
Proof.
  induction 1 as [|y l Hy _ IH]; cbn [insert_desc app]; [reflexivity|].
  destruct (Z.leb_spec (start y) (start x)); [lia|]. rewrite IH. reflexivity.
Qed.

(** Entities in the order of the text are sorted by turning the list
    round. *)
Lemma sorted_desc_rev (l : list Entity) :
  in_text_order l -> Forall (fun e => (start e < end_ e)%Z) l -> sorted_desc l = rev l.
Proof.
  unfold in_text_order, sorted_desc.
  induction 1 as [|x l Hx _ IH]; intros Hl; [reflexivity|].
  inversion Hl as [|? ? Hlt Hl']; subst. cbn [fold_right rev].
  rewrite (IH Hl'). apply insert_desc_last, Forall_rev.
  eapply Forall_impl; [|exact Hx]. cbn beta. intros y Hy. lia.
Qed.

(** The loop over entities in the order of the text, taken from the last
    to the first: the text up to any position before the first entity is
    untouched, and after it every span is replaced. *)
Lemma fold_replace (repl : Entity -> str) (text : str) (l : list Entity) :
  in_text_order l -> Forall (inside text) l ->
  forall p, Forall (fun e => p <= Z.to_nat (start e)) l -> p <= length text ->
    fold_right (fun e r => if applies e then splice r (start e) (end_ e) (repl e) else r) text l
    = firstn p text ++ replace_spans repl text p l.
Proof.
  unfold in_text_order.
  induction 1 as [|e l He _ IH]; intros Hin p Hp Hlen; cbn [fold_right replace_spans].
  - symmetry. apply firstn_skipn.
  - inversion Hin as [|? ? (H0 & Hlt & Hend) Hin']; subst.
    inversion Hp as [|? ? Hpe _]; subst.
    assert (Hrest : Forall (fun y => Z.to_nat (end_ e) <= Z.to_nat (start y)) l).
    { eapply Forall_impl; [|exact He]. cbn beta. intros y Hy. lia. }
    rewrite (IH Hin' (Z.to_nat (end_ e)) Hrest ltac:(lia)).
    unfold applies. destruct (Z.leb_spec 0 (start e)); [|lia].
    destruct (Z.ltb_spec (start e) (end_ e)); [|lia]. cbn [andb].
    unfold splice.
    rewrite firstn_app, skipn_app, length_firstn, firstn_firstn.
    rewrite (Nat.min_l (Z.to_nat (end_ e)) (length text)) by lia.
    rewrite (Nat.min_l (Z.to_nat (start e)) (Z.to_nat (end_ e))) by lia.
    replace (Z.to_nat (start e) - Z.to_nat (end_ e)) with 0 by lia.
    rewrite Nat.sub_diag. cbn [firstn skipn].
    rewrite skipn_all2 by (rewrite length_firstn; lia).
    rewrite app_nil_r. cbn [app].
    rewrite (firstn_split p (Z.to_nat (start e)) text Hpe), <- app_assoc.
    reflexivity.
Qed.

(** The two loops as they stand, for entities in the order of the text. *)
Lemma loop_replace (repl : Entity -> str) (text : str) (l : list Entity) :
  in_text_order l -> Forall (inside text) l ->
  fold_left (fun r e => if applies e then splice r (start e) (end_ e) (repl e) else r)
            (sorted_desc l) text
  = replace_spans repl text 0 l.
Proof.
  intros Hord Hin.
  rewrite sorted_desc_rev;
    [|exact Hord|eapply Forall_impl; [|exact Hin]; intros e He; apply He].
  pose proof (fold_left_rev_right
                (fun e r => if applies e then splice r (start e) (end_ e) (repl e) else r)
                (rev l) text) as H.
  rewrite rev_involutive in H. etransitivity; [symmetry; exact H|].
  apply (fold_replace repl text l Hord Hin 0); [|lia].
  apply Forall_forall. intros; lia.
Qed.

Lemma length_str_mul (s : str) (n : nat) : length (str_mul s n) = n * length s.
Proof.
  unfold str_mul. induction n as [|n IH]; cbn [repeat concat]; [reflexivity|].
  rewrite length_app, IH. reflexivity.
Qed.

(** A mask of one character is as long as the value. *)
Lemma length_masked (mask_char value : str) :
  length mask_char = 1 -> length (masked mask_char value) = length value.
Proof.
  intros H. unfold masked. destruct (Nat.ltb_spec 4 (length value)).
  - rewrite !length_app, length_firstn, length_skipn, length_str_mul, H. lia.
  - rewrite length_str_mul, H. lia.
Qed.

(** Replacing spans by pieces of their length moves nothing. *)
Lemma replace_in_place (repl : Entity -> str) (text : str) (l : list Entity) :
  in_text_order l -> Forall (inside text) l ->
  Forall (fun e => Z.of_nat (length (repl e)) = (end_ e - start e)%Z) l ->
  forall p, Forall (fun e => p <= Z.to_nat (start e)) l -> p <= length text ->
    length (replace_spans repl text p l) = length text - p
    /\ forall k, (forall e, In e l -> ~ (start e <= Z.of_nat (p + k) < end_ e)%Z) ->
         nth_error (replace_spans repl text p l) k = nth_error text (p + k).
Proof.
  unfold in_text_order.
  induction 1 as [|e l He _ IH]; intros Hin Hfit p Hp Hlen; cbn [replace_spans].
  - split; [apply length_skipn|]. intros k _. apply nth_error_skipn.
  - inversion Hin as [|? ? (H0 & Hlt & Hend) Hin']; subst.
    inversion Hfit as [|? ? Hfe Hfit']; subst.
    inversion Hp as [|? ? Hpe _]; subst.
    assert (Hrest : Forall (fun y => Z.to_nat (end_ e) <= Z.to_nat (start y)) l).
    { eapply Forall_impl; [|exact He]. cbn beta. intros y Hy. lia. }
    destruct (IH Hin' Hfit' (Z.to_nat (end_ e)) Hrest ltac:(lia)) as [IHlen IHnth].
    assert (Hsl : length (Str.slice text p (Z.to_nat (start e))) = Z.to_nat (start e) - p).
    { unfold Str.slice. rewrite length_firstn, length_skipn. lia. }
    split.
    + rewrite !length_app, Hsl, IHlen. lia.
    + intros k Hk.
      destruct (Nat.lt_ge_cases k (Z.to_nat (start e) - p)) as [Hlo|Hlo].
      * rewrite nth_error_app1 by lia. unfold Str.slice.
        rewrite nth_error_firstn. destruct (Nat.ltb_spec k (Z.to_nat (start e) - p)); [|lia].
        apply nth_error_skipn.
      * rewrite nth_error_app2 by lia. rewrite Hsl.
        destruct (Nat.lt_ge_cases (k - (Z.to_nat (start e) - p)) (length (repl e)))
          as [Hmid|Hmid].
        { exfalso. apply (Hk e (or_introl eq_refl)). lia. }
        rewrite nth_error_app2 by lia.
        rewrite IHnth.
        -- f_equal. lia.
        -- intros y Hy. replace (Z.to_nat (end_ e)
                                 + (k - (Z.to_nat (start e) - p) - length (repl e)))
             with (p + k) by lia.
           apply Hk. right. exact Hy.
Qed.

End SpanFacts.

Module Spans.
Import Detector Utils SpanFacts.

(** X19.  For entities given in the order of the text, each inside the
    text and none reaching into the next, [mask_pii] and [anonymize_text]
    are the replacement from left to right: the text between the spans is
    kept, and each span gives way to its mask, or to the placeholder of its
    type. *)
Theorem replacement_in_text_order (text : str) (entities : list Entity) (mask_char : str) :
  in_text_order entities -> Forall (inside text) entities ->
  mask_pii text entities mask_char
  = replace_spans (fun e => masked mask_char (value e)) text 0 entities
  /\ anonymize_text text entities = replace_spans placeholder_of text 0 entities.
Proof.
  intros Hord Hin. unfold mask_pii, anonymize_text.
  destruct entities as [|e l]; [split; reflexivity|].
  split.
  - exact (loop_replace (fun e => masked mask_char (value e)) text (e :: l) Hord Hin).
  - exact (loop_replace placeholder_of text (e :: l) Hord Hin).
Qed.

Lemma replacement_in_text_order_witness :
  mask_pii (u "CPF 529.982.247-25, CEP 70040-010.")
           [mkEntity (u "CPF") (u "529.982.247-25") 4 18 (dec 98) (u "regex") [];
            mkEntity (u "CEP") (u "70040-010") 24 33 (dec 85) (u "regex") []] (u "*")
  = replace_spans (fun e => masked (u "*") (value e)) (u "CPF 529.982.247-25, CEP 70040-010.") 0
           [mkEntity (u "CPF") (u "529.982.247-25") 4 18 (dec 98) (u "regex") [];
            mkEntity (u "CEP") (u "70040-010") 24 33 (dec 85) (u "regex") []]
  /\ anonymize_text (u "CPF 529.982.247-25, CEP 70040-010.")
           [mkEntity (u "CPF") (u "529.982.247-25") 4 18 (dec 98) (u "regex") [];
            mkEntity (u "CEP") (u "70040-010") 24 33 (dec 85) (u "regex") []]
     = replace_spans placeholder_of (u "CPF 529.982.247-25, CEP 70040-010.") 0
           [mkEntity (u "CPF") (u "529.982.247-25") 4 18 (dec 98) (u "regex") [];
            mkEntity (u "CEP") (u "70040-010") 24 33 (dec 85) (u "regex") []].
Proof.
  apply replacement_in_text_order.
  - repeat constructor; cbn; lia.
  - repeat (apply Forall_cons;
            [split; [|split]; vm_compute; (reflexivity || discriminate)|]).
    apply Forall_nil.
Defined.

(** X20.  With a mask of one character, and entities in the order of the
    text whose values are as long as their spans, [mask_pii] keeps every
    character in its place: the masked text is as long as the text, and
    outside the spans of the entities it is the text. *)
Theorem mask_keeps_positions (text : str) (entities : list Entity) (mask_char : str) :
  length mask_char = 1 ->
  in_text_order entities -> Forall (inside text) entities -> Forall value_fits entities ->
  length (mask_pii text entities mask_char) = length text
  /\ forall i, (forall e, In e entities -> ~ (start e <= Z.of_nat i < end_ e)%Z) ->
       nth_error (mask_pii text entities mask_char) i = nth_error text i.
Proof.
  intros Hc Hord Hin Hfit.
  assert (Hm : mask_pii text entities mask_char
               = replace_spans (fun e => masked mask_char (value e)) text 0 entities).
  { unfold mask_pii. destruct entities as [|e l]; [reflexivity|].
    exact (loop_replace (fun e => masked mask_char (value e)) text (e :: l) Hord Hin). }
  rewrite Hm.
  destruct (replace_in_place (fun e => masked mask_char (value e)) text entities Hord Hin)
    with (p := 0) as [Hlen Hnth].
  - eapply Forall_impl; [|exact Hfit]. cbn beta. intros e He.
    rewrite (length_masked mask_char (value e) Hc). exact He.
  - apply Forall_forall. intros; lia.
  - lia.
  - split; [rewrite Hlen; lia|]. intros i Hi. exact (Hnth i Hi).
Qed.

Lemma mask_keeps_positions_witness :
  length (mask_pii (u "CPF 529.982.247-25, CEP 70040-010.")
           [mkEntity (u "CPF") (u "529.982.247-25") 4 18 (dec 98) (u "regex") [];
            mkEntity (u "CEP") (u "70040-010") 24 33 (dec 85) (u "regex") []] (u "*"))
  = length (u "CPF 529.982.247-25, CEP 70040-010.")
  /\ forall i,
       (forall e,
           In e [mkEntity (u "CPF") (u "529.982.247-25") 4 18 (dec 98) (u "regex") [];
                 mkEntity (u "CEP") (u "70040-010") 24 33 (dec 85) (u "regex") []] ->
           ~ (start e <= Z.of_nat i < end_ e)%Z) ->
       nth_error (mask_pii (u "CPF 529.982.247-25, CEP 70040-010.")
           [mkEntity (u "CPF") (u "529.982.247-25") 4 18 (dec 98) (u "regex") [];
            mkEntity (u "CEP") (u "70040-010") 24 33 (dec 85) (u "regex") []] (u "*")) i
       = nth_error (u "CPF 529.982.247-25, CEP 70040-010.") i.
Proof.
  apply mask_keeps_positions.
  - reflexivity.
  - repeat constructor; cbn; lia.
  - repeat (apply Forall_cons;
            [split; [|split]; vm_compute; (reflexivity || discriminate)|]).
    apply Forall_nil.
  - repeat (apply Forall_cons; [vm_compute; reflexivity|]). apply Forall_nil.
Defined.

End Spans.

(* ================================================================== *)
(** ** Splitting a text into chunks *)

Module ChunkFacts.
Import Utils.

Lemma length_lstrip (s : str) : length (Str.lstrip s) <= length s.
Proof.
  induction s as [|c s IH]; cbn [Str.lstrip length]; [lia|].
  destruct (Str.isspace c); cbn [length]; lia.
Qed.

Lemma length_strip (s : str) : length (Str.strip s) <= length s.
Proof.
  unfold Str.strip. rewrite length_rev.
  pose proof (length_lstrip (rev (Str.lstrip s))) as H1. rewrite length_rev in H1.
  pose proof (length_lstrip s). lia.
Qed.

Lemma bound_le_length (n : nat) (i : Z) : bound n i <= n.
Proof. unfold bound. destruct (Z.ltb_spec i 0); lia. Qed.

Lemma bound_nonneg (n : nat) (i : Z) : (0 <= i)%Z -> (Z.of_nat (bound n i) <= i)%Z.
Proof. unfold bound. intros H. destruct (Z.ltb_spec i 0); lia. Qed.

(** A slice between two positions is no longer than their distance. *)
Lemma length_slice_z (s : str) (a b : Z) :
  (0 <= a)%Z -> (a <= b)%Z -> (Z.of_nat (length (slice_z s a b)) <= b - a)%Z.
Proof.
  intros Ha Hab. unfold slice_z, Str.slice, bound.
  rewrite length_firstn, length_skipn.
  destruct (Z.ltb_spec a 0); [lia|]. destruct (Z.ltb_spec b 0); lia.
Qed.

(** What [rfind] can answer: the initial answer, or a position that is in
    the string and between the bounds. *)
Lemma rfind_from_range (c : Str.char) (s : str) :
  forall (i lo hi : nat) (best : Z),
    rfind_from c s i lo hi best = best
    \/ (Z.of_nat lo <= rfind_from c s i lo hi best < Z.of_nat hi
        /\ Z.of_nat i <= rfind_from c s i lo hi best < Z.of_nat (i + length s))%Z.
Proof.
  induction s as [|x s IH]; intros i lo hi best; cbn [rfind_from length]; [left; reflexivity|].
  destruct (IH (S i) lo hi
               (if (lo <=? i) && (i <? hi) && Str.ceqb x c then Z.of_nat i else best))
    as [E|[H1 H2]].
  - rewrite E. destruct ((lo <=? i) && (i <? hi) && Str.ceqb x c) eqn:Ec; [right|left; reflexivity].
    apply andb_prop in Ec as [Ec _]. apply andb_prop in Ec as [Elo Ehi].
    apply Nat.leb_le in Elo. apply Nat.ltb_lt in Ehi. lia.
  - right. lia.
Qed.

Lemma rfind_lt_length (c : Str.char) (s : str) (a b : Z) :
  (rfind c s a b < Z.of_nat (length s))%Z.
Proof.
  unfold rfind.
  destruct (rfind_from_range c s 0 (bound (length s) a) (bound (length s) b) (-1))
    as [->|[_ H]]; lia.
Qed.

Lemma rfind_lt_bound (c : Str.char) (s : str) (a b : Z) :
  (0 <= b)%Z -> (rfind c s a b < b)%Z.
Proof.
  intros Hb. unfold rfind.
  destruct (rfind_from_range c s 0 (bound (length s) a) (bound (length s) b) (-1))
    as [->|[H _]]; [lia|].
  pose proof (bound_nonneg (length s) b Hb). lia.
Qed.

(** Where a turn can put [end]. *)
Lemma chunk_end_cases (text : str) (max_length start_ : Z) :
  chunk_end text max_length start_ = (start_ + max_length)%Z
  \/ (start_ + max_length / 2 < chunk_end text max_length start_
      /\ chunk_end text max_length start_ < Z.of_nat (length text)
      /\ (0 <= start_ + max_length ->
          chunk_end text max_length start_ < start_ + max_length))%Z.
Proof.
  unfold chunk_end. cbv zeta.
  destruct (start_ + max_length <? Z.of_nat (length text))%Z; [|left; reflexivity].
  destruct (Z.ltb_spec (start_ + max_length / 2)
                       (rfind (Str.chr 32) text start_ (start_ + max_length)));
    [right|left; reflexivity].
  split; [assumption|]. split; [apply rfind_lt_length|apply rfind_lt_bound].
Qed.

(** More turns do not change what the loop returns. *)
Lemma chunk_loop_more (text : str) (max_length overlap : Z) (turns : nat) :
  forall (turns' : nat) (start_ : Z) (chunks out : list str),
    turns <= turns' ->
    chunk_loop turns text max_length overlap start_ chunks = Some out ->
    chunk_loop turns' text max_length overlap start_ chunks = Some out.
Proof.
  induction turns as [|turns IH]; intros turns' start_ chunks out Hle; [discriminate|].
  destruct turns' as [|turns']; [lia|]. cbn [chunk_loop]. cbv zeta.
  destruct (start_ <? Z.of_nat (length text))%Z; [|auto].
  apply IH. lia.
Qed.

(** The loop from a position that is not negative, when every turn moves
    on. *)
Lemma chunk_loop_returns (text : str) (max_length overlap : Z) :
  (1 <= max_length)%Z -> (overlap <= max_length / 2)%Z ->
  forall (turns : nat) (start_ : Z) (chunks : list str),
    (0 <= start_)%Z ->
    (Z.max 0 (Z.of_nat (length text) - start_) < Z.of_nat turns)%Z ->
    exists more,
      chunk_loop turns text max_length overlap start_ chunks = Some (chunks ++ more)
      /\ Forall (fun c => (Z.of_nat (length c) <= max_length)%Z) more
      /\ ((start_ < Z.of_nat (length text))%Z -> more <> []).
Proof.
  intros Hm Ho.
  assert (Hhalf : (max_length / 2 < max_length)%Z) by (apply Z.div_lt; lia).
  assert (Hhalf0 : (0 <= max_length / 2)%Z) by (apply Z.div_pos; lia).
  induction turns as [|turns IH]; intros start_ chunks Hs Ht.
  - exfalso. lia.
  - cbn [chunk_loop]. cbv zeta.
    destruct (Z.ltb_spec start_ (Z.of_nat (length text))) as [Hlt|Hge].
    + assert (Hend : (start_ + max_length / 2 < chunk_end text max_length start_
                      /\ chunk_end text max_length start_ <= start_ + max_length)%Z).
      { destruct (chunk_end_cases text max_length start_) as [->|(H1 & _ & H3)]; lia. }
      destruct (IH (chunk_end text max_length start_ - overlap)%Z
                   (chunks ++ [Str.strip (slice_z text start_ (chunk_end text max_length start_))])
                   ltac:(lia) ltac:(lia)) as (more & Hloop & Hsmall & _).
      exists (Str.strip (slice_z text start_ (chunk_end text max_length start_)) :: more).
      split; [rewrite Hloop, <- app_assoc; reflexivity|].
      split; [|discriminate].
      constructor; [|exact Hsmall].
      pose proof (length_strip (slice_z text start_ (chunk_end text max_length start_))).
      pose proof (length_slice_z text start_ (chunk_end text max_length start_)
                                 Hs ltac:(lia)).
      lia.
    + exists []. split; [rewrite app_nil_r; reflexivity|]. split; [constructor|lia].
Qed.

(** The loop from a position inside the text, when no turn moves on. *)
Lemma chunk_loop_stays (text : str) (max_length overlap : Z) :
  (max_length <= overlap)%Z -> (0 <= overlap)%Z ->
  forall (turns : nat) (start_ : Z) (chunks : list str),
    (start_ < Z.of_nat (length text))%Z ->
    chunk_loop turns text max_length overlap start_ chunks = None.
Proof.
  intros Hm Ho. induction turns as [|turns IH]; intros start_ chunks Hs; [reflexivity|].
  cbn [chunk_loop]. cbv zeta.
  destruct (Z.ltb_spec start_ (Z.of_nat (length text))); [|lia].
  apply IH. destruct (chunk_end_cases text max_length start_) as [->|(_ & H2 & _)]; lia.
Qed.

End ChunkFacts.

Module Chunks.
Import Utils ChunkFacts.

(** X21.  When [max_length] is at least 1 and [overlap] at most half of it
    (as with the defaults 512 and 50), [chunk_text] returns for every text:
    its loop ends within as many turns as the text has characters.  It
    returns at least one chunk and no chunk is longer than [max_length]. *)
Theorem chunk_text_returns (text : str) (max_length overlap : Z) :
  (1 <= max_length)%Z -> (overlap <= max_length / 2)%Z ->
  exists chunks,
    (forall turns, length text < turns ->
                   chunk_text turns text max_length overlap = Some chunks)
    /\ chunks <> []
    /\ Forall (fun c => (Z.of_nat (length c) <= max_length)%Z) chunks.
Proof.
  intros Hm Ho. unfold chunk_text.
  destruct (Z.leb_spec (Z.of_nat (length text)) max_length) as [Hle|Hgt].
  - exists [text]. split; [reflexivity|]. split; [discriminate|].
    constructor; [exact Hle|constructor].
  - destruct (chunk_loop_returns text max_length overlap Hm Ho (S (length text)) 0 [])
      as (more & Hloop & Hsmall & Hne); [lia|lia|].
    exists more. split; [|split; [apply Hne; lia|exact Hsmall]].
    intros turns Ht.
    apply (chunk_loop_more text max_length overlap (S (length text)));
      [lia|exact Hloop].
Qed.

Lemma chunk_text_returns_witness :
  exists chunks,
    (forall turns, length (u "aaaa bbbb cccc dddd eeee ffff") < turns ->
                   chunk_text turns (u "aaaa bbbb cccc dddd eeee ffff") 10 5 = Some chunks)
    /\ chunks <> []
    /\ Forall (fun c => (Z.of_nat (length c) <= 10)%Z) chunks.
Proof.
  apply chunk_text_returns.
  - vm_compute. discriminate.
  - vm_compute. discriminate.
Defined.

(** X22.  When [overlap] is not negative and not less than [max_length],
    [chunk_text] never returns for a text that is not empty and longer than
    [max_length]: no turn of its loop moves [start] to the end of the text,
    so no number of turns ends the loop. *)
Theorem chunk_text_never_returns (text : str) (max_length overlap : Z) :
  text <> [] ->
  (max_length < Z.of_nat (length text))%Z ->
  (max_length <= overlap)%Z -> (0 <= overlap)%Z ->
  forall turns, chunk_text turns text max_length overlap = None.
Proof.
  intros Hne Hlen Hm Ho turns. unfold chunk_text.
  destruct (Z.leb_spec (Z.of_nat (length text)) max_length); [lia|].
  apply chunk_loop_stays; [exact Hm|exact Ho|].
  destruct text as [|c text]; [congruence|]. cbn [length]. lia.
Qed.

(** Ten characters at a time with an overlap of ten, after a thousand
    turns. *)
Lemma chunk_text_never_returns_witness :
  chunk_text 1000 (u "aaaa bbbb cccc dddd eeee ffff") 10 10 = None.
Proof.
  apply (chunk_text_never_returns (u "aaaa bbbb cccc dddd eeee ffff") 10 10).
  - discriminate.
  - vm_compute. reflexivity.
  - vm_compute. discriminate.
  - vm_compute. discriminate.
Defined.

End Chunks.
